(** * Address book (task_01.py): fields, records, the book and the
      upcoming-birthday query.

    The development follows the Python module class by class.  Python
    strings are sequences of Unicode code points, exceptions are values of
    [exn], and a method that mutates [self] is a computation in a small
    state-and-exception monad [M], so that "raised after a partial update"
    is expressible (and can be ruled out). *)

From Stdlib Require Import ZArith NArith Lia Ascii String DecimalString.
From stdpp Require Import base option list strings.

Local Open Scope Z_scope.

(** ** Python strings *)

(** A [str] is a sequence of code points. *)
Definition pystr := list N.

(** Literals: the code points of an ASCII (Latin-1) literal. *)
Definition py (s : string) : pystr :=
  map N_of_ascii (list_ascii_of_string s).

(** Closed code-point ranges [lo, hi]. *)
Definition in_ranges (table : list (N * N)) (c : N) : bool :=
  existsb (fun r => (fst r <=? c)%N && (c <=? snd r)%N) table.

(** [str.isspace] per character (Unicode 14.0, as CPython 3.11 ships it). *)
Definition whitespace_table : list (N * N) :=
  [ (0x9, 0xd); (0x1c, 0x20); (0x85, 0x85); (0xa0, 0xa0); (0x1680, 0x1680);
    (0x2000, 0x200a); (0x2028, 0x2029); (0x202f, 0x202f); (0x205f, 0x205f);
    (0x3000, 0x3000) ]%N.

Definition char_isspace (c : N) : bool := in_ranges whitespace_table c.

(** Zero digits of the Unicode decimal-digit runs (category Nd): each run is
    ten consecutive code points with values 0..9. *)
Definition decimal_zero_table : list N :=
  [ 0x30; 0x660; 0x6f0; 0x7c0; 0x966; 0x9e6; 0xa66; 0xae6; 0xb66; 0xbe6;
    0xc66; 0xce6; 0xd66; 0xde6; 0xe50; 0xed0; 0xf20; 0x1040; 0x1090; 0x17e0;
    0x1810; 0x1946; 0x19d0; 0x1a80; 0x1a90; 0x1b50; 0x1bb0; 0x1c40; 0x1c50;
    0xa620; 0xa8d0; 0xa900; 0xa9d0; 0xa9f0; 0xaa50; 0xabf0; 0xff10; 0x104a0;
    0x10d30; 0x11066; 0x110f0; 0x11136; 0x111d0; 0x112f0; 0x11450; 0x114d0;
    0x11650; 0x116c0; 0x11730; 0x118e0; 0x11950; 0x11c50; 0x11d50; 0x11da0;
    0x16a60; 0x16ac0; 0x16b50; 0x1d7ce; 0x1d7d8; 0x1d7e2; 0x1d7ec; 0x1d7f6;
    0x1e140; 0x1e2f0; 0x1e950; 0x1fbf0 ]%N.

(** The decimal value of a character, when it is a decimal digit
    ([unicodedata.decimal]); this is what the regex class [\d] and [int]
    use. *)
Fixpoint decimal_in (zeros : list N) (c : N) : option Z :=
  match zeros with
  | [] => None
  | z :: zeros' =>
      if ((z <=? c)%N && (c <=? z + 9)%N)%bool then Some (Z.of_N (c - z))
      else decimal_in zeros' c
  end.

Definition char_decimal (c : N) : option Z := decimal_in decimal_zero_table c.

(** [str.isdecimal] per character. *)
Definition char_isdecimal (c : N) : bool := bool_decide (is_Some (char_decimal c)).

(** Characters with Numeric_Type=Digit that are not decimal digits:
    superscripts, subscripts, circled and parenthesized digits and so on. *)
Definition other_digit_table : list (N * N) :=
  [ (0xb2, 0xb3); (0xb9, 0xb9); (0x1369, 0x1371); (0x19da, 0x19da);
    (0x2070, 0x2070); (0x2074, 0x2079); (0x2080, 0x2089); (0x2460, 0x2468);
    (0x2474, 0x247c); (0x2488, 0x2490); (0x24ea, 0x24ea); (0x24f5, 0x24fd);
    (0x24ff, 0x24ff); (0x2776, 0x277e); (0x2780, 0x2788); (0x278a, 0x2792);
    (0x10a40, 0x10a43); (0x10e60, 0x10e68); (0x11052, 0x1105a);
    (0x1f100, 0x1f10a) ]%N.

(** [str.isdigit] per character: Numeric_Type is Decimal or Digit. *)
Definition char_isdigit (c : N) : bool :=
  char_isdecimal c || in_ranges other_digit_table c.

(** [str.isdigit]: every character is a digit and there is at least one. *)
Definition isdigit (s : pystr) : bool :=
  match s with
  | [] => false
  | _ => forallb char_isdigit s
  end.

(** [str.lstrip], [str.rstrip] and [str.strip] with no argument. *)
Fixpoint lstrip (s : pystr) : pystr :=
  match s with
  | c :: s' => if char_isspace c then lstrip s' else s
  | [] => []
  end.

Definition rstrip (s : pystr) : pystr := reverse (lstrip (reverse s)).

Definition strip (s : pystr) : pystr := rstrip (lstrip s).

(** ** Exceptions and the method monad *)

Inductive exn : Type :=
  | ValueError (msg : string)
  | OverflowError (msg : string).

(** The outcome of an expression that may raise. *)
Definition result (A : Type) : Type := exn + A.

Definition result_bind {A B} (r : result A) (k : A -> result B) : result B :=
  match r with
  | inl e => inl e
  | inr a => k a
  end.

(** A method run on the object state [S]: it returns or raises, and leaves
    a (possibly updated) object behind in both cases. *)
Definition M (S A : Type) : Type := S -> result A * S.

Definition ret {S A} (a : A) : M S A := fun s => (inr a, s).
Definition raise {S A} (e : exn) : M S A := fun s => (inl e, s).
Definition bind {S A B} (m : M S A) (k : A -> M S B) : M S B :=
  fun s =>
    match m s with
    | (inl e, s') => (inl e, s')
    | (inr a, s') => k a s'
    end.
Definition get {S} : M S S := fun s => (inr s, s).
Definition put {S} (s : S) : M S unit := fun _ => (inr tt, s).
(** Evaluating an expression that does not touch the object. *)
Definition eval {S A} (r : result A) : M S A := fun s => (r, s).

Declare Scope method_scope.
Delimit Scope method_scope with method.
Bind Scope method_scope with M.
Notation "'let!' x ':=' m 'in' k" := (bind m (fun x => k))
  (at level 10, x name, m at level 100, k at level 200) : method_scope.

(** ** Fields *)

Definition msg_empty_name : string := "Name cannot be empty or contain only spaces".
Definition msg_bad_phone : string := "Phone number must contain 10 digits.".
Definition msg_bad_date : string := "Invalid date format. Use DD.MM.YYYY".
Definition msg_duplicate : string := "Phone number already in use. Enter a new phone number.".
Definition msg_not_found : string := "Phone number not found.".

(** The three kinds of failure the specification names, as the exceptions
    the code raises for them. *)
Definition DuplicatePhoneError : exn := ValueError msg_duplicate.
Definition NotFoundError : exn := ValueError msg_not_found.
Definition PhoneValidationError : exn := ValueError msg_bad_phone.
Definition DateValidationError : exn := ValueError msg_bad_date.
Definition NameValidationError : exn := ValueError msg_empty_name.

(** [Name.__init__]: the stored value is the trimmed string. *)
Definition Name (value : pystr) : result pystr :=
  match strip value with
  | [] => inl NameValidationError
  | _ => inr (strip value)
  end.

(** [Phone.__init__]: the stored value is the string itself. *)
Definition Phone (value : pystr) : result pystr :=
  if negb (isdigit value) || negb (Z.of_nat (length value) =? 10)
  then inl PhoneValidationError
  else inr value.


(** ** Calendar dates ([datetime.date])

    The proleptic Gregorian calendar of CPython's [datetime] module, with
    its own helper functions and tables. *)

Record date : Type := mkdate { year : Z; month : Z; day : Z }.

#[global] Instance date_eq_dec : EqDecision date.
Proof. solve_decision. Defined.

Definition MINYEAR : Z := 1.
Definition MAXYEAR : Z := 9999.
Definition MAXORDINAL : Z := 3652059.

Definition DAYS_IN_MONTH : list Z :=
  [-1; 31; 28; 31; 30; 31; 30; 31; 31; 30; 31; 30; 31].
Definition DAYS_BEFORE_MONTH : list Z :=
  [-1; 0; 31; 59; 90; 120; 151; 181; 212; 243; 273; 304; 334].

Definition table_get (t : list Z) (i : Z) : Z := nth (Z.to_nat i) t 0.

Definition is_leap (y : Z) : bool :=
  (y mod 4 =? 0) && (negb (y mod 100 =? 0) || (y mod 400 =? 0)).

Definition days_before_year (y : Z) : Z :=
  let y := y - 1 in y * 365 + y / 4 - y / 100 + y / 400.

Definition days_in_month (y m : Z) : Z :=
  if (m =? 2) && is_leap y then 29 else table_get DAYS_IN_MONTH m.

Definition days_before_month (y m : Z) : Z :=
  table_get DAYS_BEFORE_MONTH m + (if (2 <? m) && is_leap y then 1 else 0).

Definition ymd2ord (y m d : Z) : Z :=
  days_before_year y + days_before_month y m + d.

Definition DI400Y : Z := 146097.
Definition DI100Y : Z := 36524.
Definition DI4Y : Z := 1461.

(** Ordinal to (year, month, day), 1 January of year 1 being day 1. *)
Definition ord2ymd (n : Z) : date :=
  let n := n - 1 in
  let n400 := n / DI400Y in
  let n := n mod DI400Y in
  let y := n400 * 400 + 1 in
  let n100 := n / DI100Y in
  let n := n mod DI100Y in
  let n4 := n / DI4Y in
  let n := n mod DI4Y in
  let n1 := n / 365 in
  let n := n mod 365 in
  let y := y + n100 * 100 + n4 * 4 + n1 in
  if (n1 =? 4) || (n100 =? 4) then mkdate (y - 1) 12 31
  else
    let leapyear := (n1 =? 3) && (negb (n4 =? 24) || (n100 =? 3)) in
    let m := Z.shiftr (n + 50) 5 in
    let preceding :=
      table_get DAYS_BEFORE_MONTH m + (if (2 <? m) && leapyear then 1 else 0) in
    if n <? preceding then
      let m := m - 1 in
      let preceding :=
        preceding
        - (table_get DAYS_IN_MONTH m + (if (m =? 2) && leapyear then 1 else 0)) in
      mkdate y m (n - preceding + 1)
    else mkdate y m (n - preceding + 1).

(** [%i] of the C formats: the decimal numeral of an integer. *)
Definition decimal_string (n : Z) : string :=
  NilZero.string_of_int (Z.to_int n).

(** The constructor's field check; the messages are those of the C
    implementation (CPython 3.11). *)
Definition check_date_fields (y m d : Z) : result date :=
  if negb ((MINYEAR <=? y) && (y <=? MAXYEAR))
  then inl (ValueError
              (String.append "year "
                 (String.append (decimal_string y) " is out of range")))
  else if negb ((1 <=? m) && (m <=? 12))
  then inl (ValueError "month must be in 1..12")
  else if negb ((1 <=? d) && (d <=? days_in_month y m))
  then inl (ValueError "day is out of range for month")
  else inr (mkdate y m d).

(** [d.replace(year=y)]. *)
Definition date_replace_year (d : date) (y : Z) : result date :=
  check_date_fields y (month d) (day d).

Definition toordinal (d : date) : Z := ymd2ord (year d) (month d) (day d).

Definition fromordinal (n : Z) : date := ord2ymd n.

(** [d.weekday()]: Monday is 0, Saturday 5, Sunday 6. *)
Definition weekday (d : date) : Z := (toordinal d + 6) mod 7.

(** [a < b] on dates compares (year, month, day). *)
Definition date_ltb (a b : date) : bool :=
  (year a <? year b)
  || ((year a =? year b)
      && ((month a <? month b) || ((month a =? month b) && (day a <? day b)))).

(** [(a - b).days]. *)
Definition date_diff_days (a b : date) : Z := toordinal a - toordinal b.

(** [d + timedelta(days=n)]. *)
Definition date_add_days (d : date) (n : Z) : result date :=
  let o := toordinal d + n in
  if (0 <? o) && (o <=? MAXORDINAL) then inr (fromordinal o)
  else inl (OverflowError "date value out of range").

(** *** [strptime] with the format [%d.%m.%Y]

    [_strptime] compiles the format to the regular expression
    [(3[0-1]|[1-2]\d|0[1-9]|[1-9]| [1-9])\.(1[0-2]|0[1-9]|[1-9])\.(\d\d\d\d)],
    matches it at the start of the data, requires that nothing is left
    over, converts the groups with [int] and builds the date.  The regex is
    modelled by backtracking parsers that list their matches in the order
    the engine tries them; the match is the first one. *)

Definition parser (A : Type) : Type := pystr -> list (A * pystr).

(** One character of an ASCII class [lo-hi], with its digit value. *)
Definition ascii_class (lo hi : N) : parser Z := fun s =>
  match s with
  | c :: r => if ((lo <=? c)%N && (c <=? hi)%N)%bool
              then [(Z.of_N (c - 48), r)] else []
  | [] => []
  end.

(** One character [\d]: any Unicode decimal digit. *)
Definition any_decimal : parser Z := fun s =>
  match s with
  | c :: r => match char_decimal c with Some v => [(v, r)] | None => [] end
  | [] => []
  end.

(** One literal character. *)
Definition lit (c : N) : parser Z := ascii_class c c.

Definition p_seq {A B C} (f : A -> B -> C) (p : parser A) (q : parser B)
  : parser C := fun s =>
  flat_map (fun '(a, r) => map (fun '(b, r') => (f a b, r')) (q r)) (p s).

Definition p_alt {A} (p q : parser A) : parser A := fun s => p s ++ q s.

(** Two characters read as a two-digit number. *)
Definition two (p q : parser Z) : parser Z := p_seq (fun a b => 10 * a + b) p q.
(** A skipped character followed by a digit. *)
Definition skip_then {A} (p : parser Z) (q : parser A) : parser A :=
  p_seq (fun _ b => b) p q.

Definition re_d : parser Z :=
  p_alt (two (lit 51) (ascii_class 48 49))
 (p_alt (two (ascii_class 49 50) any_decimal)
 (p_alt (two (lit 48) (ascii_class 49 57))
 (p_alt (ascii_class 49 57)
        (skip_then (lit 32) (ascii_class 49 57))))).

Definition re_m : parser Z :=
  p_alt (two (lit 49) (ascii_class 48 50))
 (p_alt (two (lit 48) (ascii_class 49 57))
        (ascii_class 49 57)).

Definition re_Y : parser Z :=
  p_seq (fun a b => 100 * a + b) (two any_decimal any_decimal)
                                 (two any_decimal any_decimal).

Definition re_date : parser (Z * Z * Z) :=
  p_seq (fun dm y => (dm, y))
    (p_seq (fun d m => (d, m)) re_d (skip_then (lit 46) re_m))
    (skip_then (lit 46) re_Y).

Definition strptime (data : pystr) : result date :=
  match re_date data with
  | [] => inl (ValueError "time data does not match format")
  | ((d, m, y), rest) :: _ =>
      match rest with
      | _ :: _ => inl (ValueError "unconverted data remains")
      | [] => check_date_fields y m d
      end
  end.

(** *** [strftime] with the format [%d.%m.%Y]

    [%d] and [%m] are two digits.  [%Y] is handed to the platform's C
    library: it is either zero-padded to four digits (as the Python
    documentation shows it) or the plain decimal number (glibc, so CPython
    on Linux up to 3.12, where the year 999 is rendered as 999). *)

Inductive year_format : Type := YearPadded | YearPlain.

Definition digit_char (v : Z) : N := Z.to_N (48 + v).

Definition two_digits (n : Z) : pystr :=
  [digit_char (n / 10); digit_char (n mod 10)].

Definition four_digits (n : Z) : pystr :=
  [digit_char (n / 1000); digit_char (n / 100 mod 10);
   digit_char (n / 10 mod 10); digit_char (n mod 10)].

(** The decimal numeral of a non-negative integer. *)
Fixpoint decimal_loop (fuel : nat) (n : Z) (acc : pystr) : pystr :=
  match fuel with
  | O => acc
  | S fuel' =>
      let acc' := digit_char (n mod 10) :: acc in
      if n / 10 =? 0 then acc' else decimal_loop fuel' (n / 10) acc'
  end.

Definition decimal_numeral (n : Z) : pystr :=
  decimal_loop (S (Z.to_nat n)) n [].

Definition strftime (yf : year_format) (d : date) : pystr :=
  two_digits (day d) ++ [46%N] ++ two_digits (month d) ++ [46%N]
  ++ match yf with
     | YearPadded => four_digits (year d)
     | YearPlain => decimal_numeral (year d)
     end.

(** [Birthday.__init__]: the stored value is the parsed date; any parse
    error is re-raised with the class's own message. *)
Definition Birthday (value : pystr) : result date :=
  match strptime value with
  | inl (ValueError _) => inl DateValidationError
  | r => r
  end.

(** [Birthday.date_to_string]. *)
Definition date_to_string (yf : year_format) (value : date) : pystr :=
  strftime yf value.

(** ** Record *)

Record record : Type :=
  mkrecord { name : pystr; phones : list pystr; birthday : option date }.

#[global] Instance record_eq_dec : EqDecision record.
Proof. solve_decision. Defined.

Definition set_phones (self : record) (ps : list pystr) : record :=
  mkrecord (name self) ps (birthday self).

Definition set_birthday (self : record) (b : option date) : record :=
  mkrecord (name self) (phones self) b.

(** [Record.__init__]. *)
Definition Record_init (n : pystr) : result record :=
  result_bind (Name n) (fun v => inr (mkrecord v [] None)).

(** [Record.find_phone]: the first phone whose value is [phone_number],
    as its position in [self.phones] together with its value; the position
    stands for the reference to the [Phone] object. *)
Definition find_phone (phone_number : pystr) (self : record)
  : option (nat * pystr) :=
  list_find (fun v => v = phone_number) (phones self).

(** [Record.add_phone]. *)
Definition add_phone (phone_number : pystr) : M record unit :=
  (let! self := get in
   match find_phone phone_number self with
   | Some _ => raise DuplicatePhoneError
   | None =>
       let! phone := eval (Phone phone_number) in
       put (set_phones self (phones self ++ [phone]))
   end)%method.

(** [Record.remove_phone]: [list.remove] takes out the found object. *)
Definition remove_phone (phone_number : pystr) : M record bool :=
  (let! self := get in
   match find_phone phone_number self with
   | Some (i, _) =>
       let! _ := put (set_phones self (delete i (phones self))) in
       ret true
   | None => ret false
   end)%method.

(** [Record.edit_phone]: the found object gets the new value. *)
Definition edit_phone (current_number new_number : pystr) : M record bool :=
  (let! self := get in
   match find_phone current_number self with
   | None => raise NotFoundError
   | Some (i, _) =>
       match find_phone new_number self with
       | Some _ => raise DuplicatePhoneError
       | None =>
           let! v := eval (Phone new_number) in
           let! _ := put (set_phones self (<[i := v]> (phones self))) in
           ret true
       end
   end)%method.

(** [Record.add_birthday]. *)
Definition add_birthday (date_str : pystr) : M record bool :=
  (let! bday := eval (Birthday date_str) in
   let! self := get in
   let! _ := put (set_birthday self (Some bday)) in
   ret true)%method.

(** [Record.birthday_to_string]. *)
Definition birthday_to_string (yf : year_format) (self : record)
  : option pystr :=
  date_to_string yf <$> birthday self.

(** ** AddressBook *)

(** A Python [dict]: keys are unique and keep their insertion order. *)
Section dict.
Context {V : Type}.

Definition dict : Type := list (pystr * V).

Definition dict_find (k : pystr) (d : dict) : option (nat * (pystr * V)) :=
  list_find (fun kv => kv.1 = k) d.

(** [d.get(k)]. *)
Definition dict_get (k : pystr) (d : dict) : option V :=
  (fun hit => hit.2.2) <$> dict_find k d.

(** [k in d]. *)
Definition dict_contains (k : pystr) (d : dict) : bool :=
  bool_decide (is_Some (dict_find k d)).

(** [d[k] = v]: an existing key keeps its place, a new one goes last. *)
Definition dict_setitem (k : pystr) (v : V) (d : dict) : dict :=
  match dict_find k d with
  | Some (i, _) => <[i := (k, v)]> d
  | None => d ++ [(k, v)]
  end.

(** [del d[k]], for a key that is present. *)
Definition dict_delitem (k : pystr) (d : dict) : dict :=
  match dict_find k d with
  | Some (i, _) => delete i d
  | None => d
  end.

Definition dict_keys (d : dict) : list pystr := d.*1.
Definition dict_values (d : dict) : list V := d.*2.

(** The representation invariant: no key occurs twice. *)
Definition dict_wf (d : dict) : Prop := NoDup (dict_keys d).
End dict.

(** [AddressBook.data]. *)
Definition AddressBook : Type := @dict record.

(** [AddressBook.add_record]. *)
Definition add_record (r : record) : M AddressBook unit :=
  (let! self := get in
   put (dict_setitem (name r) r self))%method.

(** [AddressBook.find]. *)
Definition find (n : pystr) (self : AddressBook) : option record :=
  dict_get n self.

(** [AddressBook.delete]. *)
Definition delete_record (n : pystr) : M AddressBook bool :=
  (let! self := get in
   if dict_contains n self then
     let! _ := put (dict_delitem n self) in
     ret true
   else ret false)%method.

(** One item of the report of [get_upcoming_birthdays]. *)
Record upcoming : Type :=
  mkupcoming { contact_name : pystr; congratulation_date : pystr }.

#[global] Instance upcoming_eq_dec : EqDecision upcoming.
Proof. solve_decision. Defined.

(** Lines 126-129: the birthday moved to this year, or to the next one when
    it has already passed. *)
Definition birthday_this_year (today bd : date) : result date :=
  result_bind (date_replace_year bd (year today)) (fun bty =>
  if date_ltb bty today then date_replace_year bty (year today + 1)
  else inr bty).

(** Lines 134-139: birthdays on Saturday and Sunday are moved. *)
Definition weekend_shift (bty : date) : result date :=
  if weekday bty =? 5 then date_add_days bty 2
  else if weekday bty =? 6 then date_add_days bty 1
  else inr bty.

(** The loop of [get_upcoming_birthdays] over the remaining contacts. *)
Fixpoint upcoming_loop (yf : year_format) (today : date)
    (contacts : list record) (upcoming_birthdays : list upcoming)
  : result (list upcoming) :=
  match contacts with
  | [] => inr upcoming_birthdays
  | contact :: rest =>
      match birthday contact with
      | None => upcoming_loop yf today rest upcoming_birthdays
      | Some bd =>
          result_bind (birthday_this_year today bd) (fun bty =>
          let days_delta := date_diff_days bty today in
          if (0 <=? days_delta) && (days_delta <=? 7) then
            result_bind (weekend_shift bty) (fun congratulation =>
            upcoming_loop yf today rest
              (upcoming_birthdays
               ++ [mkupcoming (name contact) (strftime yf congratulation)]))
          else upcoming_loop yf today rest upcoming_birthdays)
      end
  end.

(** [AddressBook.get_upcoming_birthdays], with the clock reading [today]
    made a parameter. *)
Definition get_upcoming_birthdays (yf : year_format) (today : date)
    (self : AddressBook) : result (list upcoming) :=
  upcoming_loop yf today (dict_values self) [].

(** ** Vocabulary of the statements *)

(** *** Phones *)

(** Exactly 10 decimal digit characters. *)
Definition ten_decimal_digits (p : pystr) : Prop :=
  length p = 10%nat /\ Forall (fun c => char_isdecimal c = true) p.

(** Exactly 10 characters, each one a digit for [str.isdigit]. *)
Definition ten_digit_characters (p : pystr) : Prop :=
  length p = 10%nat /\ Forall (fun c => char_isdigit c = true) p.

(** Exactly 10 of the ASCII characters 0..9. *)
Definition ten_ascii_digits (p : pystr) : Prop :=
  length p = 10%nat /\ Forall (fun c => (48 <= c <= 57)%N) p.

(** The phones of a record are pairwise different. *)
Definition record_wf (r : record) : Prop := NoDup (phones r).

(** An edit is refused as a duplicate only because of an entry other than
    the one being edited. *)
Definition duplicate_only_elsewhere (r : record) (old new : pystr) : Prop :=
  (edit_phone old new r).1 = inl DuplicatePhoneError ->
  exists i j, fst <$> find_phone old r = Some i /\ j <> i
              /\ phones r !! j = Some new.

(** *** Methods *)

(** A method that, when it raises, leaves the object as it found it. *)
Definition failure_preserves_state {S A} (m : M S A) : Prop :=
  forall s e s', m s = (inl e, s') -> s' = s.

(** A method that always returns. *)
Definition never_raises {S A} (m : M S A) : Prop :=
  forall s, exists a s', m s = (inr a, s').

(** *** Dates *)

(** A date object always holds a real calendar date. *)
Definition valid_date (d : date) : Prop :=
  (MINYEAR <= year d <= MAXYEAR) /\ (1 <= month d <= 12)
  /\ (1 <= day d <= days_in_month (year d) (month d)).

(** The month-and-day part of [ord2ymd], on the offset [n] of a day in its
    year. *)
Definition month_day (leapyear : bool) (n : Z) : Z * Z :=
  let m := Z.shiftr (n + 50) 5 in
  let preceding :=
    table_get DAYS_BEFORE_MONTH m + (if (2 <? m) && leapyear then 1 else 0) in
  if n <? preceding then
    (m - 1,
     n - (preceding
          - (table_get DAYS_IN_MONTH (m - 1)
             + (if (m - 1 =? 2) && leapyear then 1 else 0))) + 1)
  else (m, n - preceding + 1).

(** The month and day found for offset [n] are a real month and day, [n]
    days after 1 January. *)
Definition month_day_ok (leapyear : bool) (n : Z) : bool :=
  let '(m, d) := month_day leapyear n in
  (table_get DAYS_BEFORE_MONTH m + (if (2 <? m) && leapyear then 1 else 0) + d
   =? n + 1)
  && (1 <=? m) && (m <=? 12) && (1 <=? d).

(** The value of an ASCII digit. *)
Definition ascii_digit (c : N) : option Z :=
  if ((48 <=? c)%N && (c <=? 57)%N)%bool then Some (Z.of_N c - 48) else None.

(** The day, month and year written in a string of the shape DD.MM.YYYY:
    two ASCII digits, a dot, two ASCII digits, a dot, four ASCII digits. *)
Definition ddmmyyyy_fields (s : pystr) : option (Z * Z * Z) :=
  match s with
  | [d1; d2; p1; m1; m2; p2; y1; y2; y3; y4] =>
      if ((p1 =? 46)%N && (p2 =? 46)%N)%bool then
        d1 ← ascii_digit d1; d2 ← ascii_digit d2;
        m1 ← ascii_digit m1; m2 ← ascii_digit m2;
        y1 ← ascii_digit y1; y2 ← ascii_digit y2;
        y3 ← ascii_digit y3; y4 ← ascii_digit y4;
        Some (10 * d1 + d2, 10 * m1 + m2,
              1000 * y1 + 100 * y2 + 10 * y3 + y4)
      else None
  | _ => None
  end.

(** A valid DD.MM.YYYY calendar-date string. *)
Definition valid_ddmmyyyy (s : pystr) : Prop :=
  exists d m y, ddmmyyyy_fields s = Some (d, m, y) /\ valid_date (mkdate y m d).

(** *** The upcoming-birthday report *)

(** By how many days a birthday on weekday [wd] is moved. *)
Definition weekend_offset (wd : Z) : Z :=
  if wd =? 5 then 2 else if wd =? 6 then 1 else 0.

(** The record has a birthday whose next occurrence is 0 to 7 days after
    [today]. *)
Definition in_window (today : date) (contact : record) : bool :=
  match birthday contact with
  | None => false
  | Some bd =>
      match birthday_this_year today bd with
      | inr bty =>
          (0 <=? date_diff_days bty today) && (date_diff_days bty today <=? 7)
      | inl _ => false
      end
  end.

(** What one contact contributes to the report. *)
Definition report_line (yf : year_format) (today : date) (contact : record)
  : list upcoming :=
  match birthday contact with
  | None => []
  | Some bd =>
      match birthday_this_year today bd with
      | inr bty =>
          if in_window today contact then
            match weekend_shift bty with
            | inr c => [mkupcoming (name contact) (strftime yf c)]
            | inl _ => []
            end
          else []
      | inl _ => []
      end
  end.

(** *** The window, in the words of the specification

    Steps a to d of the algorithm, written without the code's comparison
    of dates and without [replace]: the birthday keeps its month and day
    and takes the year of [today], or the next year when that day of the
    year comes before [today]'s; the day delta is the difference of the
    day numbers. *)

(** The birthday of this year is already past. *)
Definition spec_passed (today bd : date) : bool :=
  (month bd <? month today)
  || ((month bd =? month today) && (day bd <? day today)).

Definition spec_birthday_this_year (today bd : date) : date :=
  mkdate (if spec_passed today bd then year today + 1 else year today)
    (month bd) (day bd).

Definition spec_days_delta (today bd : date) : Z :=
  toordinal (spec_birthday_this_year today bd) - toordinal today.

(** Step d: the record is included. *)
Definition spec_included (today : date) (contact : record) : bool :=
  match birthday contact with
  | None => false
  | Some bd =>
      (0 <=? spec_days_delta today bd) && (spec_days_delta today bd <=? 7)
  end.

(** *** Names *)

(** The string begins or ends with a whitespace character. *)
Definition has_outer_whitespace (n : pystr) : Prop :=
  (exists c, head n = Some c /\ char_isspace c = true)
  \/ (exists c, last n = Some c /\ char_isspace c = true).

(** Every key of the book is a trimmed string, as the names of records
    are. *)
Definition keys_trimmed (b : AddressBook) : Prop :=
  Forall (fun k => strip k = k) (dict_keys b).

(** ** Sample data *)

Definition sample_phone : pystr := py "1234567890".
Definition other_phone : pystr := py "0987654321".
(** Ten times SUPERSCRIPT TWO. *)
Definition superscript_phone : pystr := replicate 10 0xb2%N.

Definition sample_record : record := mkrecord (py "Ann") [sample_phone] None.
Definition bob_record : record := mkrecord (py "Bob") [other_phone] None.
Definition sample_book : AddressBook :=
  [(py "Ann", sample_record); (py "Bob", bob_record)].

(** The book of the scenario: Ann, Bob and Cid with birthdays in May 2024. *)
Definition ann : record := mkrecord (py "Ann") [] (Some (mkdate 2024 5 22)).
Definition bob : record := mkrecord (py "Bob") [] (Some (mkdate 2024 5 25)).
Definition cid : record := mkrecord (py "Cid") [] (Some (mkdate 2024 5 30)).
Definition scenario_book : AddressBook :=
  [(py "Ann", ann); (py "Bob", bob); (py "Cid", cid)].

(** A book whose birthdays lie in earlier years: Jan was born on
    1 January 1990, Ann on 22 May 1990. *)
Definition jan_1990 : record := mkrecord (py "Jan") [] (Some (mkdate 1990 1 1)).
Definition ann_1990 : record := mkrecord (py "Ann") [] (Some (mkdate 1990 5 22)).
Definition earlier_book : AddressBook :=
  [(py "Jan", jan_1990); (py "Ann", ann_1990)].

(** [Record(n)] followed by [add_birthday(b)], when both succeed. *)
Definition new_contact (n b : pystr) : option record :=
  match Record_init n with
  | inr r => match add_birthday b r with
             | (inr _, r') => Some r'
             | _ => None
             end
  | inl _ => None
  end.

(** A book with a contact born on 29 February 2000 after two others. *)
Definition leap_contact : record :=
  mkrecord (py "Leap") [] (Some (mkdate 2000 2 29)).
Definition leap_book : AddressBook :=
  [(py "Ann", ann); (py "Bob", bob); (py "Leap", leap_contact)].

(** ** Display strings *)

(** [sep.join(l)]. *)
Fixpoint join (sep : pystr) (l : list pystr) : pystr :=
  match l with
  | [] => []
  | [x] => x
  | x :: l' => x ++ sep ++ join sep l'
  end.

(** [Record.__str__]. *)
Definition Record_str (yf : year_format) (self : record) : pystr :=
  let ps := match phones self with
            | [] => py "-"
            | _ => join (py "; ") (phones self)
            end in
  let bday := match birthday self with
              | Some d => date_to_string yf d
              | None => py "-"
              end in
  py "Contact name: " ++ name self ++ py ", phones: " ++ ps
  ++ py ", birthday: " ++ bday.

(** ** The command layer *)

(** [str.split()] with no argument: the maximal runs of characters that
    are not whitespace.  [tok] is the run being read. *)
Fixpoint split_from (tok : pystr) (s : pystr) : list pystr :=
  match s with
  | [] => match tok with [] => [] | _ => [tok] end
  | c :: s' =>
      if char_isspace c then
        match tok with
        | [] => split_from [] s'
        | _ => tok :: split_from [] s'
        end
      else split_from (tok ++ [c]) s'
  end.

Definition split (s : pystr) : list pystr := split_from [] s.

(** [parse_input].  The unpacking [cmd, *args = ...] raises [ValueError]
    on an empty list.  [str.lower] is a parameter: its case tables are not
    modelled. *)
Definition parse_input (lower : pystr -> pystr) (user_input : pystr)
  : result (pystr * list pystr) :=
  match split user_input with
  | [] => inl (ValueError "not enough values to unpack (expected at least 1, got 0)")
  | cmd :: args => inr (lower (strip cmd), args)
  end.

(** The decorator [input_error]: the wrapped function returns the message
    of the exception instead of raising it.  The bodies below raise nothing
    that the handlers for [IndexError], [TypeError] and [KeyError] would
    catch; anything that is not a [ValueError] reaches the last handler. *)
Definition input_error {S} (func : M S pystr) : S -> pystr * S :=
  fun s =>
    match func s with
    | (inr out, s') => (out, s')
    | (inl (ValueError msg), s') => (py "Error: " ++ py msg, s')
    | (inl (OverflowError _), s') =>
        (py "Error: Invalid command or arguments. Try again.", s')
    end.

(** A method called on the record object [r] that the book holds under the
    key [k]: the book sees the object as the method leaves it. *)
Definition on_entry {A} (k : pystr) (r : record) (m : M record A)
  : M AddressBook A :=
  fun book => let '(res, r') := m r in (res, dict_setitem k r' book).

(** The body of [add_contact]. *)
Definition add_contact_body (args : list pystr) : M AddressBook pystr :=
  match args with
  | n :: phone :: _ =>
      (let! validated_record := eval (Phone phone) in
       let! self := get in
       match find n self with
       | None =>
           let! record := eval (Record_init n) in
           let! _ := add_record record in
           let! _ := on_entry (name record) record
                       (add_phone validated_record) in
           ret (py "Contact added.")
       | Some record =>
           let! _ := on_entry n record (add_phone validated_record) in
           ret (py "Contact updated.")
       end)%method
  | _ => raise (ValueError "Enter contact name and phone number with 10 digits")
  end.

Definition add_contact (args : list pystr) : AddressBook -> pystr * AddressBook :=
  input_error (add_contact_body args).

(** The body of [change_contact]. *)
Definition change_contact_body (args : list pystr) : M AddressBook pystr :=
  match args with
  | n :: old_phone :: new_phone :: _ =>
      (let! self := get in
       match find n self with
       | None => raise (ValueError "Contact does not exist. Try again.")
       | Some record =>
           let! _ := on_entry n record (edit_phone old_phone new_phone) in
           ret (py "Phone updated.")
       end)%method
  | _ => raise (ValueError "Enter contact name, old phone number and new phone number with 10 digits")
  end.

Definition change_contact (args : list pystr)
  : AddressBook -> pystr * AddressBook :=
  input_error (change_contact_body args).

(** The three characters the source has after the colon when a contact has
    no phone (U+00E2, U+20AC, U+201D). *)
Definition no_phone_mark : pystr := [0xe2; 0x20ac; 0x201d]%N.

(** The body of [show_phone]. *)
Definition show_phone_body (args : list pystr) : M AddressBook pystr :=
  match args with
  | n :: _ =>
      (let! self := get in
       match find n self with
       | None => ret (py "Contact does not exist. Try again.")
       | Some record =>
           match phones record with
           | [] => ret (n ++ py ": " ++ no_phone_mark)
           | _ => ret (n ++ py ": " ++ join (py ", ") (phones record))
           end
       end)%method
  | [] => raise (ValueError "Enter contact name")
  end.

Definition show_phone (args : list pystr) : AddressBook -> pystr * AddressBook :=
  input_error (show_phone_body args).

(** The body of [show_all]. *)
Definition show_all_body (yf : year_format) : M AddressBook pystr :=
  (let! self := get in
   match self with
   | [] => ret (py "No contacts found.")
   | _ => ret (join [10%N] (map (Record_str yf) (dict_values self)))
   end)%method.

Definition show_all (yf : year_format) : AddressBook -> pystr * AddressBook :=
  input_error (show_all_body yf).

(** The body of the command [add_birthday]. *)
Definition add_birthday_command_body (args : list pystr)
  : M AddressBook pystr :=
  match args with
  | n :: date_str :: _ =>
      (let! self := get in
       match find n self with
       | None =>
           let! record := eval (Record_init n) in
           let! _ := add_record record in
           let! _ := on_entry (name record) record (add_birthday date_str) in
           ret (py "Birthday added.")
       | Some record =>
           let! _ := on_entry n record (add_birthday date_str) in
           ret (py "Birthday added.")
       end)%method
  | _ => raise (ValueError "Enter contact name and birthday DD.MM.YYYY")
  end.

Definition add_birthday_command (args : list pystr)
  : AddressBook -> pystr * AddressBook :=
  input_error (add_birthday_command_body args).

(** The body of [show_birthday]. *)
Definition show_birthday_body (yf : year_format) (args : list pystr)
  : M AddressBook pystr :=
  match args with
  | n :: _ =>
      (let! self := get in
       match find n self with
       | None => ret (py "Contact does not exist.")
       | Some record =>
           match birthday_to_string yf record with
           | None => ret (n ++ py ": birthday not added.")
           | Some s => ret (n ++ py ": " ++ s)
           end
       end)%method
  | [] => raise (ValueError "Enter contact Name")
  end.

Definition show_birthday (yf : year_format) (args : list pystr)
  : AddressBook -> pystr * AddressBook :=
  input_error (show_birthday_body yf args).

(** [grouped.setdefault(date, []).append(name)]. *)
Definition group_add (grouped : @dict (list pystr)) (item : upcoming)
  : @dict (list pystr) :=
  match dict_get (congratulation_date item) grouped with
  | Some names =>
      dict_setitem (congratulation_date item) (names ++ [contact_name item])
        grouped
  | None => dict_setitem (congratulation_date item) [contact_name item] grouped
  end.

Definition group_by_date (items : list upcoming) : @dict (list pystr) :=
  fold_left group_add items [].

(** The body of [birthdays]; it ignores its arguments. *)
Definition birthdays_body (yf : year_format) (today : date)
    (args : list pystr) : M AddressBook pystr :=
  (let! self := get in
   let! upcoming_birthdays := eval (get_upcoming_birthdays yf today self) in
   match upcoming_birthdays with
   | [] => ret (py "No upcoming birthdays within the next 7 days.")
   | _ =>
       ret (join [10%N]
              (map (fun '(d, names) => d ++ py ": " ++ join (py ", ") names)
                 (group_by_date upcoming_birthdays)))
   end)%method.

Definition birthdays (yf : year_format) (today : date) (args : list pystr)
  : AddressBook -> pystr * AddressBook :=
  input_error (birthdays_body yf today args).

(** The outcome of one turn of the loop of [main]: the texts given to
    [print], one per call (a text can span several lines), and how the
    turn ends.  After [Printed] the loop goes on; after [Stopped] it is
    left and [main] returns; [Uncaught] is an exception that [main] does
    not handle.  In the last two cases the [finally] clause saves the book
    as the turn leaves it. *)
Inductive turn : Type :=
  | Printed (texts : list pystr)
  | Stopped (texts : list pystr)
  | Uncaught.

Definition say (out : pystr * AddressBook) : turn * AddressBook :=
  (Printed [out.1], out.2).

(** The body of the loop on the line [user_input] that [input] returned. *)
Definition main_turn (lower : pystr -> pystr) (yf : year_format)
    (today : date) (user_input : pystr) (book : AddressBook)
  : turn * AddressBook :=
  match user_input with
  | [] => (Printed [], book)
  | _ =>
      match parse_input lower user_input with
      | inl _ => (Printed [py "Invalid command."], book)
      | inr (command, args) =>
          if bool_decide (command = py "close")
             || bool_decide (command = py "exit")
          then (Stopped [py "Good bye!"], book)
          else if bool_decide (command = py "hello")
          then (Printed [py "How can I help you?"], book)
          else if bool_decide (command = py "add")
          then say (add_contact args book)
          else if bool_decide (command = py "change")
          then say (change_contact args book)
          else if bool_decide (command = py "phone")
          then say (show_phone args book)
          else if bool_decide (command = py "all")
          then say (show_all yf book)
          else if bool_decide (command = py "add-birthday")
          then say (add_birthday_command args book)
          else if bool_decide (command = py "show-birthday")
          then say (show_birthday yf args book)
          else if bool_decide (command = py "birthdays")
          then say (birthdays yf today args book)
          else (Printed [py "Invalid command."], book)
      end
  end.

(** What happens at the prompt: [input] returns a line, or it raises
    [KeyboardInterrupt] (Ctrl-C) or [EOFError] (end of input). *)
Inductive input_event : Type :=
  | Line (user_input : pystr)
  | KeyboardInterrupt
  | EOFError.

(** One turn of the loop of [main] with its handlers: [KeyboardInterrupt]
    is caught outside the loop, [EOFError] by nothing. *)
Definition main_step (lower : pystr -> pystr) (yf : year_format)
    (today : date) (event : input_event) (book : AddressBook)
  : turn * AddressBook :=
  match event with
  | Line user_input => main_turn lower yf today user_input book
  | KeyboardInterrupt => (Stopped [py "Error. Exiting..."], book)
  | EOFError => (Uncaught, book)
  end.

(** ** Vocabulary of the further properties *)

(** The day found for offset [n] is a day of the month found for it. *)
Definition month_day_fits (leapyear : bool) (n : Z) : bool :=
  let '(m, d) := month_day leapyear n in
  d <=? (if (m =? 2) && leapyear then 29 else table_get DAYS_IN_MONTH m).

(** Only whitespace (or nothing at all). *)
Definition blank (s : pystr) : Prop :=
  Forall (fun c => char_isspace c = true) s.

(** A non-empty string without whitespace. *)
Definition clean_token (t : pystr) : Prop :=
  t <> [] /\ Forall (fun c => char_isspace c = false) t.

(** What the methods of [Record] keep true of a record: its phones are
    valid and pairwise different, its name is trimmed and not empty, and
    its birthday, if it has one, is a real date. *)
Definition record_ok (r : record) : Prop :=
  NoDup (phones r) /\ Forall ten_digit_characters (phones r)
  /\ name r <> [] /\ strip (name r) = name r
  /\ (forall bd, birthday r = Some bd -> valid_date bd).

(** What the operations keep true of a book: keys are unique, every record
    is stored under its own name, and every record is well formed. *)
Definition book_ok (b : AddressBook) : Prop :=
  dict_wf b /\ Forall (fun kv => kv.1 = name kv.2 /\ record_ok kv.2) b.

(** The item that the query reports for a record: it carries the name of
    the record and the print of a real date [c], which is the next
    occurrence [bty] of the birthday, 0 to 7 days ahead, moved to the
    Monday after it when it falls on a weekend. *)
Definition reported_for (yf : year_format) (today : date) (item : upcoming)
    (contact : record) : Prop :=
  contact_name item = name contact
  /\ exists bd bty c,
       birthday contact = Some bd
       /\ birthday_this_year today bd = inr bty
       /\ 0 <= date_diff_days bty today <= 7
       /\ valid_date c
       /\ toordinal c = toordinal bty + weekend_offset (weekday bty)
       /\ (weekday bty <> 5 -> weekday bty <> 6 -> c = bty)
       /\ congratulation_date item = strftime yf c
       /\ 0 <= weekday c <= 4
       /\ 0 <= date_diff_days c today <= 9.

(** The names reported for the date [d], in the order of the report. *)
Definition names_on (d : pystr) (items : list upcoming) : list pystr :=
  contact_name <$> filter (fun i => congratulation_date i = d) items.

(** What grouping adds to the names found so far under a date. *)
Definition grouped_with (found : option (list pystr)) (names : list pystr)
  : option (list pystr) :=
  match found, names with
  | Some ns, _ => Some (ns ++ names)
  | None, [] => None
  | None, _ => Some names
  end.

(** Lower case for the letters A to Z, as [str.lower] has it on ASCII
    strings. *)
Definition ascii_lower (s : pystr) : pystr :=
  map (fun c => if ((65 <=? c)%N && (c <=? 90)%N)%bool then (c + 32)%N else c) s.

(** The commands that may change the book. *)
Definition mutating_command (command : pystr) : Prop :=
  command = py "add" \/ command = py "change" \/ command = py "add-birthday".

(** ** Fields: properties *)

Lemma forallb_Forall {A} (f : A -> bool) (l : list A) :
  forallb f l = true <-> Forall (fun x => f x = true) l.
Proof.
  induction l as [|x l IH]; simpl.
  - split; [constructor | reflexivity].
  - rewrite andb_true_iff, IH, Forall_cons. reflexivity.
Qed.

Lemma isdigit_spec (s : pystr) :
  isdigit s = true <-> s <> [] /\ Forall (fun c => char_isdigit c = true) s.
Proof.
  destruct s as [|c s].
  - simpl. split; [discriminate | intros [H _]; congruence].
  - unfold isdigit. rewrite forallb_Forall. split; [split; [discriminate|] |]; tauto.
Qed.

Lemma Phone_ok_iff (p : pystr) :
  Phone p = inr p <-> ten_digit_characters p.
Proof.
  unfold Phone, ten_digit_characters.
  destruct (isdigit p) eqn:Hd; simpl.
  - apply isdigit_spec in Hd as [Hne Hall].
    destruct (Z.eqb_spec (Z.of_nat (length p)) 10) as [Hl|Hl]; simpl.
    + split; [intros _; split; [lia | done] | done].
    + split; [discriminate | intros [Hlen _]; lia].
  - split; [discriminate|]. intros [Hlen Hall].
    assert (isdigit p = true) as Hd'.
    { apply isdigit_spec. split; [|done]. intros ->. discriminate. }
    congruence.
Qed.

Lemma Phone_cases (p : pystr) :
  Phone p = inr p \/ Phone p = inl PhoneValidationError.
Proof. unfold Phone. destruct (_ || _); auto. Qed.

Lemma Phone_inr (p v : pystr) : Phone p = inr v -> v = p.
Proof. destruct (Phone_cases p) as [H|H]; rewrite H; congruence. Qed.

Lemma ascii_digit_isdigit (c : N) : (48 <= c <= 57)%N -> char_isdigit c = true.
Proof.
  intros Hc. unfold char_isdigit.
  assert (char_isdecimal c = true) as ->; [|reflexivity].
  unfold char_isdecimal, char_decimal, decimal_zero_table, decimal_in.
  assert ((48 <=? c)%N = true) as -> by (apply N.leb_le; lia).
  assert ((c <=? 48 + 9)%N = true) as -> by (apply N.leb_le; lia).
  reflexivity.
Qed.

Lemma ten_ascii_digits_are_digits (p : pystr) :
  ten_ascii_digits p -> ten_digit_characters p.
Proof.
  intros [Hl Hall]. split; [done|].
  eapply Forall_impl; [exact Hall|]. intros c. apply ascii_digit_isdigit.
Qed.

(** C5 (as stated): a phone is not accepted "exactly when" it is made of 10
    decimal digits.  Ten copies of SUPERSCRIPT TWO (U+00B2) pass
    [str.isdigit] and have length 10, so [Phone] accepts them, although
    none of them is a decimal digit. *)
Lemma Phone_accepts_non_decimal_digits :
  ~ (forall p : pystr, (exists v, Phone p = inr v) <-> ten_decimal_digits p).
Proof.
  intros H. destruct (H superscript_phone) as [H1 _].
  destruct H1 as [_ Hall]; [eexists; reflexivity|].
  apply Forall_inv in Hall. vm_compute in Hall. discriminate.
Qed.

(** C5 (amended): [Phone(p)] succeeds exactly when [p] has exactly 10
    characters that are all digits in the sense of [str.isdigit]; every
    string of 10 ASCII decimal digits is such a string; on success the
    stored value is [p] itself; and a [p] of another length or with a
    character that is not such a digit is rejected with the validation
    error. *)
Theorem Phone_accepts_exactly_ten_isdigit_characters (p : pystr) :
  ((exists v, Phone p = inr v) <-> ten_digit_characters p)
  /\ (ten_ascii_digits p -> Phone p = inr p)
  /\ (forall v, Phone p = inr v -> v = p)
  /\ (length p <> 10%nat \/ Exists (fun c => char_isdigit c = false) p ->
      Phone p = inl PhoneValidationError).
Proof.
  split; [split | split; [| split]].
  - intros [v Hv]. apply Phone_ok_iff. by rewrite Hv, (Phone_inr _ _ Hv).
  - intros H. exists p. by apply Phone_ok_iff.
  - intros H. by apply Phone_ok_iff, ten_ascii_digits_are_digits.
  - apply Phone_inr.
  - intros Hbad. destruct (Phone_cases p) as [Hok|Herr]; [|done].
    apply Phone_ok_iff in Hok as [Hl Hall]. destruct Hbad as [Hbad|Hbad]; [done|].
    apply Exists_exists in Hbad as (c & Hin & Hc).
    rewrite Forall_forall in Hall. specialize (Hall c Hin). congruence.
Qed.

Lemma Phone_accepts_exactly_ten_isdigit_characters_witness :
  Phone sample_phone = inr sample_phone
  /\ Phone (py "12345") = inl PhoneValidationError.
Proof.
  split.
  - apply (Phone_accepts_exactly_ten_isdigit_characters sample_phone).
    split; [reflexivity|]. vm_compute.
    repeat (constructor; [split; discriminate|]). constructor.
  - apply (Phone_accepts_exactly_ten_isdigit_characters (py "12345")).
    left. vm_compute. lia.
Defined.

(** ** Record: properties *)

(** Settles a closed decidable proposition by evaluation. *)
Ltac decide_by_computation :=
  apply (bool_decide_unpack _); vm_compute; exact I.

(** Unfolds a method down to a match on its tests. *)
Ltac run_method :=
  unfold add_phone, remove_phone, edit_phone, add_birthday, add_record,
    delete_record, bind, get, put, raise, eval, ret; simpl.

Section found.
Context {A : Type} (f : A -> pystr).

Lemma find_key_None (k : pystr) (l : list A) :
  list_find (fun y => f y = k) l = None <-> k ∉ f <$> l.
Proof.
  rewrite list_find_None, Forall_forall, list_elem_of_fmap. split.
  - intros H (y & -> & Hy). by apply (H y).
  - intros H y Hy Hk. apply H. by exists y.
Qed.

Lemma find_key_is_Some (k : pystr) (l : list A) :
  k ∈ f <$> l -> exists i y, list_find (fun y => f y = k) l = Some (i, y).
Proof.
  intros Hin. destruct (list_find _ l) as [[i y]|] eqn:E; [by eauto|].
  by apply find_key_None in E.
Qed.

Lemma filter_other_keys_id (k : pystr) (l : list A) :
  k ∉ f <$> l -> filter (fun y => f y <> k) l = l.
Proof.
  induction l as [|x l IH]; [done|]. rewrite fmap_cons, not_elem_of_cons.
  intros [Hx Hl]. rewrite filter_cons_True by done. by rewrite IH.
Qed.

(** With unique keys, taking out the found entry takes out the key. *)
Lemma delete_found_filter (k : pystr) (l : list A) (i : nat) (x : A) :
  NoDup (f <$> l) ->
  list_find (fun y => f y = k) l = Some (i, x) ->
  delete i l = filter (fun y => f y <> k) l.
Proof.
  revert i. induction l as [|a l IH]; intros i Hnd Hfind; [done|].
  rewrite fmap_cons in Hnd. apply NoDup_cons in Hnd as [Ha Hnd].
  cbn in Hfind. destruct (decide (f a = k)) as [Hk|Hk].
  - inversion Hfind; subst i x. simpl.
    rewrite filter_cons_False by (intros H; by apply H).
    symmetry. apply filter_other_keys_id. by rewrite <- Hk.
  - destruct (list_find _ l) as [[i' x']|] eqn:E; [|done].
    inversion Hfind; subst i x. simpl.
    rewrite filter_cons_True by done. f_equal. by apply IH.
Qed.
End found.

Lemma find_phone_None (p : pystr) (r : record) :
  find_phone p r = None <-> p ∉ phones r.
Proof.
  unfold find_phone. rewrite (find_key_None id). by rewrite list_fmap_id.
Qed.

Lemma find_phone_Some (p : pystr) (r : record) (i : nat) (v : pystr) :
  find_phone p r = Some (i, v) ->
  v = p /\ phones r !! i = Some p
  /\ forall j, (j < i)%nat -> phones r !! j <> Some p.
Proof.
  unfold find_phone. rewrite list_find_Some. intros (Hi & -> & Hfirst).
  repeat split; [done|]. intros j Hj Hl. by apply (Hfirst j p).
Qed.

Lemma find_phone_present (p : pystr) (r : record) :
  p ∈ phones r -> exists i, find_phone p r = Some (i, p).
Proof.
  intros Hin. destruct (find_phone p r) as [[i v]|] eqn:E.
  - apply find_phone_Some in E as [-> _]. by exists i.
  - by apply find_phone_None in E.
Qed.

(** C6: a successful [add_phone(p)] appends [p] at the end of the phone
    list and keeps everything else; a second [add_phone(p)] on the
    resulting record is refused with the duplicate error and changes
    nothing; and the first call does succeed for every 10-digit [p] that
    is not yet on the record. *)
Theorem add_phone_appends_then_rejects (r : record) (p : pystr) :
  (forall r', add_phone p r = (inr tt, r') ->
     phones r' = phones r ++ [p]
     /\ name r' = name r /\ birthday r' = birthday r
     /\ add_phone p r' = (inl DuplicatePhoneError, r'))
  /\ (ten_digit_characters p -> p ∉ phones r ->
      add_phone p r = (inr tt, set_phones r (phones r ++ [p]))).
Proof.
  split.
  - run_method. intros r'.
    destruct (find_phone p r) as [[i v]|] eqn:E; [discriminate|].
    destruct (Phone p) as [e|v] eqn:Hp; [discriminate|].
    apply Phone_inr in Hp as ->. intros [= <-]. simpl.
    repeat split.
    destruct (find_phone_present p (set_phones r (phones r ++ [p]))) as [i ->];
      [|done].
    simpl. apply elem_of_app. right. by apply list_elem_of_singleton.
  - intros Hp Hfresh. run_method.
    apply find_phone_None in Hfresh as ->.
    by apply Phone_ok_iff in Hp as ->.
Qed.

Lemma add_phone_appends_then_rejects_witness :
  add_phone other_phone sample_record
  = (inr tt, set_phones sample_record [sample_phone; other_phone])
  /\ add_phone other_phone (set_phones sample_record [sample_phone; other_phone])
     = (inl DuplicatePhoneError,
        set_phones sample_record [sample_phone; other_phone]).
Proof.
  split.
  - apply (add_phone_appends_then_rejects sample_record other_phone).
    + apply Phone_ok_iff. reflexivity.
    + vm_compute. intros H. apply list_elem_of_singleton in H. discriminate.
  - apply (add_phone_appends_then_rejects sample_record other_phone).
    reflexivity.
Defined.

(** C1 (as stated): editing a phone to its own current value does not
    succeed.  On a record whose only phone is 1234567890, the edit of
    1234567890 into 1234567890 is refused as a duplicate although no other
    entry holds that value. *)
Lemma edit_phone_to_same_value_is_duplicate :
  ~ duplicate_only_elsewhere sample_record sample_phone sample_phone.
Proof.
  intros H. destruct H as (i & j & Hi & Hj & Hl); [reflexivity|].
  vm_compute in Hi. injection Hi as <-.
  destruct j as [|j]; [done|]. destruct j; discriminate.
Qed.

(** C1 (amended): [edit_phone(old, new)] fails with the not-found error
    when no phone equal to [old] is stored; otherwise it fails with the
    duplicate error whenever [new] is the value of any stored phone, the
    matched one included; otherwise it fails with the validation error
    when [new] is not a valid phone; otherwise it puts [new] in the place
    of the first phone equal to [old], every other position keeping its
    value.  A failed edit leaves the record as it was. *)
Theorem edit_phone_cases (r : record) (old new : pystr) :
  (old ∉ phones r -> edit_phone old new r = (inl NotFoundError, r))
  /\ (old ∈ phones r -> new ∈ phones r ->
      edit_phone old new r = (inl DuplicatePhoneError, r))
  /\ (old ∈ phones r -> new ∉ phones r -> ~ ten_digit_characters new ->
      edit_phone old new r = (inl PhoneValidationError, r))
  /\ (old ∈ phones r -> new ∉ phones r -> ten_digit_characters new ->
      exists i,
        let r' := set_phones r (<[i := new]> (phones r)) in
        edit_phone old new r = (inr true, r')
        /\ phones r !! i = Some old
        /\ (forall j, (j < i)%nat -> phones r !! j <> Some old)
        /\ phones r' !! i = Some new
        /\ length (phones r') = length (phones r)
        /\ (forall j, j <> i -> phones r' !! j = phones r !! j)).
Proof.
  split; [|split; [|split]].
  - intros Hold. run_method. by apply find_phone_None in Hold as ->.
  - intros Hold Hnew. run_method.
    destruct (find_phone_present _ _ Hold) as [i ->].
    by destruct (find_phone_present _ _ Hnew) as [j ->].
  - intros Hold Hnew Hbad. run_method.
    destruct (find_phone_present _ _ Hold) as [i ->].
    apply find_phone_None in Hnew as ->.
    destruct (Phone_cases new) as [Hok|Herr]; [|by rewrite Herr].
    by apply Phone_ok_iff in Hok.
  - intros Hold Hnew Hgood. run_method.
    destruct (find_phone_present _ _ Hold) as [i Hi]. rewrite Hi.
    apply find_phone_Some in Hi as (_ & Hi & Hfirst).
    apply find_phone_None in Hnew as ->.
    apply Phone_ok_iff in Hgood as ->.
    exists i. simpl. split; [reflexivity|].
    assert (i < length (phones r))%nat by (by eapply lookup_lt_Some).
    repeat split; try done.
    + by apply list_lookup_insert_eq.
    + by rewrite length_insert.
    + intros j Hj. by apply list_lookup_insert_ne.
Qed.

Lemma edit_phone_cases_witness :
  edit_phone sample_phone other_phone sample_record
  = (inr true, set_phones sample_record [other_phone])
  /\ edit_phone sample_phone sample_phone sample_record
     = (inl DuplicatePhoneError, sample_record)
  /\ edit_phone other_phone sample_phone sample_record
     = (inl NotFoundError, sample_record).
Proof.
  assert (sample_phone ∈ phones sample_record) as Hin
    by (apply list_elem_of_singleton; reflexivity).
  assert (other_phone ∉ phones sample_record) as Hout
    by (intros H; apply list_elem_of_singleton in H; discriminate).
  split; [|split].
  - destruct (edit_phone_cases sample_record sample_phone other_phone)
      as (_ & _ & _ & H).
    destruct (H Hin Hout) as (i & Hrun & Hi & _).
    + apply Phone_ok_iff. reflexivity.
    + destruct i as [|i]; [exact Hrun|]. destruct i; discriminate Hi.
  - by apply (edit_phone_cases sample_record sample_phone sample_phone).
  - by apply (edit_phone_cases sample_record other_phone sample_phone).
Defined.

(** [record_wf] is an invariant of the methods of [Record]. *)
Lemma Record_init_wf (n : pystr) (r : record) :
  Record_init n = inr r -> record_wf r.
Proof.
  unfold Record_init, result_bind. destruct (Name n); [done|].
  intros [= <-]. apply NoDup_nil_2.
Qed.

Lemma add_phone_wf (p : pystr) (r : record) :
  record_wf r -> record_wf ((add_phone p r).2).
Proof.
  unfold record_wf. intros Hwf. run_method.
  destruct (find_phone p r) as [[i v]|] eqn:E; [done|].
  destruct (Phone p) as [e|v] eqn:Hp; [done|]. simpl.
  apply Phone_inr in Hp as ->. apply find_phone_None in E.
  apply NoDup_app. repeat split; [done| |apply NoDup_singleton].
  intros x Hx Hx'. apply list_elem_of_singleton in Hx'. by subst.
Qed.

Lemma remove_phone_wf (p : pystr) (r : record) :
  record_wf r -> record_wf ((remove_phone p r).2).
Proof.
  unfold record_wf. intros Hwf. run_method.
  destruct (find_phone p r) as [[i v]|] eqn:E; [|done]. simpl.
  eapply sublist_NoDup; [exact Hwf | apply sublist_delete].
Qed.

Lemma edit_phone_wf (old new : pystr) (r : record) :
  record_wf r -> record_wf ((edit_phone old new r).2).
Proof.
  unfold record_wf. intros Hwf. run_method.
  destruct (find_phone old r) as [[i v]|] eqn:E; [|done].
  destruct (find_phone new r) as [[j w]|] eqn:E'; [done|].
  destruct (Phone new) as [e|w] eqn:Hp; [done|]. simpl.
  apply Phone_inr in Hp as ->. apply find_phone_None in E'.
  apply find_phone_Some in E as (_ & Hi & _).
  apply NoDup_alt. intros a b x Ha Hb.
  apply list_lookup_insert_Some in Ha as [(Hia & Hx & Hla)|[Hia Ha]];
    apply list_lookup_insert_Some in Hb as [(Hib & Hx' & Hlb)|[Hib Hb]].
  - congruence.
  - subst x. destruct E'. by eapply list_elem_of_lookup_2.
  - subst x. destruct E'. by eapply list_elem_of_lookup_2.
  - by eapply NoDup_lookup.
Qed.

(** C7: removing what is absent is not an error.  On a book with unique
    keys, [delete(n)] returns [True] and takes out exactly the entry of
    [n] when [n] is a key, and returns [False] and changes nothing when it
    is not.  On a record with pairwise different phones,
    [remove_phone(p)] returns [False] and changes nothing when [p] is
    absent, and returns [True] when it is present, after which [p] is no
    longer in the list and the other phones are all there in their old
    order. *)
Theorem removal_by_absence_is_not_an_error :
  (forall (b : AddressBook) (n : pystr), dict_wf b ->
     (n ∈ dict_keys b ->
      exists b', delete_record n b = (inr true, b')
                 /\ (n ∉ dict_keys b')
                 /\ b' = filter (fun kv => kv.1 <> n) b)
     /\ (n ∉ dict_keys b -> delete_record n b = (inr false, b)))
  /\ (forall (r : record) (p : pystr), record_wf r ->
     (p ∈ phones r ->
      exists r', remove_phone p r = (inr true, r')
                 /\ (p ∉ phones r')
                 /\ phones r' = filter (fun v => v <> p) (phones r)
                 /\ name r' = name r /\ birthday r' = birthday r)
     /\ (p ∉ phones r -> remove_phone p r = (inr false, r))).
Proof.
  split.
  - intros b n Hwf. split.
    + intros Hin. run_method. unfold dict_contains, dict_delitem.
      destruct (find_key_is_Some fst n b Hin) as (i & kv & Hfind).
      unfold dict_find. rewrite Hfind.
      rewrite bool_decide_eq_true_2 by eauto.
      exists (filter (fun kv => kv.1 <> n) b). split.
      { f_equal. exact (delete_found_filter fst n b i kv Hwf Hfind). }
      split; [|done]. unfold dict_keys. rewrite list_elem_of_fmap. intros (y & -> & Hy).
      apply list_elem_of_filter in Hy as [Hy _]. by apply Hy.
    + intros Hout. run_method. unfold dict_contains, dict_find.
      apply (find_key_None fst) in Hout as ->.
      rewrite bool_decide_eq_false_2; [done|]. by intros [? ?].
  - intros r p Hwf. split.
    + intros Hin. run_method.
      destruct (find_phone_present _ _ Hin) as [i Hfind]. rewrite Hfind.
      eexists. split; [reflexivity|]. simpl.
      assert (delete i (phones r) = filter (fun v => v <> p) (phones r)) as ->.
      { apply (delete_found_filter id p (phones r) i p); [|exact Hfind].
        by rewrite list_fmap_id. }
      repeat split; try done.
      intros Hp. apply list_elem_of_filter in Hp as [Hp _]. by apply Hp.
    + intros Hout. run_method. by apply find_phone_None in Hout as ->.
Qed.

Lemma removal_by_absence_is_not_an_error_witness :
  delete_record (py "Ann") sample_book = (inr true, [(py "Bob", bob_record)])
  /\ delete_record (py "Cid") sample_book = (inr false, sample_book)
  /\ remove_phone sample_phone sample_record
     = (inr true, set_phones sample_record [])
  /\ remove_phone other_phone sample_record = (inr false, sample_record).
Proof.
  destruct removal_by_absence_is_not_an_error as [Hbook Hrec].
  assert (dict_wf sample_book) as Hwf.
  { unfold dict_wf, dict_keys. decide_by_computation. }
  assert (record_wf sample_record) as Hwf' by apply NoDup_singleton.
  split; [|split; [|split]].
  - destruct (proj1 (Hbook sample_book (py "Ann") Hwf)) as (b' & -> & _ & ->).
    + unfold dict_keys. decide_by_computation.
    + reflexivity.
  - apply (Hbook sample_book (py "Cid") Hwf).
    unfold dict_keys. decide_by_computation.
  - destruct (proj1 (Hrec sample_record sample_phone Hwf'))
      as (r' & -> & _ & Hp & Hn & Hb).
    + unfold dict_keys. decide_by_computation.
    + destruct r' as [n' ps' b']. simpl in *. by subst.
  - apply (Hrec sample_record other_phone Hwf').
    unfold dict_keys. decide_by_computation.
Defined.

(** C2: no core operation leaves a partial update behind when it fails.
    [add_phone], [edit_phone] and [add_birthday] raise only before they
    assign, so the record after a failed call is the record before it;
    [remove_phone], [add_record] and [delete] never raise (so the property
    holds of them too). *)
Theorem failed_operation_changes_nothing :
  (forall p, failure_preserves_state (add_phone p))
  /\ (forall p, failure_preserves_state (remove_phone p))
  /\ (forall old new, failure_preserves_state (edit_phone old new))
  /\ (forall s, failure_preserves_state (add_birthday s))
  /\ (forall r, failure_preserves_state (add_record r))
  /\ (forall n, failure_preserves_state (delete_record n))
  /\ (forall p, never_raises (remove_phone p))
  /\ (forall r, never_raises (add_record r))
  /\ (forall n, never_raises (delete_record n)).
Proof.
  unfold failure_preserves_state, never_raises. split_and!.
  - intros p r e r'. run_method.
    destruct (find_phone p r); [congruence|].
    destruct (Phone p); simpl; congruence.
  - intros p r e r'. run_method. destruct (find_phone p r) as [[i v]|]; congruence.
  - intros old new r e r'. run_method.
    destruct (find_phone old r) as [[i v]|]; [|congruence].
    destruct (find_phone new r); [congruence|].
    destruct (Phone new); simpl; congruence.
  - intros s r e r'. run_method. destruct (Birthday s); simpl; congruence.
  - intros r b e b'. run_method. congruence.
  - intros n b e b'. run_method. destruct (dict_contains n b); simpl; congruence.
  - intros p r. run_method. destruct (find_phone p r) as [[i v]|]; eauto.
  - intros r b. run_method. eauto.
  - intros n b. run_method. destruct (dict_contains n b); simpl; eauto.
Qed.

Lemma failed_operation_changes_nothing_witness :
  (add_phone sample_phone sample_record).1 = inl DuplicatePhoneError
  /\ (add_phone sample_phone sample_record).2 = sample_record
  /\ (add_phone (py "12ab") sample_record).1 = inl PhoneValidationError
  /\ (add_phone (py "12ab") sample_record).2 = sample_record
  /\ (edit_phone sample_phone (py "12ab") sample_record).1
     = inl PhoneValidationError
  /\ (edit_phone sample_phone (py "12ab") sample_record).2 = sample_record
  /\ (add_birthday (py "31.02.2024") sample_record).1 = inl DateValidationError
  /\ (add_birthday (py "31.02.2024") sample_record).2 = sample_record.
Proof.
  destruct failed_operation_changes_nothing as (Ha & _ & He & Hb & _).
  split; [reflexivity|]. split.
  { exact (Ha sample_phone sample_record DuplicatePhoneError _ eq_refl). }
  split; [reflexivity|]. split.
  { exact (Ha (py "12ab") sample_record PhoneValidationError _ eq_refl). }
  split; [reflexivity|]. split.
  { exact (He sample_phone (py "12ab") sample_record PhoneValidationError _
             eq_refl). }
  split; [reflexivity|].
  exact (Hb (py "31.02.2024") sample_record DateValidationError _ eq_refl).
Defined.

(** ** Calendar: properties *)

Ltac eval_tables :=
  repeat match goal with
  | |- context [table_get ?t ?m] =>
      let v := eval vm_compute in (table_get t m) in
      change (table_get t m) with v
  | H : context [table_get ?t ?m] |- _ =>
      let v := eval vm_compute in (table_get t m) in
      change (table_get t m) with v in H
  end.

Ltac each_month Hcases tac :=
  repeat (destruct Hcases as [-> | Hcases]; [tac|]); [subst; tac].

Lemma is_leap_spec (y : Z) :
  is_leap y = true
  <-> y mod 4 = 0 /\ (y mod 100 <> 0 \/ y mod 400 = 0).
Proof.
  unfold is_leap.
  rewrite andb_true_iff, orb_true_iff, negb_true_iff, !Z.eqb_eq, Z.eqb_neq.
  tauto.
Qed.

(** No two consecutive years are both leap years. *)
Lemma is_leap_next (y : Z) : is_leap y = true -> is_leap (y + 1) = false.
Proof.
  intros H. apply is_leap_spec in H as [H4 _].
  destruct (is_leap (y + 1)) eqn:E; [|done].
  apply is_leap_spec in E as [H4' _]. Z.div_mod_to_equations. lia.
Qed.

Lemma days_before_year_decomposed (n400 n100 n4 n1 : Z) :
  0 <= n100 <= 3 -> 0 <= n4 <= 24 -> 0 <= n1 <= 3 ->
  days_before_year (n400 * 400 + 1 + n100 * 100 + n4 * 4 + n1)
  = n400 * DI400Y + n100 * DI100Y + n4 * DI4Y + n1 * 365.
Proof.
  intros H100 H4 H1. unfold days_before_year, DI400Y, DI100Y, DI4Y.
  Z.div_mod_to_equations. lia.
Qed.

Lemma is_leap_decomposed (n400 n100 n4 n1 : Z) :
  0 <= n100 <= 3 -> 0 <= n4 <= 24 -> 0 <= n1 <= 3 ->
  is_leap (n400 * 400 + 1 + n100 * 100 + n4 * 4 + n1)
  = (n1 =? 3) && (negb (n4 =? 24) || (n100 =? 3)).
Proof.
  intros H100 H4 H1. unfold is_leap.
  assert (n1 = 0 \/ n1 = 1 \/ n1 = 2 \/ n1 = 3) as Hn1 by lia.
  assert (n100 = 0 \/ n100 = 1 \/ n100 = 2 \/ n100 = 3) as Hn100 by lia.
  repeat match goal with
         | |- context [?a =? ?b] => destruct (Z.eqb_spec a b)
         end;
    simpl; try reflexivity; exfalso;
    destruct Hn1 as [-> | [-> | [-> | ->]]]; try lia;
    destruct Hn100 as [-> | [-> | [-> | ->]]]; try lia;
    Z.div_mod_to_equations; lia.
Qed.

Lemma ymd2ord_bounds (y m d : Z) :
  1 <= y <= 9999 -> 1 <= m <= 12 -> 1 <= d <= days_in_month y m ->
  1 <= ymd2ord y m d <= MAXORDINAL.
Proof.
  intros Hy Hm Hd.
  assert (m = 1 \/ m = 2 \/ m = 3 \/ m = 4 \/ m = 5 \/ m = 6 \/ m = 7
          \/ m = 8 \/ m = 9 \/ m = 10 \/ m = 11 \/ m = 12) as Hcases by lia.
  unfold ymd2ord, days_before_month, days_in_month, MAXORDINAL in *.
  destruct (Z.eq_dec y 9999) as [->|Hy'].
  - change (is_leap 9999) with false in *.
    change (days_before_year 9999) with 3651694.
    each_month Hcases ltac:(eval_tables; simpl in *; lia).
  - assert (0 <= days_before_year y <= 3651330) as Hdby.
    { unfold days_before_year. Z.div_mod_to_equations. lia. }
    destruct (is_leap y);
      each_month Hcases ltac:(eval_tables; simpl in *; lia).
Qed.

Lemma toordinal_bounds (d : date) :
  valid_date d -> 1 <= toordinal d <= MAXORDINAL.
Proof. intros (Hy & Hm & Hd). by apply ymd2ord_bounds. Qed.

Lemma month_day_checked :
  forallb (fun k => month_day_ok true (Z.of_nat k)
                    && month_day_ok false (Z.of_nat k)) (seq 0 365) = true.
Proof. vm_compute. reflexivity. Qed.

Lemma month_day_correct (leapyear : bool) (n : Z) :
  0 <= n < 365 -> month_day_ok leapyear n = true.
Proof.
  intros Hn. pose proof month_day_checked as H.
  rewrite List.forallb_forall in H. specialize (H (Z.to_nat n)).
  rewrite Z2Nat.id in H by lia.
  destruct leapyear; apply andb_true_iff in H as [H1 H2]; try done;
    apply in_seq; lia.
Qed.

(** [fromordinal] is a right inverse of [toordinal]: the date computed for
    day number [n] has day number [n]. *)
Lemma ordinal_roundtrip (n : Z) : 1 <= n -> toordinal (fromordinal n) = n.
Proof.
  intros Hn. unfold toordinal, fromordinal, ord2ymd. cbv zeta.
  set (n0 := n - 1).
  set (n400 := n0 / DI400Y). set (r400 := n0 mod DI400Y).
  set (n100 := r400 / DI100Y). set (r100 := r400 mod DI100Y).
  set (n4 := r100 / DI4Y). set (r4 := r100 mod DI4Y).
  set (n1 := r4 / 365). set (r1 := r4 mod 365).
  assert (n0 = n400 * 146097 + r400 /\ 0 <= r400 < 146097) as [E400 B400].
  { subst n400 r400. unfold DI400Y. Z.div_mod_to_equations. lia. }
  assert (r400 = n100 * 36524 + r100 /\ 0 <= r100 < 36524) as [E100 B100].
  { subst n100 r100. unfold DI100Y. Z.div_mod_to_equations. lia. }
  assert (r100 = n4 * 1461 + r4 /\ 0 <= r4 < 1461) as [E4 B4].
  { subst n4 r4. unfold DI4Y. Z.div_mod_to_equations. lia. }
  assert (r4 = n1 * 365 + r1 /\ 0 <= r1 < 365) as [E1 B1].
  { subst n1 r1. Z.div_mod_to_equations. lia. }
  assert (0 <= n400) as P400 by lia.
  assert (0 <= n100 <= 4) as P100 by lia.
  assert (0 <= n4 <= 24) as P4 by lia.
  assert (0 <= n1 <= 4) as P1 by lia.
  assert (n0 = n - 1) as En0 by reflexivity.
  clearbody n400 r400 n100 r100 n4 r4 n1 r1 n0.
  destruct ((n1 =? 4) || (n100 =? 4)) eqn:Hspecial.
  - (* the last day of a 4-year or 400-year cycle: 31 December *)
    apply orb_true_iff in Hspecial. rewrite !Z.eqb_eq in Hspecial.
    assert (exists a b c,
               n400 * 400 + 1 + n100 * 100 + n4 * 4 + n1 - 1
               = a * 400 + 1 + b * 100 + c * 4 + 3
               /\ 0 <= b <= 3 /\ 0 <= c <= 24 /\ (c <> 24 \/ b = 3)
               /\ a * 146097 + b * 36524 + c * 1461 + 1461 = n0 + 1)
      as (a & b & c & -> & Hb & Hc & Hbc & Hsum).
    { destruct Hspecial as [-> | ->];
        [exists n400, n100, n4 | exists n400, 3, 24]; lia. }
    unfold ymd2ord, days_before_month. simpl year; simpl month; simpl day.
    rewrite is_leap_decomposed, days_before_year_decomposed by lia.
    eval_tables. unfold DI400Y, DI100Y, DI4Y.
    replace (3 =? 3) with true by reflexivity.
    destruct (Z.eqb_spec c 24), (Z.eqb_spec b 3); simpl; lia.
  - apply orb_false_iff in Hspecial as [H1 H100]. apply Z.eqb_neq in H1, H100.
    rewrite <- (is_leap_decomposed n400 n100 n4 n1) by lia.
    set (y := n400 * 400 + 1 + n100 * 100 + n4 * 4 + n1).
    pose proof (month_day_correct (is_leap y) r1 B1) as Hmd.
    unfold month_day_ok, month_day in Hmd. cbv zeta in Hmd.
    assert (days_before_year y = n0 - r1) as Hy.
    { subst y. rewrite days_before_year_decomposed by lia.
      unfold DI400Y, DI100Y, DI4Y. lia. }
    destruct (r1 <? _); simpl year; simpl month; simpl day;
      unfold ymd2ord, days_before_month; rewrite Hy;
      rewrite !andb_true_iff, Z.eqb_eq in Hmd; lia.
Qed.

Lemma check_date_fields_inr (y m d : Z) (dt : date) :
  check_date_fields y m d = inr dt -> dt = mkdate y m d /\ valid_date dt.
Proof.
  unfold check_date_fields, valid_date.
  destruct (_ && _) eqn:Hy; simpl; [|discriminate].
  destruct (_ && _) eqn:Hm in |- *; simpl; [|discriminate].
  destruct (_ && _) eqn:Hd in |- *; simpl; [|discriminate].
  intros [= <-]. simpl.
  apply andb_true_iff in Hy as [? ?], Hm as [? ?], Hd as [? ?].
  unfold MINYEAR, MAXYEAR in *. split; [done|]. lia.
Qed.

Lemma check_date_fields_valid (d : date) :
  valid_date d -> check_date_fields (year d) (month d) (day d) = inr d.
Proof.
  intros (Hy & Hm & Hd). unfold check_date_fields, MINYEAR, MAXYEAR in *.
  repeat match goal with
         | |- context [?a <=? ?b] =>
             replace (a <=? b) with true by (symmetry; apply Z.leb_le; lia)
         end.
  simpl. by destruct d.
Qed.

Lemma check_date_fields_inl (y m d : Z) (e : exn) :
  check_date_fields y m d = inl e -> exists msg, e = ValueError msg.
Proof.
  unfold check_date_fields.
  repeat (destruct (negb _); [intros [= <-]; eauto|]). discriminate.
Qed.

(** On a real date the weekend rule never overflows, moves the date by the
    stated number of days, and lands on a Monday when it moves it. *)
Lemma weekend_shift_valid (bty : date) :
  valid_date bty ->
  exists c, weekend_shift bty = inr c
            /\ toordinal c = toordinal bty + weekend_offset (weekday bty)
            /\ (weekday bty = 5 \/ weekday bty = 6 -> weekday c = 0)
            /\ (weekday bty <> 5 -> weekday bty <> 6 -> c = bty).
Proof.
  intros Hv. apply toordinal_bounds in Hv. unfold MAXORDINAL in Hv.
  unfold weekend_shift, weekend_offset, date_add_days, MAXORDINAL.
  destruct (Z.eqb_spec (weekday bty) 5) as [H5|H5];
    [|destruct (Z.eqb_spec (weekday bty) 6) as [H6|H6]].
  - assert (toordinal bty + 2 <= 3652059) as Hle.
    { unfold weekday in H5. Z.div_mod_to_equations. lia. }
    replace ((0 <? toordinal bty + 2) && (toordinal bty + 2 <=? 3652059))
      with true by (symmetry; apply andb_true_iff; lia).
    eexists. split; [reflexivity|].
    assert (toordinal (fromordinal (toordinal bty + 2)) = toordinal bty + 2)
      as Hrt by (apply ordinal_roundtrip; lia).
    split; [done|]. split; [|lia]. intros _.
    unfold weekday in *. rewrite Hrt. Z.div_mod_to_equations. lia.
  - assert (toordinal bty + 1 <= 3652059) as Hle.
    { unfold weekday in H6. Z.div_mod_to_equations. lia. }
    replace ((0 <? toordinal bty + 1) && (toordinal bty + 1 <=? 3652059))
      with true by (symmetry; apply andb_true_iff; lia).
    eexists. split; [reflexivity|].
    assert (toordinal (fromordinal (toordinal bty + 1)) = toordinal bty + 1)
      as Hrt by (apply ordinal_roundtrip; lia).
    split; [done|]. split; [|lia]. intros _.
    unfold weekday in *. rewrite Hrt. Z.div_mod_to_equations. lia.
  - exists bty. repeat split; [lia | lia].
Qed.

(** *** The order of dates and of day numbers *)

Lemma days_before_year_succ (y : Z) :
  days_before_year (y + 1)
  = days_before_year y + (if is_leap y then 366 else 365).
Proof.
  destruct (is_leap y) eqn:E.
  - apply is_leap_spec in E. unfold days_before_year.
    Z.div_mod_to_equations. lia.
  - assert (~ (y mod 4 = 0 /\ (y mod 100 <> 0 \/ y mod 400 = 0))) as H.
    { rewrite <- is_leap_spec. congruence. }
    unfold days_before_year. Z.div_mod_to_equations. lia.
Qed.

Lemma days_before_year_mono (y1 y2 : Z) :
  y1 <= y2 -> days_before_year y1 <= days_before_year y2.
Proof. intros H. unfold days_before_year. Z.div_mod_to_equations. lia. Qed.

Ltac month_cases m H :=
  assert (m = 1 \/ m = 2 \/ m = 3 \/ m = 4 \/ m = 5 \/ m = 6 \/ m = 7
          \/ m = 8 \/ m = 9 \/ m = 10 \/ m = 11 \/ m = 12) as H by lia.

(** A day of one month is before the first day of any later month. *)
Lemma days_before_month_step (y m m' d : Z) :
  1 <= m -> m < m' <= 12 -> d <= days_in_month y m ->
  days_before_month y m + d <= days_before_month y m'.
Proof.
  intros Hm Hm' Hd. month_cases m Hc. month_cases m' Hc'.
  unfold days_before_month, days_in_month in *.
  destruct (is_leap y);
    each_month Hc ltac:(try lia; each_month Hc'
                          ltac:(try lia; eval_tables; simpl in *; lia)).
Qed.

(** The number of a day in its year is at most the length of the year. *)
Lemma day_of_year_bounds (y m d : Z) :
  1 <= m <= 12 -> 1 <= d <= days_in_month y m ->
  1 <= days_before_month y m + d <= (if is_leap y then 366 else 365).
Proof.
  intros Hm Hd. month_cases m Hc.
  unfold days_before_month, days_in_month in *.
  destruct (is_leap y); each_month Hc ltac:(eval_tables; simpl in *; lia).
Qed.

(** The order of dates is the order of their day numbers. *)
Lemma toordinal_lt (a b : date) :
  valid_date a -> valid_date b -> date_ltb a b = true ->
  toordinal a < toordinal b.
Proof.
  intros (_ & Hma & Hda) (_ & Hmb & Hdb) Hlt.
  unfold date_ltb in Hlt. unfold toordinal, ymd2ord.
  pose proof (day_of_year_bounds _ _ _ Hma Hda) as Ha.
  pose proof (day_of_year_bounds _ _ _ Hmb Hdb) as Hb.
  apply orb_true_iff in Hlt as [Hy | Hlt].
  - apply Z.ltb_lt in Hy.
    pose proof (days_before_year_succ (year a)) as Hs.
    pose proof (days_before_year_mono (year a + 1) (year b)) as Hmono.
    destruct (is_leap (year a)); lia.
  - apply andb_true_iff in Hlt as [Hy Hlt]. apply Z.eqb_eq in Hy.
    rewrite Hy in *. apply orb_true_iff in Hlt as [Hm | Hlt].
    + apply Z.ltb_lt in Hm.
      pose proof (days_before_month_step (year b) (month a) (month b) (day a)).
      lia.
    + apply andb_true_iff in Hlt as [Hm Hd].
      apply Z.eqb_eq in Hm. apply Z.ltb_lt in Hd. rewrite Hm. lia.
Qed.

Lemma date_ltb_false (a b : date) :
  date_ltb a b = false -> a = b \/ date_ltb b a = true.
Proof.
  destruct a as [ya ma da], b as [yb mb db]. unfold date_ltb. simpl.
  intros H.
  apply orb_false_iff in H as [Hy H]. apply Z.ltb_ge in Hy.
  destruct (Z.ltb_spec yb ya) as [|Hy']; [by right|]. simpl.
  assert (ya = yb) as -> by lia. rewrite Z.eqb_refl in *. simpl in *.
  apply orb_false_iff in H as [Hm H]. apply Z.ltb_ge in Hm.
  destruct (Z.ltb_spec mb ma) as [|Hm']; [by right|]. simpl.
  assert (ma = mb) as -> by lia. rewrite Z.eqb_refl in *. simpl in *.
  apply Z.ltb_ge in H.
  destruct (Z.ltb_spec db da) as [|Hd']; [by right|].
  left. f_equal. lia.
Qed.

Lemma toordinal_le (a b : date) :
  valid_date a -> valid_date b -> date_ltb a b = false ->
  toordinal b <= toordinal a.
Proof.
  intros Ha Hb H. apply date_ltb_false in H as [-> | H]; [lia|].
  pose proof (toordinal_lt b a Hb Ha H). lia.
Qed.

(** The month and day found for an offset are a day of that month. *)
Lemma month_day_fits_checked :
  forallb (fun k => month_day_fits true (Z.of_nat k)
                    && month_day_fits false (Z.of_nat k)) (seq 0 365) = true.
Proof. vm_compute. reflexivity. Qed.

Lemma month_day_fits_correct (leapyear : bool) (n : Z) :
  0 <= n < 365 -> month_day_fits leapyear n = true.
Proof.
  intros Hn. pose proof month_day_fits_checked as H.
  rewrite List.forallb_forall in H. specialize (H (Z.to_nat n)).
  rewrite Z2Nat.id in H by lia.
  destruct leapyear; apply andb_true_iff in H as [H1 H2]; try done;
    apply in_seq; lia.
Qed.

(** [fromordinal] yields real calendar dates on the day numbers of the
    years 1 to 9999. *)
Lemma fromordinal_valid (n : Z) :
  1 <= n <= MAXORDINAL -> valid_date (fromordinal n).
Proof.
  intros Hn. unfold MAXORDINAL in Hn. unfold fromordinal, ord2ymd. cbv zeta.
  set (n0 := n - 1).
  set (n400 := n0 / DI400Y). set (r400 := n0 mod DI400Y).
  set (n100 := r400 / DI100Y). set (r100 := r400 mod DI100Y).
  set (n4 := r100 / DI4Y). set (r4 := r100 mod DI4Y).
  set (n1 := r4 / 365). set (r1 := r4 mod 365).
  assert (n0 = n400 * 146097 + r400 /\ 0 <= r400 < 146097) as [E400 B400].
  { subst n400 r400. unfold DI400Y. Z.div_mod_to_equations. lia. }
  assert (r400 = n100 * 36524 + r100 /\ 0 <= r100 < 36524) as [E100 B100].
  { subst n100 r100. unfold DI100Y. Z.div_mod_to_equations. lia. }
  assert (r100 = n4 * 1461 + r4 /\ 0 <= r4 < 1461) as [E4 B4].
  { subst n4 r4. unfold DI4Y. Z.div_mod_to_equations. lia. }
  assert (r4 = n1 * 365 + r1 /\ 0 <= r1 < 365) as [E1 B1].
  { subst n1 r1. Z.div_mod_to_equations. lia. }
  assert (0 <= n400) as P400 by lia.
  assert (0 <= n100 <= 4) as P100 by lia.
  assert (0 <= n4 <= 24) as P4 by lia.
  assert (0 <= n1 <= 4) as P1 by lia.
  assert (n0 = n - 1) as En0 by reflexivity.
  assert (forall y, days_before_year y <= 3652058 -> y <= 9999) as Hlast.
  { intros y Hy. destruct (Z.le_gt_cases y 9999) as [|Hgt]; [done|].
    pose proof (days_before_year_mono 10000 y ltac:(lia)) as Hmono.
    change (days_before_year 10000) with 3652059 in Hmono. lia. }
  clearbody n400 r400 n100 r100 n4 r4 n1 r1 n0.
  destruct ((n1 =? 4) || (n100 =? 4)) eqn:Hspecial.
  - apply orb_true_iff in Hspecial. rewrite !Z.eqb_eq in Hspecial.
    assert (exists a b c,
               n400 * 400 + 1 + n100 * 100 + n4 * 4 + n1 - 1
               = a * 400 + 1 + b * 100 + c * 4 + 3
               /\ 0 <= a /\ 0 <= b <= 3 /\ 0 <= c <= 24
               /\ a * 146097 + b * 36524 + c * 1461 + 1461 = n0 + 1)
      as (a & b & c & -> & Ha & Hb & Hc & Hsum).
    { destruct Hspecial as [-> | ->];
        [exists n400, n100, n4 | exists n400, 3, 24]; lia. }
    unfold valid_date, MINYEAR, MAXYEAR. simpl year; simpl month; simpl day.
    split; [split; [lia|] | split; [lia | by vm_compute]].
    apply Hlast. rewrite days_before_year_decomposed by lia.
    unfold DI400Y, DI100Y, DI4Y. lia.
  - apply orb_false_iff in Hspecial as [H1 H100]. apply Z.eqb_neq in H1, H100.
    rewrite <- (is_leap_decomposed n400 n100 n4 n1) by lia.
    set (y := n400 * 400 + 1 + n100 * 100 + n4 * 4 + n1).
    pose proof (month_day_correct (is_leap y) r1 B1) as Hmd.
    pose proof (month_day_fits_correct (is_leap y) r1 B1) as Hfit.
    unfold month_day_ok, month_day in Hmd. cbv zeta in Hmd.
    unfold month_day_fits, month_day in Hfit. cbv zeta in Hfit.
    assert (1 <= y <= 9999) as Hy.
    { split; [subst y; lia|]. apply Hlast. subst y.
      rewrite days_before_year_decomposed by lia.
      unfold DI400Y, DI100Y, DI4Y. lia. }
    unfold valid_date, MINYEAR, MAXYEAR, days_in_month.
    destruct (r1 <? _); simpl year; simpl month; simpl day;
      rewrite !andb_true_iff, ?Z.eqb_eq, ?Z.leb_le in Hmd;
      apply Z.leb_le in Hfit; lia.
Qed.

(** The weekend rule yields real calendar dates. *)
Lemma weekend_shift_valid_date (bty c : date) :
  valid_date bty -> weekend_shift bty = inr c -> valid_date c.
Proof.
  intros Hv. unfold weekend_shift, date_add_days.
  destruct (weekday bty =? 5); [|destruct (weekday bty =? 6)].
  - destruct (_ && _) eqn:Hin; [|done]. intros [= <-].
    apply andb_true_iff in Hin as [?%Z.ltb_lt ?%Z.leb_le].
    apply fromordinal_valid. lia.
  - destruct (_ && _) eqn:Hin; [|done]. intros [= <-].
    apply andb_true_iff in Hin as [?%Z.ltb_lt ?%Z.leb_le].
    apply fromordinal_valid. lia.
  - by intros [= <-].
Qed.

(** ** The upcoming-birthday query: properties *)

Lemma birthday_this_year_inr (today bd bty : date) :
  birthday_this_year today bd = inr bty -> valid_date bty.
Proof.
  unfold birthday_this_year, result_bind, date_replace_year.
  destruct (check_date_fields (year today) _ _) as [e|d1] eqn:E1; [done|].
  apply check_date_fields_inr in E1 as [-> Hv1]. simpl.
  destruct (date_ltb _ today).
  - intros H. by apply check_date_fields_inr in H as [_ ?].
  - by intros [= <-].
Qed.

Lemma birthday_this_year_inl (today bd : date) (e : exn) :
  birthday_this_year today bd = inl e -> exists msg, e = ValueError msg.
Proof.
  unfold birthday_this_year, result_bind, date_replace_year.
  destruct (check_date_fields (year today) _ _) as [e1|d1] eqn:E1.
  - intros [= <-]. by eapply check_date_fields_inl.
  - destruct (date_ltb d1 today); [|done]. apply check_date_fields_inl.
Qed.

(** A birthday on 29 February cannot be moved to a year that is not a leap
    year: [replace] raises. *)
Lemma leap_day_not_replaceable (today bd : date) :
  month bd = 2 -> day bd = 29 ->
  is_leap (year today) = false
  \/ (date_ltb (mkdate (year today) 2 29) today = true
      /\ is_leap (year today + 1) = false) ->
  exists msg, birthday_this_year today bd = inl (ValueError msg).
Proof.
  intros Hm Hd Hcase.
  assert (forall y, is_leap y = false ->
            exists msg, check_date_fields y 2 29 = inl (ValueError msg)) as Hno.
  { intros y Hy. unfold check_date_fields, days_in_month. rewrite Hy. simpl.
    destruct (negb _); [by eauto|].
    change (table_get DAYS_IN_MONTH 2) with 28. simpl. by eauto. }
  unfold birthday_this_year, date_replace_year, result_bind. rewrite Hm, Hd.
  destruct Hcase as [Hy | [Hlt Hy]].
  - destruct (Hno _ Hy) as [msg ->]. by eauto.
  - destruct (check_date_fields (year today) 2 29) as [e|d1] eqn:E1.
    + apply check_date_fields_inl in E1 as [msg ->]. by eauto.
    + apply check_date_fields_inr in E1 as [-> _]. rewrite Hlt. simpl.
      by apply Hno.
Qed.

(** In a leap year the condition on the next year always holds. *)
Lemma leap_day_passed_not_replaceable (today bd : date) :
  month bd = 2 -> day bd = 29 ->
  is_leap (year today) = true ->
  date_ltb (mkdate (year today) 2 29) today = true ->
  exists msg, birthday_this_year today bd = inl (ValueError msg).
Proof.
  intros Hm Hd Hleap Hlt. apply leap_day_not_replaceable; [done | done |].
  right. split; [done|]. by apply is_leap_next.
Qed.

Lemma report_line_names (yf : year_format) (today : date) (c : record) :
  contact_name <$> report_line yf today c
  = if in_window today c then [name c] else [].
Proof.
  unfold report_line, in_window.
  destruct (birthday c) as [bd|]; [|done].
  destruct (birthday_this_year today bd) as [e|bty] eqn:E; [done|].
  destruct (_ && _); [|done].
  apply birthday_this_year_inr, weekend_shift_valid in E as (c' & -> & _).
  done.
Qed.

(** The loop returns the lines of the contacts, in their order, after what
    was collected before; and it returns only if every birthday could be
    moved to its year. *)
Lemma upcoming_loop_inr (yf : year_format) (today : date)
    (contacts : list record) (acc out : list upcoming) :
  upcoming_loop yf today contacts acc = inr out ->
  out = acc ++ flat_map (report_line yf today) contacts
  /\ Forall (fun c => forall bd, birthday c = Some bd ->
               exists bty, birthday_this_year today bd = inr bty) contacts.
Proof.
  revert acc. induction contacts as [|c cs IH]; intros acc; simpl.
  - intros [= <-]. by rewrite app_nil_r.
  - unfold report_line, in_window.
    destruct (birthday c) as [bd|] eqn:Hb.
    + destruct (birthday_this_year today bd) as [e|bty] eqn:E; [done|]. simpl.
      destruct (_ && _).
      * destruct (weekend_shift bty) as [e|c']; [done|]. simpl.
        intros H. apply IH in H as [-> Hall]. rewrite <- app_assoc.
        split; [done|]. constructor; [|done]. intros ? ?. simplify_eq. by eauto.
      * intros H. apply IH in H as [-> Hall].
        split; [done|]. constructor; [|done]. intros ? ?. simplify_eq. by eauto.
    + intros H. apply IH in H as [-> Hall].
      split; [done|]. constructor; [|done]. intros ? ?. simplify_eq.
Qed.

(** The loop raises nothing but [ValueError]. *)
Lemma upcoming_loop_inl (yf : year_format) (today : date)
    (contacts : list record) (acc : list upcoming) (e : exn) :
  upcoming_loop yf today contacts acc = inl e -> exists msg, e = ValueError msg.
Proof.
  revert acc. induction contacts as [|c cs IH]; intros acc; simpl; [done|].
  destruct (birthday c) as [bd|]; [|by apply IH].
  destruct (birthday_this_year today bd) as [e1|bty] eqn:E; simpl.
  - intros [= <-]. by eapply birthday_this_year_inl.
  - destruct (_ && _); [|by apply IH].
    apply birthday_this_year_inr, weekend_shift_valid in E as (c' & -> & _).
    simpl. by apply IH.
Qed.

(** One birthday that cannot be moved makes the whole loop raise. *)
Lemma upcoming_loop_fails (yf : year_format) (today : date)
    (contacts : list record) (acc : list upcoming) (c : record)
    (bd : date) (e : exn) :
  c ∈ contacts -> birthday c = Some bd ->
  birthday_this_year today bd = inl e ->
  exists e', upcoming_loop yf today contacts acc = inl e'.
Proof.
  intros Hin Hb He. destruct (upcoming_loop _ _ _ _) as [e'|out] eqn:E.
  - by eauto.
  - apply upcoming_loop_inr in E as [_ Hall].
    rewrite Forall_forall in Hall. destruct (Hall c Hin bd Hb) as [bty Hbty].
    congruence.
Qed.

(** The loop returns whenever every birthday can be moved to its year. *)
Lemma upcoming_loop_total (yf : year_format) (today : date)
    (contacts : list record) (acc : list upcoming) :
  Forall (fun c => forall bd, birthday c = Some bd ->
            exists bty, birthday_this_year today bd = inr bty) contacts ->
  exists out, upcoming_loop yf today contacts acc = inr out.
Proof.
  revert acc. induction contacts as [|c cs IH]; intros acc Hall; simpl.
  - by eauto.
  - apply Forall_cons in Hall as [Hc Hall].
    destruct (birthday c) as [bd|]; [|by apply IH].
    destruct (Hc bd eq_refl) as [bty E]. rewrite E. simpl.
    destruct (_ && _); [|by apply IH].
    apply birthday_this_year_inr, weekend_shift_valid in E as (c' & -> & _).
    simpl. by apply IH.
Qed.

Lemma flat_map_names (yf : year_format) (today : date) (cs : list record) :
  contact_name <$> flat_map (report_line yf today) cs
  = name <$> filter (fun c => in_window today c = true) cs.
Proof.
  induction cs as [|c cs IH]; [done|]. simpl.
  rewrite fmap_app, report_line_names, IH, filter_cons.
  destruct (in_window today c); by destruct (decide _).
Qed.

(** C9: a birthday on 29 February makes the query fail for the whole book
    when it cannot be moved: if the current year is not a leap year, or if
    it is and 29 February of it has passed (and the next year is not a
    leap year, as it never is), [get_upcoming_birthdays] raises
    [ValueError] instead of returning a list, whatever else the book
    holds. *)
Theorem leap_day_birthday_breaks_query (yf : year_format) (today : date)
    (b : AddressBook) (contact : record) (bd : date) :
  contact ∈ dict_values b ->
  birthday contact = Some bd -> month bd = 2 -> day bd = 29 ->
  is_leap (year today) = false
  \/ (date_ltb (mkdate (year today) 2 29) today = true
      /\ is_leap (year today + 1) = false) ->
  exists msg, get_upcoming_birthdays yf today b = inl (ValueError msg).
Proof.
  intros Hin Hb Hm Hd Hcase.
  destruct (leap_day_not_replaceable today bd Hm Hd Hcase) as [msg Hfail].
  destruct (upcoming_loop_fails yf today (dict_values b) [] contact bd _
              Hin Hb Hfail) as [e He].
  unfold get_upcoming_birthdays. rewrite He.
  apply upcoming_loop_inl in He as [msg' ->]. by eauto.
Qed.

Lemma leap_day_birthday_breaks_query_witness :
  (exists msg,
      get_upcoming_birthdays YearPlain (mkdate 2023 5 20) leap_book
      = inl (ValueError msg))
  /\ (exists msg,
      get_upcoming_birthdays YearPlain (mkdate 2024 3 20) leap_book
      = inl (ValueError msg)).
Proof.
  split.
  - apply (leap_day_birthday_breaks_query YearPlain (mkdate 2023 5 20)
             leap_book leap_contact (mkdate 2000 2 29)).
    + unfold dict_values. decide_by_computation.
    + reflexivity.
    + reflexivity.
    + reflexivity.
    + left. reflexivity.
  - apply (leap_day_birthday_breaks_query YearPlain (mkdate 2024 3 20)
             leap_book leap_contact (mkdate 2000 2 29)).
    + unfold dict_values. decide_by_computation.
    + reflexivity.
    + reflexivity.
    + reflexivity.
    + right. split; reflexivity.
Defined.

(** *** The code's window and the specification's *)

(** What the code computes as [birthday_this_year] is the date the
    specification describes. *)
Lemma birthday_this_year_is_spec (today bd bty : date) :
  birthday_this_year today bd = inr bty ->
  bty = spec_birthday_this_year today bd.
Proof.
  unfold birthday_this_year, result_bind, date_replace_year,
    spec_birthday_this_year, spec_passed.
  destruct (check_date_fields (year today) _ _) as [e|d1] eqn:E1; [done|].
  apply check_date_fields_inr in E1 as [-> _].
  unfold date_ltb. cbn [year month day].
  rewrite Z.ltb_irrefl, Z.eqb_refl. cbn [orb andb].
  destruct (_ || _).
  - intros H. by apply check_date_fields_inr in H as [-> _].
  - by intros [= <-].
Qed.

(** The next occurrence of a birthday is today or at most 365 days
    ahead. *)
Lemma birthday_this_year_days (today bd bty : date) :
  valid_date today ->
  birthday_this_year today bd = inr bty ->
  0 <= date_diff_days bty today <= 365.
Proof.
  intros Htoday Hrun.
  pose proof (birthday_this_year_inr _ _ _ Hrun) as Hv.
  unfold birthday_this_year, result_bind, date_replace_year in Hrun.
  destruct (check_date_fields (year today) _ _) as [e|d1] eqn:E1; [done|].
  apply check_date_fields_inr in E1 as [-> Hv1]. simpl in Hrun.
  destruct (date_ltb _ today) eqn:Hlt.
  - apply check_date_fields_inr in Hrun as [-> _].
    assert (date_ltb (mkdate (year today + 1) (month bd) (day bd)) today
            = false) as Hnot.
    { unfold date_ltb. simpl.
      replace (year today + 1 <? year today) with false
        by (symmetry; apply Z.ltb_ge; lia).
      replace (year today + 1 =? year today) with false
        by (symmetry; apply Z.eqb_neq; lia).
      done. }
    pose proof (toordinal_le _ _ Hv Htoday Hnot) as Hle.
    split; [unfold date_diff_days; lia|].
    destruct Hv as (_ & Hm & Hd), Htoday as (_ & Htm & Htd). simpl in *.
    unfold date_diff_days, toordinal, ymd2ord. simpl.
    rewrite days_before_year_succ.
    pose proof (is_leap_next (year today)) as Hnext.
    unfold date_ltb in Hlt. simpl in Hlt.
    rewrite Z.ltb_irrefl, Z.eqb_refl in Hlt. simpl in Hlt.
    apply orb_true_iff in Hlt as [Hlt | Hlt].
    + apply Z.ltb_lt in Hlt.
      pose proof (days_before_month_step (year today + 1) (month bd)
                    (month today) (day bd)) as Hstep.
      unfold days_before_month in *.
      destruct (is_leap (year today)), (is_leap (year today + 1));
        try (by specialize (Hnext eq_refl));
        destruct (2 <? month today) eqn:H2; simpl in *;
        try apply Z.ltb_lt in H2; try apply Z.ltb_ge in H2; lia.
    + apply andb_true_iff in Hlt as [Hmeq Hlt].
      apply Z.eqb_eq in Hmeq. apply Z.ltb_lt in Hlt. rewrite <- Hmeq.
      unfold days_before_month.
      destruct (is_leap (year today)), (is_leap (year today + 1));
        try (by specialize (Hnext eq_refl));
        destruct (2 <? month bd); simpl; lia.
  - injection Hrun as <-.
    pose proof (toordinal_le _ _ Hv Htoday Hlt) as Hle.
    split; [unfold date_diff_days; lia|].
    destruct Hv as (_ & Hm & Hd), Htoday as (_ & Htm & Htd). simpl in *.
    pose proof (day_of_year_bounds _ _ _ Hm Hd).
    pose proof (day_of_year_bounds _ _ _ Htm Htd).
    unfold date_diff_days, toordinal, ymd2ord. simpl.
    destruct (is_leap (year today)); lia.
Qed.

(** On a record whose birthday the code can move to its year, the code's
    window test is the specification's. *)
Lemma in_window_is_spec (today : date) (contact : record) :
  (forall bd, birthday contact = Some bd ->
     exists bty, birthday_this_year today bd = inr bty) ->
  in_window today contact = spec_included today contact.
Proof.
  intros Hmoved. unfold in_window, spec_included, spec_days_delta.
  destruct (birthday contact) as [bd|]; [|done].
  destruct (Hmoved bd eq_refl) as [bty Hbty]. rewrite Hbty.
  by rewrite (birthday_this_year_is_spec _ _ _ Hbty).
Qed.

Lemma filter_in_window_is_spec (today : date) (cs : list record) :
  Forall (fun c => forall bd, birthday c = Some bd ->
            exists bty, birthday_this_year today bd = inr bty) cs ->
  filter (fun c => in_window today c = true) cs
  = filter (fun c => spec_included today c = true) cs.
Proof.
  induction cs as [|c cs IH]; [done|]. intros [Hc Hcs]%Forall_cons.
  rewrite !filter_cons, (in_window_is_spec today c Hc), IH by done. done.
Qed.

Lemma report_line_in_window (yf : year_format) (today : date)
    (contact : record) (bd bty : date) :
  birthday contact = Some bd ->
  birthday_this_year today bd = inr bty ->
  0 <= date_diff_days bty today <= 7 ->
  exists c, weekend_shift bty = inr c
            /\ report_line yf today contact
               = [mkupcoming (name contact) (strftime yf c)].
Proof.
  intros Hb Hbty Hwin. unfold report_line, in_window. rewrite Hb, Hbty.
  replace ((0 <=? _) && (_ <=? 7)) with true
    by (symmetry; apply andb_true_iff; lia).
  apply birthday_this_year_inr, weekend_shift_valid in Hbty as (c & Hc & _).
  exists c. by rewrite Hc.
Qed.

Lemma report_line_out_of_window (yf : year_format) (today : date)
    (contact : record) (bd bty : date) :
  birthday contact = Some bd ->
  birthday_this_year today bd = inr bty ->
  ~ (0 <= date_diff_days bty today <= 7) ->
  report_line yf today contact = [].
Proof.
  intros Hb Hbty Hwin. unfold report_line, in_window. rewrite Hb, Hbty.
  replace ((0 <=? _) && (_ <=? 7)) with false; [done|].
  symmetry. apply andb_false_iff. rewrite Z.leb_gt, Z.leb_gt. lia.
Qed.

(** C3: the 0-to-7-day filter looks at the birthday as moved to its year,
    before any weekend shift.  Whenever the query returns, its result is
    made of the lines of the records in book order, where a record
    without a birthday has no line and a record with a birthday has one
    exactly when its [birthday_this_year] is 0 to 7 days after [today];
    the date on that line is [birthday_this_year] moved forward by 2 days
    when it is a Saturday, by 1 day when it is a Sunday (a Monday in both
    cases), and [birthday_this_year] itself otherwise; so the reported
    date is up to 9 days after [today], and being later than 7 days does
    not remove the line. *)
Theorem weekend_shift_after_window_filter (yf : year_format) (today : date)
    (b : AddressBook) (out : list upcoming) :
  get_upcoming_birthdays yf today b = inr out ->
  out = flat_map (report_line yf today) (dict_values b)
  /\ forall contact, contact ∈ dict_values b ->
       (birthday contact = None -> report_line yf today contact = [])
       /\ forall bd, birthday contact = Some bd ->
            exists bty,
              birthday_this_year today bd = inr bty
              /\ (~ (0 <= date_diff_days bty today <= 7) ->
                  report_line yf today contact = [])
              /\ (0 <= date_diff_days bty today <= 7 ->
                  exists congratulation,
                    weekend_shift bty = inr congratulation
                    /\ report_line yf today contact
                       = [mkupcoming (name contact)
                            (strftime yf congratulation)]
                    /\ mkupcoming (name contact) (strftime yf congratulation)
                       ∈ out
                    /\ toordinal congratulation
                       = toordinal bty + weekend_offset (weekday bty)
                    /\ date_diff_days congratulation today
                       = date_diff_days bty today
                         + weekend_offset (weekday bty)
                    /\ (weekday bty = 5 \/ weekday bty = 6 ->
                        weekday congratulation = 0)
                    /\ (weekday bty <> 5 -> weekday bty <> 6 ->
                        congratulation = bty)).
Proof.
  intros Hrun. unfold get_upcoming_birthdays in Hrun.
  apply upcoming_loop_inr in Hrun as [-> Hall]. simpl. split; [done|].
  intros contact Hin. split.
  { intros Hb. unfold report_line. by rewrite Hb. }
  intros bd Hb.
  rewrite Forall_forall in Hall. destruct (Hall contact Hin bd Hb) as [bty Hbty].
  exists bty. split; [done|]. split.
  { by apply report_line_out_of_window with bd. }
  intros Hwin.
  destruct (report_line_in_window yf today contact bd bty Hb Hbty Hwin)
    as (c & Hc & Hline).
  pose proof (birthday_this_year_inr _ _ _ Hbty) as Hv.
  destruct (weekend_shift_valid bty Hv) as (c' & Hc' & Hord & Hmon & Hsame).
  assert (c' = c) as -> by congruence.
  exists c. split_and!; try done.
  - apply list_elem_of_In, in_flat_map. exists contact.
    split; [by apply list_elem_of_In|]. rewrite Hline. by left.
  - unfold date_diff_days. lia.
Qed.

Lemma weekend_shift_after_window_filter_witness :
  exists congratulation,
    weekend_shift (mkdate 2024 5 25) = inr congratulation
    /\ mkupcoming (py "Bob") (strftime YearPlain congratulation)
       ∈ [mkupcoming (py "Ann") (py "22.05.2024");
          mkupcoming (py "Bob") (py "27.05.2024")]
    /\ toordinal congratulation = toordinal (mkdate 2024 5 25) + 2
    /\ date_diff_days congratulation (mkdate 2024 5 18) = 9.
Proof.
  destruct (weekend_shift_after_window_filter YearPlain (mkdate 2024 5 18)
              scenario_book
              [mkupcoming (py "Ann") (py "22.05.2024");
               mkupcoming (py "Bob") (py "27.05.2024")])
    as (_ & Hlines); [reflexivity|].
  destruct (Hlines bob) as (_ & Hbob); [unfold dict_values; decide_by_computation|].
  destruct (Hbob (mkdate 2024 5 25) eq_refl) as (bty & Hbty & _ & Hwin).
  injection Hbty as <-.
  destruct Hwin as (c & Hc & _ & Hin & Hord & Hdiff & _).
  - vm_compute. split; discriminate.
  - exists c. split; [exact Hc|]. split; [exact Hin|].
    split; [exact Hord | exact Hdiff].
Defined.

(** C4: in the scenario (today is 20.05.2024; Ann, Bob and Cid are entered
    with the birthdays 22.05.2024, 25.05.2024 and 30.05.2024) the query
    returns exactly Ann on 22.05.2024 and Bob on 27.05.2024.  With
    birthdays of earlier years the date is moved to the year of [today],
    and to the next year when it has passed: on 28.12.2024 Jan, born on
    01.01.1990, is reported for 01.01.2025, and on 20.05.2024 Ann, born on
    22.05.1990, is reported for 22.05.2024.  In general, whenever the
    query returns, the reported names are those of the records, in book
    order, whose birthday moved to its year is 0 to 7 days after [today];
    the query does return when every birthday can be moved to its year;
    and for a real date [today] the date the code moves a birthday to is
    the one the specification describes: it has the month and day of the
    birthday, it lies in the year of [today], or in the next year when
    that day of the year is before [today]'s, it is a real date 0 to 365
    days after [today], and a record is included exactly when that number
    of days is at most 7. *)
Theorem upcoming_birthdays_window :
  (new_contact (py "Ann") (py "22.05.2024") = Some ann
   /\ new_contact (py "Bob") (py "25.05.2024") = Some bob
   /\ new_contact (py "Cid") (py "30.05.2024") = Some cid
   /\ (add_record cid (add_record bob (add_record ann []).2).2).2
      = scenario_book)
  /\ (forall yf,
        get_upcoming_birthdays yf (mkdate 2024 5 20) scenario_book
        = inr [mkupcoming (py "Ann") (py "22.05.2024");
               mkupcoming (py "Bob") (py "27.05.2024")])
  /\ (forall yf,
        get_upcoming_birthdays yf (mkdate 2024 12 28) earlier_book
        = inr [mkupcoming (py "Jan") (py "01.01.2025")]
        /\ get_upcoming_birthdays yf (mkdate 2024 5 20) earlier_book
           = inr [mkupcoming (py "Ann") (py "22.05.2024")])
  /\ (forall yf today (b : AddressBook) out,
        get_upcoming_birthdays yf today b = inr out ->
        contact_name <$> out
        = name <$> filter (fun c => in_window today c = true) (dict_values b))
  /\ (forall yf today (b : AddressBook),
        Forall (fun c => forall bd, birthday c = Some bd ->
                  exists bty, birthday_this_year today bd = inr bty)
          (dict_values b) ->
        exists out, get_upcoming_birthdays yf today b = inr out)
  /\ (forall yf today (b : AddressBook) out,
        valid_date today ->
        get_upcoming_birthdays yf today b = inr out ->
        contact_name <$> out
        = name <$> filter (fun c => spec_included today c = true)
                     (dict_values b)
        /\ forall contact bd,
             contact ∈ dict_values b -> birthday contact = Some bd ->
             birthday_this_year today bd
             = inr (spec_birthday_this_year today bd)
             /\ valid_date (spec_birthday_this_year today bd)
             /\ 0 <= spec_days_delta today bd <= 365
             /\ in_window today contact = spec_included today contact
             /\ (spec_included today contact = true
                 <-> spec_days_delta today bd <= 7)).
Proof.
  split_and!; try reflexivity.
  - intros []; reflexivity.
  - intros []; split; reflexivity.
  - intros yf today b out Hrun. unfold get_upcoming_birthdays in Hrun.
    apply upcoming_loop_inr in Hrun as [-> _]. simpl. apply flat_map_names.
  - intros yf today b Hall. by apply upcoming_loop_total.
  - intros yf today b out Htoday Hrun. unfold get_upcoming_birthdays in Hrun.
    apply upcoming_loop_inr in Hrun as [-> Hall]. simpl. split.
    + rewrite flat_map_names. by rewrite filter_in_window_is_spec.
    + intros contact bd Hin Hb. rewrite Forall_forall in Hall.
      destruct (Hall contact Hin bd Hb) as [bty Hbty].
      pose proof (birthday_this_year_is_spec _ _ _ Hbty) as Hspec.
      pose proof (birthday_this_year_inr _ _ _ Hbty) as Hv.
      pose proof (birthday_this_year_days _ _ _ Htoday Hbty) as Hdays.
      rewrite Hspec in Hv, Hdays. unfold date_diff_days in Hdays.
      fold (spec_days_delta today bd) in Hdays.
      split; [by rewrite <- Hspec|]. split; [done|]. split; [done|].
      split; [by apply in_window_is_spec, Hall|].
      unfold spec_included. rewrite Hb.
      rewrite andb_true_iff, !Z.leb_le. lia.
Qed.

Lemma upcoming_birthdays_window_witness :
  contact_name <$> [mkupcoming (py "Jan") (py "01.01.2025")]
  = name <$> filter (fun c => spec_included (mkdate 2024 12 28) c = true)
               (dict_values earlier_book)
  /\ birthday_this_year (mkdate 2024 12 28) (mkdate 1990 1 1)
     = inr (mkdate 2025 1 1)
  /\ spec_days_delta (mkdate 2024 12 28) (mkdate 1990 1 1) <= 7.
Proof.
  destruct upcoming_birthdays_window as (_ & _ & Hrun & _ & _ & Hspec).
  destruct (Hspec YearPlain (mkdate 2024 12 28) earlier_book
              [mkupcoming (py "Jan") (py "01.01.2025")])
    as (Hnames & Hrecord).
  - vm_compute. repeat split; discriminate.
  - apply (Hrun YearPlain).
  - destruct (Hrecord jan_1990 (mkdate 1990 1 1))
      as (Hmoved & _ & _ & _ & Hin).
    + unfold dict_values. decide_by_computation.
    + reflexivity.
    + split; [exact Hnames|]. split; [exact Hmoved|].
      apply Hin. reflexivity.
Defined.

(** ** Birthday: parsing and formatting *)

Lemma ascii_digit_Some (c : N) (v : Z) :
  ascii_digit c = Some v -> (48 <= c <= 57)%N /\ v = Z.of_N c - 48.
Proof.
  unfold ascii_digit. destruct (_ && _) eqn:E; [|done]. intros [= <-].
  apply andb_true_iff in E as [?%N.leb_le ?%N.leb_le]. done.
Qed.

Lemma char_decimal_ascii (c : N) :
  (48 <= c <= 57)%N -> char_decimal c = Some (Z.of_N c - 48).
Proof.
  intros Hc. unfold char_decimal, decimal_zero_table, decimal_in.
  assert ((48 <=? c)%N = true) as -> by (apply N.leb_le; lia).
  assert ((c <=? 48 + 9)%N = true) as -> by (apply N.leb_le; lia).
  simpl. f_equal. lia.
Qed.

Lemma p_seq_head {A B C} (f : A -> B -> C) (p : parser A) (q : parser B)
    (s r r' : pystr) (a : A) (b : B) :
  head (p s) = Some (a, r) -> head (q r) = Some (b, r') ->
  head (p_seq f p q s) = Some (f a b, r').
Proof.
  unfold p_seq. destruct (p s) as [|[a0 r0] ps]; [done|]. intros [= -> ->].
  simpl. destruct (q r) as [|[b0 r1] qs]; [done|]. by intros [= -> ->].
Qed.

Lemma skip_lit_head {A} (c : N) (q : parser A) (r r' : pystr) (a : A) :
  head (q r) = Some (a, r') ->
  head (skip_then (lit c) q (c :: r)) = Some (a, r').
Proof.
  intros Hq. unfold skip_then.
  apply (p_seq_head (fun _ b => b) (lit c) q (c :: r) r r' (Z.of_N (c - 48)) a);
    [|done].
  unfold lit, ascii_class. by rewrite N.leb_refl.
Qed.

Ltac each_digit c H :=
  let E := fresh in
  assert (c = 48 \/ c = 49 \/ c = 50 \/ c = 51 \/ c = 52 \/ c = 53 \/ c = 54
          \/ c = 55 \/ c = 56 \/ c = 57)%N as E by lia;
  clear H;
  destruct E as [-> | [-> | [-> | [-> | [-> | [-> | [-> | [-> | [-> | ->]]]]]]]]].

Lemma re_d_two_digits (c1 c2 : N) (rest : pystr) :
  (48 <= c1 <= 57)%N -> (48 <= c2 <= 57)%N ->
  1 <= 10 * (Z.of_N c1 - 48) + (Z.of_N c2 - 48) <= 31 ->
  head (re_d (c1 :: c2 :: rest))
  = Some (10 * (Z.of_N c1 - 48) + (Z.of_N c2 - 48), rest).
Proof.
  intros H1 H2 Hv. each_digit c1 H1; each_digit c2 H2;
    first [exfalso; lia | reflexivity].
Qed.

Lemma re_m_two_digits (c1 c2 : N) (rest : pystr) :
  (48 <= c1 <= 57)%N -> (48 <= c2 <= 57)%N ->
  1 <= 10 * (Z.of_N c1 - 48) + (Z.of_N c2 - 48) <= 12 ->
  head (re_m (c1 :: c2 :: rest))
  = Some (10 * (Z.of_N c1 - 48) + (Z.of_N c2 - 48), rest).
Proof.
  intros H1 H2 Hv. each_digit c1 H1; each_digit c2 H2;
    first [exfalso; lia | reflexivity].
Qed.

Lemma re_Y_four_digits (c1 c2 c3 c4 : N) (rest : pystr) :
  (48 <= c1 <= 57)%N -> (48 <= c2 <= 57)%N ->
  (48 <= c3 <= 57)%N -> (48 <= c4 <= 57)%N ->
  head (re_Y (c1 :: c2 :: c3 :: c4 :: rest))
  = Some (1000 * (Z.of_N c1 - 48) + 100 * (Z.of_N c2 - 48)
          + 10 * (Z.of_N c3 - 48) + (Z.of_N c4 - 48), rest).
Proof.
  intros H1 H2 H3 H4. unfold re_Y, two, p_seq, any_decimal. simpl.
  repeat (rewrite char_decimal_ascii by done; simpl). do 2 f_equal. lia.
Qed.

Lemma two_digits_of (c1 c2 : N) :
  (48 <= c1 <= 57)%N -> (48 <= c2 <= 57)%N ->
  two_digits (10 * (Z.of_N c1 - 48) + (Z.of_N c2 - 48)) = [c1; c2].
Proof.
  intros H1 H2. unfold two_digits, digit_char.
  set (v := 10 * (Z.of_N c1 - 48) + (Z.of_N c2 - 48)).
  assert (v / 10 = Z.of_N c1 - 48 /\ v mod 10 = Z.of_N c2 - 48) as [-> ->].
  { subst v. Z.div_mod_to_equations. lia. }
  f_equal; [lia|]. f_equal. lia.
Qed.

Lemma four_digits_of (c1 c2 c3 c4 : N) :
  (48 <= c1 <= 57)%N -> (48 <= c2 <= 57)%N ->
  (48 <= c3 <= 57)%N -> (48 <= c4 <= 57)%N ->
  four_digits (1000 * (Z.of_N c1 - 48) + 100 * (Z.of_N c2 - 48)
               + 10 * (Z.of_N c3 - 48) + (Z.of_N c4 - 48))
  = [c1; c2; c3; c4].
Proof.
  intros H1 H2 H3 H4. unfold four_digits, digit_char.
  set (v := 1000 * (Z.of_N c1 - 48) + 100 * (Z.of_N c2 - 48)
            + 10 * (Z.of_N c3 - 48) + (Z.of_N c4 - 48)).
  assert (v / 1000 = Z.of_N c1 - 48 /\ v / 100 mod 10 = Z.of_N c2 - 48
          /\ v / 10 mod 10 = Z.of_N c3 - 48 /\ v mod 10 = Z.of_N c4 - 48)
    as (-> & -> & -> & ->).
  { subst v. Z.div_mod_to_equations. lia. }
  repeat (f_equal; [lia|]). f_equal. lia.
Qed.

(** From the year 1000 on the plain year has four digits. *)
Lemma decimal_numeral_four_digits (y : Z) :
  1000 <= y <= 9999 -> decimal_numeral y = four_digits y.
Proof.
  intros Hy. unfold decimal_numeral, four_digits.
  destruct (Z.to_nat y) as [|[|[|[|k]]]] eqn:E; try lia.
  cbn [decimal_loop]. rewrite !Z.div_div by lia.
  change (10 * 10 * 10 * 10 * 10) with 100000.
  change (10 * 10 * 10 * 10) with 10000.
  change (10 * 10 * 10) with 1000. change (10 * 10) with 100.
  assert (y / 10 <> 0 /\ y / 100 <> 0 /\ y / 1000 <> 0 /\ y / 10000 = 0)
    as (H1 & H2 & H3 & H4) by (Z.div_mod_to_equations; lia).
  apply Z.eqb_neq in H1, H2, H3. rewrite H1, H2, H3, H4. simpl.
  do 2 f_equal. Z.div_mod_to_equations. lia.
Qed.

(** A valid DD.MM.YYYY string is parsed to the date it writes, and the
    date is formatted back to it, as long as the year comes out with four
    digits. *)
Lemma Birthday_of_valid_ddmmyyyy (s : pystr) :
  valid_ddmmyyyy s ->
  exists d m y,
    ddmmyyyy_fields s = Some (d, m, y)
    /\ Birthday s = inr (mkdate y m d)
    /\ strftime YearPadded (mkdate y m d) = s
    /\ (1000 <= y -> strftime YearPlain (mkdate y m d) = s).
Proof.
  intros (d & m & y & Hf & Hv). exists d, m, y. split; [done|].
  destruct s as [|c1 [|c2 [|p1 [|c3 [|c4 [|p2 [|c5 [|c6 [|c7 [|c8 [|]]]]]]]]]]];
    try done.
  simpl in Hf. destruct (_ && _) eqn:Hdots; [|done].
  apply andb_true_iff in Hdots as [->%N.eqb_eq ->%N.eqb_eq].
  destruct (ascii_digit c1) as [v1|] eqn:E1; [|done].
  destruct (ascii_digit c2) as [v2|] eqn:E2; [|done].
  destruct (ascii_digit c3) as [v3|] eqn:E3; [|done].
  destruct (ascii_digit c4) as [v4|] eqn:E4; [|done].
  destruct (ascii_digit c5) as [v5|] eqn:E5; [|done].
  destruct (ascii_digit c6) as [v6|] eqn:E6; [|done].
  destruct (ascii_digit c7) as [v7|] eqn:E7; [|done].
  destruct (ascii_digit c8) as [v8|] eqn:E8; [|done].
  simpl in Hf. injection Hf as <- <- <-.
  apply ascii_digit_Some in E1 as [B1 ->], E2 as [B2 ->], E3 as [B3 ->],
    E4 as [B4 ->], E5 as [B5 ->], E6 as [B6 ->], E7 as [B7 ->], E8 as [B8 ->].
  pose proof Hv as (Hy & Hm & Hd). simpl in Hy, Hm, Hd.
  assert (1 <= 10 * (Z.of_N c1 - 48) + (Z.of_N c2 - 48) <= 31) as Hd'.
  { split; [lia|]. etransitivity; [apply Hd|].
    unfold days_in_month. destruct (_ && _); [lia|].
    assert (10 * (Z.of_N c3 - 48) + (Z.of_N c4 - 48) = 1
            \/ 10 * (Z.of_N c3 - 48) + (Z.of_N c4 - 48) = 2
            \/ 10 * (Z.of_N c3 - 48) + (Z.of_N c4 - 48) = 3
            \/ 10 * (Z.of_N c3 - 48) + (Z.of_N c4 - 48) = 4
            \/ 10 * (Z.of_N c3 - 48) + (Z.of_N c4 - 48) = 5
            \/ 10 * (Z.of_N c3 - 48) + (Z.of_N c4 - 48) = 6
            \/ 10 * (Z.of_N c3 - 48) + (Z.of_N c4 - 48) = 7
            \/ 10 * (Z.of_N c3 - 48) + (Z.of_N c4 - 48) = 8
            \/ 10 * (Z.of_N c3 - 48) + (Z.of_N c4 - 48) = 9
            \/ 10 * (Z.of_N c3 - 48) + (Z.of_N c4 - 48) = 10
            \/ 10 * (Z.of_N c3 - 48) + (Z.of_N c4 - 48) = 11
            \/ 10 * (Z.of_N c3 - 48) + (Z.of_N c4 - 48) = 12) as Hcases by lia.
    repeat (destruct Hcases as [-> | Hcases]; [by vm_compute|]).
    rewrite Hcases. by vm_compute. }
  assert (head (re_date [c1; c2; 46; c3; c4; 46; c5; c6; c7; c8]%N)
          = Some ((10 * (Z.of_N c1 - 48) + (Z.of_N c2 - 48),
                   10 * (Z.of_N c3 - 48) + (Z.of_N c4 - 48),
                   1000 * (Z.of_N c5 - 48) + 100 * (Z.of_N c6 - 48)
                   + 10 * (Z.of_N c7 - 48) + (Z.of_N c8 - 48)), [])) as Hhead.
  { unfold re_date.
    eapply p_seq_head;
      [eapply p_seq_head;
         [by apply re_d_two_digits | by apply skip_lit_head, re_m_two_digits]
      | by apply skip_lit_head, re_Y_four_digits]. }
  split; [|split].
  - unfold Birthday, strptime.
    destruct (re_date _) as [|[[[d' m'] y'] rest'] tl]; [done|].
    injection Hhead as -> -> -> ->.
    pose proof (check_date_fields_valid _ Hv) as Hok. simpl in Hok.
    by rewrite Hok.
  - unfold strftime. cbn [year month day].
    by rewrite !two_digits_of, four_digits_of.
  - intros Hbig. unfold strftime. cbn [year month day].
    rewrite decimal_numeral_four_digits by (unfold MAXYEAR in Hy; lia).
    by rewrite !two_digits_of, four_digits_of.
Qed.

(** C8 (as stated): the round trip does not hold for every valid
    DD.MM.YYYY string.  Where the C library renders [%Y] as the plain
    number (glibc), the valid string 01.01.0999 is parsed to 1 January 999
    and formatted as 01.01.999. *)
Lemma plain_year_breaks_round_trip :
  ~ (forall (yf : year_format) (s : pystr), valid_ddmmyyyy s ->
       exists b, Birthday s = inr b /\ date_to_string yf b = s).
Proof.
  intros H. destruct (H YearPlain (py "01.01.0999")) as (b & Hb & Hs).
  - exists 1, 1, 999. split; [reflexivity|].
    unfold valid_date, MINYEAR, MAXYEAR. simpl. vm_compute. intuition discriminate.
  - vm_compute in Hb. injection Hb as <-. vm_compute in Hs. discriminate.
Qed.

(** C8 (amended): [Birthday("25.12.1990")] succeeds and formats back to
    25.12.1990; every valid DD.MM.YYYY calendar-date string is accepted,
    and is given back by the formatter when its year is at least 1000 (and
    for every year where [%Y] is zero-padded to four digits);
    [Birthday] fails with the validation error on 31.02.2024 and on
    1990-12-25. *)
Theorem birthday_round_trip :
  (forall yf, exists b, Birthday (py "25.12.1990") = inr b
                        /\ date_to_string yf b = py "25.12.1990")
  /\ (forall s, valid_ddmmyyyy s ->
        exists b, Birthday s = inr b
                  /\ date_to_string YearPadded b = s
                  /\ (1000 <= year b -> forall yf, date_to_string yf b = s))
  /\ Birthday (py "31.02.2024") = inl DateValidationError
  /\ Birthday (py "1990-12-25") = inl DateValidationError.
Proof.
  split_and!; try reflexivity.
  - intros yf. exists (mkdate 1990 12 25). by destruct yf.
  - intros s Hs.
    destruct (Birthday_of_valid_ddmmyyyy s Hs) as (d & m & y & _ & Hb & Hp & Hq).
    exists (mkdate y m d). split_and!; try done.
    intros Hy []; [done | by apply Hq].
Qed.

Lemma birthday_round_trip_witness :
  exists b, Birthday (py "29.02.2024") = inr b
            /\ date_to_string YearPadded b = py "29.02.2024"
            /\ date_to_string YearPlain b = py "29.02.2024".
Proof.
  destruct birthday_round_trip as (_ & H & _).
  destruct (H (py "29.02.2024")) as (b & Hb & Hp & Hq).
  - exists 29, 2, 2024. split; [reflexivity|].
    unfold valid_date, MINYEAR, MAXYEAR. simpl. vm_compute.
    intuition discriminate.
  - exists b. split; [exact Hb|]. split; [exact Hp|]. apply Hq.
    injection Hb as <-. vm_compute. discriminate.
Defined.

(** ** Names and lookup *)

Lemma lstrip_suffix (s : pystr) : lstrip s `suffix_of` s.
Proof.
  induction s as [|c s IH]; simpl; [done|].
  destruct (char_isspace c); [by apply suffix_cons_r | done].
Qed.

Lemma lstrip_head (s : pystr) (c : N) :
  head (lstrip s) = Some c -> char_isspace c = false.
Proof.
  induction s as [|a s IH]; simpl; [done|].
  destruct (char_isspace a) eqn:E; [done|]. simpl. by intros [= <-].
Qed.

Lemma lstrip_id (s : pystr) :
  (forall c, head s = Some c -> char_isspace c = false) -> lstrip s = s.
Proof.
  destruct s as [|a s]; simpl; [done|]. intros H. by rewrite (H a eq_refl).
Qed.

Lemma rstrip_prefix (s : pystr) : rstrip s `prefix_of` s.
Proof.
  unfold rstrip. rewrite <- (reverse_involutive s) at 2.
  apply suffix_prefix_reverse, lstrip_suffix.
Qed.

Lemma rstrip_last (s : pystr) (c : N) :
  last (rstrip s) = Some c -> char_isspace c = false.
Proof. unfold rstrip. rewrite last_reverse. apply lstrip_head. Qed.

Lemma rstrip_id (s : pystr) :
  (forall c, last s = Some c -> char_isspace c = false) -> rstrip s = s.
Proof.
  intros H. unfold rstrip. rewrite lstrip_id; [apply reverse_involutive|].
  intros c. rewrite head_reverse. apply H.
Qed.

Lemma strip_head (s : pystr) (c : N) :
  head (strip s) = Some c -> char_isspace c = false.
Proof.
  unfold strip. intros H. apply (lstrip_head s).
  destruct (rstrip_prefix (lstrip s)) as [k Hk]. rewrite Hk.
  apply head_Some in H as [l' ->]. done.
Qed.

Lemma strip_last (s : pystr) (c : N) :
  last (strip s) = Some c -> char_isspace c = false.
Proof. apply rstrip_last. Qed.

Lemma strip_fixed (s : pystr) :
  (forall c, head s = Some c -> char_isspace c = false) ->
  (forall c, last s = Some c -> char_isspace c = false) ->
  strip s = s.
Proof. intros Hh Hl. unfold strip. rewrite lstrip_id by done. by apply rstrip_id. Qed.

Lemma strip_idempotent (s : pystr) : strip (strip s) = strip s.
Proof. apply strip_fixed; [apply strip_head | apply strip_last]. Qed.

Lemma strip_changes (n : pystr) : has_outer_whitespace n -> strip n <> n.
Proof.
  intros [(c & Hh & Hc) | (c & Hl & Hc)] E.
  - rewrite <- E in Hh. apply strip_head in Hh. congruence.
  - rewrite <- E in Hl. apply strip_last in Hl. congruence.
Qed.

Lemma Record_init_name (n : pystr) (r : record) :
  Record_init n = inr r -> name r = strip n /\ strip n <> [].
Proof.
  unfold Record_init, Name, result_bind.
  destruct (strip n) eqn:E; [done|]. by intros [= <-].
Qed.

Section dict_facts.
Context {V : Type}.
Implicit Types (d : @dict V) (k : pystr) (v : V).

Lemma dict_find_None k d : dict_find k d = None <-> k ∉ dict_keys d.
Proof. apply (find_key_None fst). Qed.

Lemma dict_get_None k d : k ∉ dict_keys d -> dict_get k d = None.
Proof. intros H. unfold dict_get. by apply dict_find_None in H as ->. Qed.

Lemma dict_contains_false k d : k ∉ dict_keys d -> dict_contains k d = false.
Proof.
  intros H. unfold dict_contains. apply dict_find_None in H as ->.
  apply bool_decide_eq_false_2. by intros [? ?].
Qed.

Lemma dict_get_setitem k v d : dict_get k (dict_setitem k v d) = Some v.
Proof.
  unfold dict_get, dict_setitem, dict_find.
  destruct (list_find _ d) as [[i kv]|] eqn:E.
  - apply list_find_Some in E as (Hi & Hk & Hfirst).
    assert (list_find (fun kv => kv.1 = k) (<[i := (k, v)]> d)
            = Some (i, (k, v))) as ->; [|done].
    apply list_find_insert_Some. right. left.
    split_and!; try done. by eapply lookup_lt_Some.
  - rewrite list_find_app_r by done. cbn. by rewrite decide_True.
Qed.

Lemma dict_keys_setitem k v d :
  dict_keys (dict_setitem k v d)
  = if dict_contains k d then dict_keys d else dict_keys d ++ [k].
Proof.
  unfold dict_keys, dict_setitem, dict_contains, dict_find.
  destruct (list_find _ d) as [[i kv]|] eqn:E.
  - rewrite bool_decide_eq_true_2 by eauto.
    apply list_find_Some in E as (Hi & Hk & _).
    unfold dict. rewrite list_fmap_insert. apply list_insert_id.
    rewrite list_lookup_fmap, Hi. simpl. by rewrite Hk.
  - rewrite bool_decide_eq_false_2 by (by intros [? ?]).
    by rewrite fmap_app.
Qed.

Lemma dict_setitem_wf k v d : dict_wf d -> dict_wf (dict_setitem k v d).
Proof.
  unfold dict_wf. rewrite dict_keys_setitem. intros Hwf.
  destruct (dict_contains k d) eqn:E; [done|].
  apply NoDup_app. split_and!; [done| |apply NoDup_singleton].
  intros x Hx Hx'. apply list_elem_of_singleton in Hx' as ->.
  unfold dict_contains in E. apply bool_decide_eq_false in E.
  apply E. destruct (dict_find k d) eqn:F; [by eauto|].
  by apply dict_find_None in F.
Qed.

Lemma dict_delitem_wf k d : dict_wf d -> dict_wf (dict_delitem k d).
Proof.
  unfold dict_wf, dict_delitem, dict_keys. intros Hwf.
  destruct (dict_find k d) as [[i kv]|]; [|done].
  unfold dict. rewrite list_fmap_delete.
  eapply sublist_NoDup; [exact Hwf | apply sublist_delete].
Qed.
End dict_facts.

(** The keys of a book stay trimmed when a constructed record is added. *)
Lemma add_record_keys_trimmed (b : AddressBook) (n : pystr) (r : record) :
  Record_init n = inr r -> keys_trimmed b ->
  keys_trimmed ((add_record r b).2).
Proof.
  intros Hr Hb. apply Record_init_name in Hr as [Hn _].
  unfold keys_trimmed. run_method. rewrite dict_keys_setitem.
  destruct (dict_contains _ b); [done|].
  apply Forall_app. split; [done|]. constructor; [|done].
  rewrite Hn. apply strip_idempotent.
Qed.

(** C10: names are trimmed when stored but not when looked up.  For a name
    [n] that begins or ends with whitespace and for which [Record(n)]
    succeeds, after [add_record(Record(n))] on a book whose keys are
    trimmed the record is stored under [strip(n)]: [find(strip(n))]
    returns it, [find(n)] finds nothing, and [delete(n)] returns [False]
    and leaves the book as it is. *)
Theorem lookup_does_not_trim (b : AddressBook) (n : pystr) (r : record) :
  has_outer_whitespace n -> Record_init n = inr r -> keys_trimmed b ->
  name r = strip n
  /\ (add_record r b).1 = inr tt
  /\ find (strip n) ((add_record r b).2) = Some r
  /\ find n ((add_record r b).2) = None
  /\ delete_record n ((add_record r b).2) = (inr false, (add_record r b).2).
Proof.
  intros Hws Hr Hb. pose proof (strip_changes n Hws) as Hne.
  pose proof (add_record_keys_trimmed b n r Hr Hb) as Hb'.
  apply Record_init_name in Hr as [Hn _].
  assert (n ∉ dict_keys ((add_record r b).2)) as Hout.
  { intros Hin. unfold keys_trimmed in Hb'. rewrite Forall_forall in Hb'.
    by apply Hne, Hb'. }
  split_and!; [done | done | | |].
  - unfold find. run_method. rewrite <- Hn. apply dict_get_setitem.
  - unfold find. by apply dict_get_None.
  - unfold delete_record, bind, get, ret.
    by rewrite (dict_contains_false _ _ Hout).
Qed.

Lemma lookup_does_not_trim_witness :
  find (py "Ann") ((add_record (mkrecord (py "Ann") [] None) sample_book).2)
  = Some (mkrecord (py "Ann") [] None)
  /\ find (py " Ann ") ((add_record (mkrecord (py "Ann") [] None) sample_book).2)
     = None
  /\ delete_record (py " Ann ")
       ((add_record (mkrecord (py "Ann") [] None) sample_book).2)
     = (inr false, (add_record (mkrecord (py "Ann") [] None) sample_book).2).
Proof.
  destruct (lookup_does_not_trim sample_book (py " Ann ")
              (mkrecord (py "Ann") [] None))
    as (_ & _ & Hfind & Hmiss & Hdel).
  - left. exists 32%N. split; reflexivity.
  - reflexivity.
  - unfold keys_trimmed, dict_keys. decide_by_computation.
  - split; [exact Hfind|]. split; [exact Hmiss | exact Hdel].
Defined.

(** * Further properties *)

(** ** Fields and records *)

Lemma lstrip_nil_blank (s : pystr) : lstrip s = [] <-> blank s.
Proof.
  unfold blank. induction s as [|c s IH]; simpl.
  - split; [constructor | done].
  - destruct (char_isspace c) eqn:E.
    + rewrite IH, Forall_cons. tauto.
    + split; [done|]. intros H. apply Forall_cons in H as [H _]. congruence.
Qed.

Lemma strip_nil_blank (s : pystr) : strip s = [] <-> blank s.
Proof.
  rewrite <- lstrip_nil_blank. unfold strip, rstrip. split.
  - intros H. apply (f_equal reverse) in H.
    rewrite reverse_involutive, reverse_nil in H.
    apply lstrip_nil_blank in H. unfold blank in H.
    rewrite Forall_reverse in H.
    destruct (lstrip s) as [|c t] eqn:E; [done|].
    apply Forall_cons in H as [Hc _].
    assert (char_isspace c = false); [|congruence].
    apply (lstrip_head s). by rewrite E.
  - by intros ->.
Qed.

Lemma trimmed_no_outer_whitespace (s : pystr) :
  strip s = s -> ~ has_outer_whitespace s.
Proof. intros E H. by apply (strip_changes s). Qed.

(** X1: [Name(n)] fails exactly when [n] is empty or only whitespace; when
    it succeeds the stored value is [n.strip()], which is not empty, has
    no whitespace at either end, and is a name that [Name] stores as it
    is. *)
Theorem Name_normalises (n : pystr) :
  (blank n -> Name n = inl NameValidationError)
  /\ (~ blank n -> Name n = inr (strip n))
  /\ (forall v, Name n = inr v ->
        v = strip n /\ v <> [] /\ ~ has_outer_whitespace v
        /\ Name v = inr v).
Proof.
  unfold Name. split_and!.
  - intros H. by apply strip_nil_blank in H as ->.
  - intros H. destruct (strip n) eqn:E; [|done].
    by apply strip_nil_blank in E.
  - intros v. destruct (strip n) as [|c t] eqn:E; [done|]. intros [= <-].
    split_and!; [done | done | |].
    + apply trimmed_no_outer_whitespace. rewrite <- E. apply strip_idempotent.
    + rewrite <- E, strip_idempotent. by rewrite E.
Qed.

Lemma Name_normalises_witness :
  Name (py "   ") = inl NameValidationError
  /\ Name (py " Ann Lee  ") = inr (py "Ann Lee").
Proof.
  split.
  - apply (Name_normalises (py "   ")). unfold blank. decide_by_computation.
  - apply (Name_normalises (py " Ann Lee  ")). unfold blank.
    intros H. apply Forall_cons in H as [_ H]. apply Forall_cons in H as [H _].
    discriminate H.
Defined.

(** X2: [add_phone(p)] succeeds exactly when [p] is a valid phone that is
    not yet on the record, and then appends it; a [p] that is on the
    record is refused as a duplicate, before its form is looked at; any
    other [p] is refused as invalid.  A refusal leaves the record as it
    was. *)
Theorem add_phone_cases (r : record) (p : pystr) :
  (p ∈ phones r -> add_phone p r = (inl DuplicatePhoneError, r))
  /\ (p ∉ phones r -> ~ ten_digit_characters p ->
      add_phone p r = (inl PhoneValidationError, r))
  /\ (p ∉ phones r -> ten_digit_characters p ->
      add_phone p r = (inr tt, set_phones r (phones r ++ [p])))
  /\ ((exists r', add_phone p r = (inr tt, r'))
      <-> (p ∉ phones r) /\ ten_digit_characters p).
Proof.
  assert (p ∈ phones r -> add_phone p r = (inl DuplicatePhoneError, r)) as Hdup.
  { intros Hin. run_method. by destruct (find_phone_present _ _ Hin) as [i ->]. }
  assert (p ∉ phones r -> ~ ten_digit_characters p ->
          add_phone p r = (inl PhoneValidationError, r)) as Hbad.
  { intros Hout Hp. run_method. apply find_phone_None in Hout as ->.
    destruct (Phone_cases p) as [Hok|Herr]; [|by rewrite Herr].
    by apply Phone_ok_iff in Hok. }
  assert (p ∉ phones r -> ten_digit_characters p ->
          add_phone p r = (inr tt, set_phones r (phones r ++ [p]))) as Hok.
  { intros Hout Hp. run_method. apply find_phone_None in Hout as ->.
    by apply Phone_ok_iff in Hp as ->. }
  split_and!; try done. split.
  - intros [r' Hrun].
    destruct (decide (p ∈ phones r)) as [Hin|Hout].
    { rewrite (Hdup Hin) in Hrun. discriminate. }
    split; [done|].
    destruct (Phone_cases p) as [Hp|Hp]; [by apply Phone_ok_iff|].
    exfalso. revert Hrun. run_method.
    apply find_phone_None in Hout as ->. by rewrite Hp.
  - intros [Hout Hp]. eexists. by apply Hok.
Qed.

Lemma add_phone_cases_witness :
  add_phone sample_phone sample_record = (inl DuplicatePhoneError, sample_record)
  /\ add_phone (py "12345") sample_record
     = (inl PhoneValidationError, sample_record)
  /\ add_phone other_phone sample_record
     = (inr tt, set_phones sample_record [sample_phone; other_phone]).
Proof.
  assert (forall p, p <> sample_phone -> p ∉ phones sample_record) as Hout.
  { intros p Hp H. apply list_elem_of_singleton in H. done. }
  split; [|split].
  - apply (add_phone_cases sample_record sample_phone).
    apply list_elem_of_singleton. reflexivity.
  - apply (add_phone_cases sample_record (py "12345")).
    + apply Hout. discriminate.
    + intros [Hl _]. discriminate Hl.
  - apply (add_phone_cases sample_record other_phone).
    + apply Hout. discriminate.
    + apply Phone_ok_iff. reflexivity.
Defined.

Lemma method_keeps_name :
  (forall p r, name ((add_phone p r).2) = name r)
  /\ (forall p r, name ((remove_phone p r).2) = name r)
  /\ (forall old new r, name ((edit_phone old new r).2) = name r)
  /\ (forall s r, name ((add_birthday s r).2) = name r).
Proof.
  split_and!.
  - intros p r. run_method. destruct (find_phone p r); [done|].
    by destruct (Phone p).
  - intros p r. run_method. by destruct (find_phone p r) as [[i v]|].
  - intros old new r. run_method.
    destruct (find_phone old r) as [[i v]|]; [|done].
    destruct (find_phone new r); [done|]. by destruct (Phone new).
  - intros s r. run_method. by destruct (Birthday s).
Qed.


Lemma Birthday_inr_valid (s : pystr) (d : date) :
  Birthday s = inr d -> valid_date d.
Proof.
  unfold Birthday, strptime.
  destruct (re_date s) as [|[[[d' m'] y'] rest] tl]; [done|].
  destruct rest; [|done].
  destruct (check_date_fields y' m' d') as [[msg|msg]|dt] eqn:E; try done.
  intros [= <-]. by apply check_date_fields_inr in E as [_ ?].
Qed.

Lemma Birthday_inl (s : pystr) (e : exn) :
  Birthday s = inl e -> e = DateValidationError.
Proof.
  unfold Birthday, strptime.
  destruct (re_date s) as [|[[[d' m'] y'] rest] tl]; [congruence|].
  destruct rest; [|congruence].
  destruct (check_date_fields y' m' d') as [[msg|msg]|dt] eqn:E;
    try congruence.
  apply check_date_fields_inl in E as [? ?]. done.
Qed.

Lemma method_keeps_birthday :
  (forall p r, birthday ((add_phone p r).2) = birthday r)
  /\ (forall p r, birthday ((remove_phone p r).2) = birthday r)
  /\ (forall old new r, birthday ((edit_phone old new r).2) = birthday r).
Proof.
  split_and!.
  - intros p r. run_method. destruct (find_phone p r); [done|].
    by destruct (Phone p).
  - intros p r. run_method. by destruct (find_phone p r) as [[i v]|].
  - intros old new r. run_method.
    destruct (find_phone old r) as [[i v]|]; [|done].
    destruct (find_phone new r); [done|]. by destruct (Phone new).
Qed.

Lemma Record_init_ok (n : pystr) (r : record) :
  Record_init n = inr r -> record_ok r.
Proof.
  intros Hr. pose proof (Record_init_wf n r Hr) as Hwf.
  pose proof (Record_init_name n r Hr) as [Hn Hne].
  unfold Record_init, result_bind in Hr. destruct (Name n); [done|].
  injection Hr as <-. split_and!; simpl in *; [done | constructor | | |done].
  - by rewrite Hn.
  - rewrite Hn. apply strip_idempotent.
Qed.

Lemma add_phone_ok (p : pystr) (r : record) :
  record_ok r -> record_ok ((add_phone p r).2).
Proof.
  destruct method_keeps_name as (Na & _), method_keeps_birthday as (Ba & _).
  intros (Hnd & Hall & Hne & Htrim & Hbd).
  split_and!; [by apply add_phone_wf | | by rewrite Na.. | by rewrite Ba].
  run_method. destruct (find_phone p r); [done|].
  destruct (Phone p) as [e|v] eqn:Hp; [done|]. simpl.
  apply Phone_inr in Hp as Hv. subst v. apply Phone_ok_iff in Hp.
  apply Forall_app. split; [done|]. by constructor.
Qed.

Lemma remove_phone_ok (p : pystr) (r : record) :
  record_ok r -> record_ok ((remove_phone p r).2).
Proof.
  destruct method_keeps_name as (_ & Nr & _),
    method_keeps_birthday as (_ & Br & _).
  intros (Hnd & Hall & Hne & Htrim & Hbd).
  split_and!; [by apply remove_phone_wf | | by rewrite Nr.. | by rewrite Br].
  run_method. destruct (find_phone p r) as [[i v]|]; [|done]. simpl.
  by apply Forall_delete.
Qed.

Lemma edit_phone_ok (old new : pystr) (r : record) :
  record_ok r -> record_ok ((edit_phone old new r).2).
Proof.
  destruct method_keeps_name as (_ & _ & Ne & _),
    method_keeps_birthday as (_ & _ & Be).
  intros (Hnd & Hall & Hne & Htrim & Hbd).
  split_and!; [by apply edit_phone_wf | | by rewrite Ne.. | by rewrite Be].
  run_method. destruct (find_phone old r) as [[i v]|]; [|done].
  destruct (find_phone new r); [done|].
  destruct (Phone new) as [e|w] eqn:Hp; [done|]. simpl.
  apply Phone_inr in Hp as Hv. subst w. apply Phone_ok_iff in Hp.
  by apply Forall_insert.
Qed.

Lemma add_birthday_ok (s : pystr) (r : record) :
  record_ok r -> record_ok ((add_birthday s r).2).
Proof.
  intros (Hnd & Hall & Hne & Htrim & Hbd). run_method.
  destruct (Birthday s) as [e|d] eqn:Hs; [done|]. simpl.
  split_and!; try done. simpl. intros bd [= <-].
  by apply (Birthday_inr_valid s).
Qed.

(** X3: every record made by [Record(n)] is well formed, and every method
    of [Record] leaves a well-formed record well formed, whether it
    returns or raises: the phones stay valid and pairwise different, the
    name stays trimmed and not empty, the birthday is a real date. *)
Theorem record_ok_invariant :
  (forall n r, Record_init n = inr r -> record_ok r)
  /\ (forall r, record_ok r ->
        (forall p, record_ok ((add_phone p r).2))
        /\ (forall p, record_ok ((remove_phone p r).2))
        /\ (forall old new, record_ok ((edit_phone old new r).2))
        /\ (forall s, record_ok ((add_birthday s r).2))).
Proof.
  split; [apply Record_init_ok|]. intros r Hr. split_and!.
  - intros p. by apply add_phone_ok.
  - intros p. by apply remove_phone_ok.
  - intros old new. by apply edit_phone_ok.
  - intros s. by apply add_birthday_ok.
Qed.

Lemma record_ok_invariant_witness :
  record_ok (mkrecord (py "Ann") [] None)
  /\ record_ok ((add_phone sample_phone (mkrecord (py "Ann") [] None)).2).
Proof.
  destruct record_ok_invariant as [Hinit Hstep].
  assert (record_ok (mkrecord (py "Ann") [] None)) as Hok.
  { apply (Hinit (py " Ann ")). reflexivity. }
  split; [exact Hok|]. apply (Hstep _ Hok).
Defined.

(** X4: [add_birthday(s)] on a record succeeds exactly when [Birthday(s)]
    does; it then replaces whatever birthday there was and touches nothing
    else, so of two successful calls only the last one shows; a failed
    call keeps the earlier birthday.  After a successful call with a valid
    DD.MM.YYYY string of a year from 1000 on, [birthday_to_string] gives
    the string back. *)
Theorem add_birthday_overwrites (r : record) (s : pystr) :
  (forall d, Birthday s = inr d ->
     add_birthday s r = (inr true, set_birthday r (Some d)))
  /\ (forall e, Birthday s = inl e ->
        add_birthday s r = (inl DateValidationError, r))
  /\ (forall s0 d, Birthday s = inr d ->
        (add_birthday s ((add_birthday s0 r).2)).2 = set_birthday r (Some d))
  /\ (valid_ddmmyyyy s ->
      exists d, add_birthday s r = (inr true, set_birthday r (Some d))
                /\ birthday_to_string YearPadded ((add_birthday s r).2)
                   = Some s
                /\ (1000 <= year d ->
                    forall yf, birthday_to_string yf ((add_birthday s r).2)
                               = Some s)).
Proof.
  split_and!.
  - intros d Hd. run_method. by rewrite Hd.
  - intros e He. run_method. rewrite He. simpl.
    by rewrite (Birthday_inl s e He).
  - intros s0 d Hd. run_method. rewrite Hd.
    destruct (Birthday s0); reflexivity.
  - intros Hs.
    destruct (Birthday_of_valid_ddmmyyyy s Hs) as (d & m & y & _ & Hb & Hp & Hq).
    exists (mkdate y m d). run_method. rewrite Hb. simpl.
    unfold birthday_to_string, date_to_string. simpl.
    split_and!; [done | by rewrite Hp |].
    intros Hy []; [by rewrite Hp | by rewrite Hq].
Qed.

Lemma add_birthday_overwrites_witness :
  birthday_to_string YearPlain
    ((add_birthday (py "25.12.1990") (set_birthday sample_record
                                         (Some (mkdate 2000 1 1)))).2)
  = Some (py "25.12.1990").
Proof.
  destruct (add_birthday_overwrites
              (set_birthday sample_record (Some (mkdate 2000 1 1)))
              (py "25.12.1990")) as (_ & _ & _ & H).
  destruct H as (d & Hrun & _ & Hs).
  - exists 25, 12, 1990. split; [reflexivity|].
    unfold valid_date, MINYEAR, MAXYEAR. simpl. vm_compute.
    intuition discriminate.
  - apply Hs. injection Hrun as <-. vm_compute. discriminate.
Defined.

Lemma ascii_digit_digit_char (v : Z) :
  0 <= v <= 9 -> ascii_digit (digit_char v) = Some v.
Proof.
  intros Hv. unfold ascii_digit, digit_char.
  replace ((48 <=? Z.to_N (48 + v))%N && (Z.to_N (48 + v) <=? 57)%N)
    with true by (symmetry; apply andb_true_iff;
                  rewrite !N.leb_le; lia).
  f_equal. lia.
Qed.

(** The string printed for a real date has the shape DD.MM.YYYY and
    writes that date. *)
Lemma strftime_fields (d : date) :
  valid_date d ->
  ddmmyyyy_fields (strftime YearPadded d) = Some (day d, month d, year d).
Proof.
  intros (Hy & Hm & Hd). unfold MINYEAR, MAXYEAR in Hy.
  assert (day d <= 31) as Hd31.
  { etransitivity; [apply Hd|]. unfold days_in_month.
    destruct (_ && _); [lia|].
    assert (month d = 1 \/ month d = 2 \/ month d = 3 \/ month d = 4
            \/ month d = 5 \/ month d = 6 \/ month d = 7 \/ month d = 8
            \/ month d = 9 \/ month d = 10 \/ month d = 11 \/ month d = 12)
      as Hcases by lia.
    repeat (destruct Hcases as [-> | Hcases]; [by vm_compute|]).
    rewrite Hcases. by vm_compute. }
  unfold strftime, two_digits, four_digits. cbn [app ddmmyyyy_fields].
  change ((46 =? 46)%N && (46 =? 46)%N) with true. cbn match.
  rewrite !ascii_digit_digit_char by (Z.div_mod_to_equations; lia).
  simpl. do 2 f_equal; [f_equal|]; Z.div_mod_to_equations; lia.
Qed.

(** X5: formatting a birthday and parsing the result gives the same date
    back: for every real date [d], [Birthday(date_to_string(d))] succeeds
    with [d], provided the year is printed with four digits (always from
    the year 1000 on). *)
Theorem format_then_parse (yf : year_format) (d : date) :
  valid_date d -> yf = YearPadded \/ 1000 <= year d ->
  Birthday (date_to_string yf d) = inr d.
Proof.
  intros Hv Hyf.
  assert (date_to_string yf d = strftime YearPadded d) as ->.
  { unfold date_to_string. destruct Hyf as [-> | Hy]; [done|].
    destruct yf; [done|]. unfold strftime.
    rewrite decimal_numeral_four_digits; [done|].
    destruct Hv as ((_ & ?) & _). unfold MAXYEAR in *. lia. }
  pose proof (strftime_fields d Hv) as Hf.
  destruct (Birthday_of_valid_ddmmyyyy (strftime YearPadded d))
    as (d' & m' & y' & Hf' & Hb & _).
  { exists (day d), (month d), (year d). split; [done|]. by destruct d. }
  rewrite Hf in Hf'. injection Hf' as <- <- <-. rewrite Hb. by destruct d.
Qed.

Lemma format_then_parse_witness :
  Birthday (date_to_string YearPlain (mkdate 2024 2 29))
  = inr (mkdate 2024 2 29).
Proof.
  apply (format_then_parse YearPlain (mkdate 2024 2 29)).
  - unfold valid_date, MINYEAR, MAXYEAR. simpl. vm_compute.
    intuition discriminate.
  - right. simpl. lia.
Defined.

(** X6: [Birthday] yields real calendar dates only, and however the
    parsing fails the caller sees one and the same error, with the
    message of the class. *)
Theorem Birthday_outcomes (s : pystr) :
  (forall d, Birthday s = inr d -> valid_date d)
  /\ (forall e, Birthday s = inl e -> e = DateValidationError).
Proof. split; [apply Birthday_inr_valid | apply Birthday_inl]. Qed.

Lemma Birthday_outcomes_witness : valid_date (mkdate 1990 1 5).
Proof.
  destruct (Birthday_outcomes (py "5.1.1990")) as [Hv _].
  apply Hv. reflexivity.
Defined.

(** ** The book as a dictionary *)

Section dict_equations.
Context {V : Type}.
Implicit Types (d : @dict V) (k : pystr) (v : V).

Lemma dict_find_cons k k0 v0 d :
  dict_find k ((k0, v0) :: d)
  = if decide (k0 = k) then Some (0%nat, (k0, v0))
    else prod_map S id <$> dict_find k d.
Proof. unfold dict_find. cbn. by destruct (decide (k0 = k)). Qed.

Lemma dict_get_cons k k0 v0 d :
  dict_get k ((k0, v0) :: d)
  = if decide (k0 = k) then Some v0 else dict_get k d.
Proof.
  unfold dict_get. rewrite dict_find_cons.
  destruct (decide (k0 = k)); [done|]. by destruct (dict_find k d) as [[i kv]|].
Qed.

Lemma dict_setitem_cons k v k0 v0 d :
  dict_setitem k v ((k0, v0) :: d)
  = if decide (k0 = k) then (k, v) :: d else (k0, v0) :: dict_setitem k v d.
Proof.
  unfold dict_setitem. rewrite dict_find_cons.
  destruct (decide (k0 = k)); [done|].
  by destruct (dict_find k d) as [[i kv]|].
Qed.

Lemma dict_delitem_cons k k0 v0 d :
  dict_delitem k ((k0, v0) :: d)
  = if decide (k0 = k) then d else (k0, v0) :: dict_delitem k d.
Proof.
  unfold dict_delitem. rewrite dict_find_cons.
  destruct (decide (k0 = k)); [done|].
  by destruct (dict_find k d) as [[i kv]|].
Qed.

Lemma dict_get_Some_key k v d : dict_get k d = Some v -> k ∈ dict_keys d.
Proof.
  intros H. destruct (decide (k ∈ dict_keys d)) as [|Hout]; [done|].
  by rewrite (dict_get_None k d Hout) in H.
Qed.

Lemma dict_get_is_Some k d :
  k ∈ dict_keys d -> exists v, dict_get k d = Some v.
Proof.
  intros Hin. destruct (find_key_is_Some fst k d Hin) as (i & kv & Hf).
  exists kv.2. unfold dict_get, dict_find. by rewrite Hf.
Qed.

Lemma dict_get_elem_of k v d : dict_get k d = Some v -> (k, v) ∈ d.
Proof.
  induction d as [|[k0 v0] d IH]; [done|]. rewrite dict_get_cons.
  destruct (decide (k0 = k)) as [->|].
  - intros [= ->]. by left.
  - intros H. right. by apply IH.
Qed.

Lemma dict_get_setitem_ne k k' v d :
  k' <> k -> dict_get k' (dict_setitem k v d) = dict_get k' d.
Proof.
  intros Hne. induction d as [|[k0 v0] d IH].
  - change (dict_setitem k v []) with [(k, v)].
    by rewrite dict_get_cons, decide_False.
  - rewrite dict_setitem_cons. destruct (decide (k0 = k)) as [->|Hk].
    + rewrite !dict_get_cons. by rewrite !decide_False.
    + rewrite !dict_get_cons. by destruct (decide (k0 = k')).
Qed.

Lemma dict_setitem_setitem k v1 v2 d :
  dict_setitem k v2 (dict_setitem k v1 d) = dict_setitem k v2 d.
Proof.
  induction d as [|[k0 v0] d IH].
  - change (dict_setitem k v1 []) with [(k, v1)].
    by rewrite dict_setitem_cons, decide_True.
  - rewrite !dict_setitem_cons. destruct (decide (k0 = k)) as [->|Hk].
    + rewrite dict_setitem_cons. by rewrite decide_True.
    + rewrite dict_setitem_cons, decide_False by done. by rewrite IH.
Qed.

Lemma dict_setitem_id k v d : dict_get k d = Some v -> dict_setitem k v d = d.
Proof.
  induction d as [|[k0 v0] d IH]; [done|].
  rewrite dict_get_cons, dict_setitem_cons.
  destruct (decide (k0 = k)) as [->|Hk].
  - by intros [= ->].
  - intros H. by rewrite IH.
Qed.

Lemma dict_setitem_new k v d :
  k ∉ dict_keys d -> dict_setitem k v d = d ++ [(k, v)].
Proof.
  intros H. unfold dict_setitem. by apply dict_find_None in H as ->.
Qed.

Lemma dict_keys_delitem k k' d :
  k' ∈ dict_keys (dict_delitem k d) -> k' ∈ dict_keys d.
Proof.
  unfold dict_delitem, dict_keys. destruct (dict_find k d) as [[i kv]|]; [|done].
  unfold dict. rewrite list_fmap_delete. intros H.
  by eapply elem_of_sublist; [|apply sublist_delete].
Qed.

Lemma dict_get_delitem k d :
  dict_wf d -> dict_get k (dict_delitem k d) = None.
Proof.
  unfold dict_wf. induction d as [|[k0 v0] d IH]; [done|].
  unfold dict_keys. rewrite fmap_cons, NoDup_cons. intros [Hk0 Hnd].
  rewrite dict_delitem_cons. destruct (decide (k0 = k)) as [<-|Hk].
  - by apply dict_get_None.
  - rewrite dict_get_cons, decide_False by done. by apply IH.
Qed.

Lemma dict_get_delitem_ne k k' d :
  k' <> k -> dict_get k' (dict_delitem k d) = dict_get k' d.
Proof.
  intros Hne. induction d as [|[k0 v0] d IH]; [done|].
  rewrite dict_delitem_cons. destruct (decide (k0 = k)) as [->|Hk].
  - by rewrite dict_get_cons, decide_False.
  - rewrite !dict_get_cons. by destruct (decide (k0 = k')).
Qed.

Lemma dict_delitem_setitem_new k v d :
  k ∉ dict_keys d -> dict_delitem k (dict_setitem k v d) = d.
Proof.
  induction d as [|[k0 v0] d IH].
  - intros _. change (dict_setitem k v []) with [(k, v)].
    by rewrite dict_delitem_cons, decide_True.
  - unfold dict_keys. rewrite fmap_cons, not_elem_of_cons. intros [Hk Hd].
    rewrite dict_setitem_cons, decide_False by done.
    rewrite dict_delitem_cons, decide_False by done. by rewrite IH.
Qed.

Lemma dict_contains_true k d : k ∈ dict_keys d -> dict_contains k d = true.
Proof.
  intros Hin. destruct (find_key_is_Some fst k d Hin) as (i & kv & Hf).
  unfold dict_contains, dict_find. rewrite Hf.
  apply bool_decide_eq_true_2. by eauto.
Qed.
End dict_equations.

Lemma delete_record_run (n : pystr) (b : AddressBook) :
  (delete_record n b).2 = dict_delitem n b.
Proof.
  run_method. unfold dict_delitem, dict_contains.
  destruct (dict_find n b) as [[i kv]|] eqn:E.
  - by rewrite bool_decide_eq_true_2 by eauto.
  - by rewrite bool_decide_eq_false_2 by (by intros [? ?]).
Qed.

(** X7: [add_record] is an upsert.  It never raises; afterwards [find]
    returns the record under its name and answers as before for every
    other name; a name already in the book keeps its place and the order
    of the keys, a new name goes to the end; of two records added under
    one name only the second is left; and the keys stay unique. *)
Theorem add_record_upsert (b : AddressBook) (r : record) :
  (add_record r b).1 = inr tt
  /\ find (name r) ((add_record r b).2) = Some r
  /\ (forall k, k <> name r -> find k ((add_record r b).2) = find k b)
  /\ (name r ∈ dict_keys b -> dict_keys ((add_record r b).2) = dict_keys b)
  /\ (name r ∉ dict_keys b -> (add_record r b).2 = b ++ [(name r, r)])
  /\ (forall r2, name r2 = name r ->
        (add_record r2 ((add_record r b).2)).2 = (add_record r2 b).2)
  /\ (dict_wf b -> dict_wf ((add_record r b).2)).
Proof.
  unfold find. run_method. split_and!.
  - done.
  - apply dict_get_setitem.
  - intros k Hk. by apply dict_get_setitem_ne.
  - intros Hin. rewrite dict_keys_setitem. by rewrite dict_contains_true.
  - apply dict_setitem_new.
  - intros r2 ->. apply dict_setitem_setitem.
  - apply dict_setitem_wf.
Qed.

Lemma add_record_upsert_witness :
  find (py "Bob") ((add_record (mkrecord (py "Ann") [] None) sample_book).2)
  = Some bob_record
  /\ dict_keys ((add_record (mkrecord (py "Ann") [] None) sample_book).2)
     = [py "Ann"; py "Bob"].
Proof.
  destruct (add_record_upsert sample_book (mkrecord (py "Ann") [] None))
    as (_ & _ & Hother & Hkeys & _).
  split.
  - rewrite (Hother (py "Bob")); [reflexivity | discriminate].
  - rewrite Hkeys; [reflexivity|]. unfold dict_keys. decide_by_computation.
Defined.

(** X8: on a book with unique keys, after [delete(n)] the name [n] is not
    found any more, every other name is found as before, and the keys are
    still unique; deleting a name right after adding a record under it,
    when it was new, gives the old book back. *)
Theorem delete_then_find (b : AddressBook) (n : pystr) :
  dict_wf b ->
  find n ((delete_record n b).2) = None
  /\ (forall k, k <> n -> find k ((delete_record n b).2) = find k b)
  /\ dict_wf ((delete_record n b).2)
  /\ (forall r, name r = n -> n ∉ dict_keys b ->
        delete_record n ((add_record r b).2) = (inr true, b)).
Proof.
  intros Hwf. unfold find. rewrite delete_record_run. split_and!.
  - by apply dict_get_delitem.
  - intros k Hk. by apply dict_get_delitem_ne.
  - by apply dict_delitem_wf.
  - intros r <- Hnew. run_method.
    rewrite dict_contains_true, dict_delitem_setitem_new; [done | done |].
    apply (dict_get_Some_key _ r), dict_get_setitem.
Qed.

Lemma delete_then_find_witness :
  find (py "Ann") ((delete_record (py "Ann") sample_book).2) = None
  /\ find (py "Bob") ((delete_record (py "Ann") sample_book).2)
     = Some bob_record.
Proof.
  destruct (delete_then_find sample_book (py "Ann")) as (Hgone & Hother & _).
  - unfold dict_wf, dict_keys. decide_by_computation.
  - split; [exact Hgone|]. rewrite (Hother (py "Bob")); [reflexivity|].
    discriminate.
Defined.

Lemma book_ok_setitem (b : AddressBook) (k : pystr) (r : record) :
  book_ok b -> record_ok r -> k = name r -> book_ok (dict_setitem k r b).
Proof.
  intros [Hwf Hall] Hr Hk. split; [by apply dict_setitem_wf|].
  unfold dict_setitem. destruct (dict_find k b) as [[i kv]|].
  - by apply Forall_insert.
  - apply Forall_app. split; [done|]. by constructor.
Qed.

Lemma book_ok_delitem (b : AddressBook) (k : pystr) :
  book_ok b -> book_ok (dict_delitem k b).
Proof.
  intros [Hwf Hall]. split; [by apply dict_delitem_wf|].
  unfold dict_delitem. destruct (dict_find k b) as [[i kv]|]; [|done].
  by apply Forall_delete.
Qed.

Lemma book_ok_find (b : AddressBook) (n : pystr) (r : record) :
  book_ok b -> find n b = Some r -> n = name r /\ record_ok r.
Proof.
  intros [_ Hall] Hf. apply dict_get_elem_of in Hf.
  rewrite Forall_forall in Hall. by apply (Hall (n, r)).
Qed.

(** X9: the empty book is well formed, and [add_record] (of a well-formed
    record) and [delete] keep a book well formed: keys unique, every
    record stored under its own name, every record well formed.  In a
    well-formed book the name asked for is the name of the record
    found. *)
Theorem book_ok_invariant :
  book_ok []
  /\ (forall b r, book_ok b -> record_ok r -> book_ok ((add_record r b).2))
  /\ (forall b n, book_ok b -> book_ok ((delete_record n b).2))
  /\ (forall b n r, book_ok b -> find n b = Some r ->
        name r = n /\ record_ok r).
Proof.
  split_and!.
  - split; [apply NoDup_nil_2 | constructor].
  - intros b r Hb Hr. run_method. by apply book_ok_setitem.
  - intros b n Hb. rewrite delete_record_run. by apply book_ok_delitem.
  - intros b n r Hb Hf. by destruct (book_ok_find b n r Hb Hf) as [-> ?].
Qed.

Lemma book_ok_invariant_witness :
  book_ok ((add_record (mkrecord (py "Ann") [] None) []).2).
Proof.
  destruct book_ok_invariant as (Hempty & Hadd & _).
  apply (Hadd [] (mkrecord (py "Ann") [] None) Hempty).
  split; [apply NoDup_nil_2|]. split; [constructor|].
  split; [discriminate|]. split; [reflexivity | discriminate].
Defined.

(** ** The upcoming-birthday query: further properties *)

(** A date that is not 29 February exists in every year. *)
Lemma replace_year_ok (bd : date) (y : Z) :
  valid_date bd -> ~ (month bd = 2 /\ day bd = 29) ->
  MINYEAR <= y <= MAXYEAR ->
  date_replace_year bd y = inr (mkdate y (month bd) (day bd)).
Proof.
  destruct bd as [yb mb db]. intros (_ & Hm & Hd) Hleap Hy.
  unfold date_replace_year. simpl in *.
  apply (check_date_fields_valid (mkdate y mb db)).
  split; [done|]. split; [done|]. simpl.
  unfold days_in_month in *. month_cases mb Hc.
  destruct (is_leap yb), (is_leap y);
    each_month Hc ltac:(eval_tables; simpl in *; lia).
Qed.

Lemma birthday_this_year_ok (today bd : date) :
  valid_date today -> year today < MAXYEAR ->
  valid_date bd -> ~ (month bd = 2 /\ day bd = 29) ->
  exists bty, birthday_this_year today bd = inr bty.
Proof.
  intros (Hy & _) Hmax Hbd Hleap. unfold birthday_this_year.
  rewrite (replace_year_ok bd (year today)) by done. simpl.
  destruct (date_ltb _ today); [|by eauto].
  rewrite (replace_year_ok _ (year today + 1)); [by eauto | | done |].
  - apply (check_date_fields_inr (year today) (month bd) (day bd)).
    by apply (replace_year_ok bd (year today)).
  - unfold MINYEAR, MAXYEAR in *. lia.
Qed.

(** X10: the query returns a list whenever no birthday of the book is a
    29 February and the current year is not the last one that a date can
    have. *)
Theorem query_returns_without_leap_days (yf : year_format) (today : date)
    (b : AddressBook) :
  valid_date today -> year today < MAXYEAR ->
  Forall (fun c => forall bd, birthday c = Some bd ->
            valid_date bd /\ ~ (month bd = 2 /\ day bd = 29))
    (dict_values b) ->
  exists out, get_upcoming_birthdays yf today b = inr out.
Proof.
  intros Htoday Hmax Hall. apply upcoming_loop_total.
  eapply Forall_impl; [exact Hall|]. intros c Hc bd Hb.
  destruct (Hc bd Hb) as [Hv Hleap]. by apply birthday_this_year_ok.
Qed.

Lemma query_returns_without_leap_days_witness :
  exists out, get_upcoming_birthdays YearPlain (mkdate 2023 12 30) scenario_book
              = inr out.
Proof.
  apply (query_returns_without_leap_days YearPlain (mkdate 2023 12 30)
           scenario_book).
  - vm_compute. repeat split; discriminate.
  - reflexivity.
  - unfold dict_values. simpl.
    repeat (constructor;
            [intros bd [= <-]; vm_compute;
             split; [repeat split; discriminate | intros [? ?]; discriminate]|]).
    constructor.
Defined.

(** X11: the birthday moved to its year, as the query computes it, is the
    next occurrence of the birthday: it has the month and the day of the
    birthday, it is not before [today], it lies in the year of [today]
    unless the birthday of that year has passed, in which case it lies in
    the next year; so it is 0 to 365 days away, and the number of days the
    loop compares with 0 is never negative. *)
Theorem birthday_this_year_next_occurrence (today bd bty : date) :
  valid_date today ->
  birthday_this_year today bd = inr bty ->
  valid_date bty /\ month bty = month bd /\ day bty = day bd
  /\ date_ltb bty today = false
  /\ ((year bty = year today
       /\ date_ltb (mkdate (year today) (month bd) (day bd)) today = false)
      \/ (year bty = year today + 1
          /\ date_ltb (mkdate (year today) (month bd) (day bd)) today = true))
  /\ 0 <= date_diff_days bty today <= 365.
Proof.
  intros Htoday Hrun.
  pose proof (birthday_this_year_inr _ _ _ Hrun) as Hv.
  pose proof (birthday_this_year_days _ _ _ Htoday Hrun) as Hdays.
  unfold birthday_this_year, result_bind, date_replace_year in Hrun.
  destruct (check_date_fields (year today) _ _) as [e|d1] eqn:E1; [done|].
  apply check_date_fields_inr in E1 as [-> Hv1]. simpl in Hrun.
  destruct (date_ltb _ today) eqn:Hlt.
  - apply check_date_fields_inr in Hrun as [-> _].
    assert (date_ltb (mkdate (year today + 1) (month bd) (day bd)) today
            = false) as Hnot.
    { unfold date_ltb. simpl.
      replace (year today + 1 <? year today) with false
        by (symmetry; apply Z.ltb_ge; lia).
      replace (year today + 1 =? year today) with false
        by (symmetry; apply Z.eqb_neq; lia).
      done. }
    do 4 (split; [done|]). split; [by right | done].
  - injection Hrun as <-. do 4 (split; [done|]). split; [by left | done].
Qed.

Lemma birthday_this_year_next_occurrence_witness :
  date_ltb (mkdate 2025 5 10) (mkdate 2024 5 20) = false
  /\ 0 <= date_diff_days (mkdate 2025 5 10) (mkdate 2024 5 20) <= 365.
Proof.
  destruct (birthday_this_year_next_occurrence (mkdate 2024 5 20)
              (mkdate 1990 5 10) (mkdate 2025 5 10))
    as (_ & _ & _ & Hnot & _ & Hdays).
  - vm_compute. repeat split; discriminate.
  - reflexivity.
  - split; [exact Hnot | exact Hdays].
Defined.

Lemma report_line_sound (yf : year_format) (today : date) (contact : record)
    (item : upcoming) :
  item ∈ report_line yf today contact -> reported_for yf today item contact.
Proof.
  unfold report_line, in_window, reported_for.
  destruct (birthday contact) as [bd|]; [|by intros ?%elem_of_nil].
  destruct (birthday_this_year today bd) as [e|bty] eqn:E;
    [by intros ?%elem_of_nil|].
  destruct (_ && _) eqn:Hwin; [|by intros ?%elem_of_nil].
  apply andb_true_iff in Hwin as [H0 H7].
  apply Z.leb_le in H0. apply Z.leb_le in H7.
  pose proof (birthday_this_year_inr _ _ _ E) as Hv.
  destruct (weekend_shift_valid bty Hv) as (c & Hc & Hord & Hmon & Hsame).
  pose proof (weekend_shift_valid_date bty c Hv Hc) as Hvc.
  rewrite Hc. intros ->%list_elem_of_singleton. split; [done|].
  exists bd, bty, c. simpl. do 6 (split; [done|]). split; [done|].
  assert (0 <= weekday bty < 7) as Hwd
    by (unfold weekday; apply Z.mod_pos_bound; lia).
  unfold date_diff_days in *. unfold weekend_offset in Hord.
  destruct (Z.eqb_spec (weekday bty) 5) as [H5|H5];
    [|destruct (Z.eqb_spec (weekday bty) 6) as [H6|H6]].
  - rewrite Hmon by (by left). lia.
  - rewrite Hmon by (by right). lia.
  - rewrite (Hsame H5 H6). lia.
Qed.

Lemma report_line_length (yf : year_format) (today : date) (contact : record) :
  (length (report_line yf today contact) <= 1)%nat.
Proof.
  unfold report_line. destruct (birthday contact) as [bd|]; [|simpl; lia].
  destruct (birthday_this_year today bd) as [e|bty]; [simpl; lia|].
  destruct (in_window today contact); [|simpl; lia].
  destruct (weekend_shift bty); simpl; lia.
Qed.

Lemma flat_map_report_length (yf : year_format) (today : date)
    (cs : list record) :
  (length (flat_map (report_line yf today) cs) <= length cs)%nat.
Proof.
  induction cs as [|c cs IH]; [done|]. simpl. rewrite length_app.
  pose proof (report_line_length yf today c). lia.
Qed.

(** The items reported for a list of records belong, one to one and in
    order, to some of the records. *)
Lemma report_lines_owned (yf : year_format) (today : date)
    (cs : list record) :
  exists owners,
    owners `sublist_of` cs
    /\ Forall2 (reported_for yf today)
         (flat_map (report_line yf today) cs) owners.
Proof.
  induction cs as [|c cs (owners & Hsub & Hall)].
  - exists []. split; [apply sublist_nil | constructor].
  - simpl. pose proof (report_line_length yf today c) as Hlen.
    pose proof (report_line_sound yf today c) as Hsound.
    destruct (report_line yf today c) as [|item [|item2 rest]].
    + exists owners. split; [by apply sublist_cons | done].
    + exists (c :: owners). split; [by apply sublist_skip|].
      constructor; [|done]. apply Hsound. by left.
    + simpl in Hlen. lia.
Qed.



(** ** Reading a command line *)

Lemma split_from_clean (tok s : pystr) :
  Forall (fun c => char_isspace c = false) tok ->
  Forall clean_token (split_from tok s).
Proof.
  revert tok. induction s as [|c s IH]; intros tok Htok; simpl.
  - destruct tok as [|a tok]; [constructor|].
    constructor; [|constructor]. by split.
  - destruct (char_isspace c) eqn:E.
    + destruct tok as [|a tok]; [by apply IH|].
      constructor; [by split | by apply IH].
    + apply IH. apply Forall_app. split; [done|]. by constructor.
Qed.

Lemma split_from_concat (tok : pystr) (s : list N) :
  concat (split_from tok s)
  = tok ++ filter (fun c => char_isspace c = false) s.
Proof.
  revert tok. induction s as [|c s IH]; intros tok.
  - destruct tok; simpl; by rewrite ?app_nil_r.
  - rewrite filter_cons. simpl. destruct (char_isspace c) eqn:E.
    + rewrite decide_False by done.
      destruct tok as [|a tok]; [apply IH|].
      simpl. by rewrite IH.
    + rewrite decide_True by done. rewrite IH. by rewrite <- app_assoc.
Qed.

Lemma split_from_nil (tok s : pystr) :
  split_from tok s = [] <-> tok = [] /\ blank s.
Proof.
  unfold blank. revert tok. induction s as [|c s IH]; intros tok; simpl.
  - destruct tok as [|a tok].
    + split; [|done]. intros _. split; [done | constructor].
    + split; [done | by intros [? _]].
  - rewrite Forall_cons. destruct (char_isspace c) eqn:E.
    + destruct tok as [|a tok].
      * rewrite IH. tauto.
      * split; [done | by intros [? _]].
    + rewrite IH. split.
      * intros [H _]. by destruct tok.
      * intros [_ [? _]]. congruence.
Qed.

(** Reading the characters of a token extends the run being read. *)
Lemma split_from_token (tok t rest : pystr) :
  Forall (fun c => char_isspace c = false) t ->
  split_from tok (t ++ rest) = split_from (tok ++ t) rest.
Proof.
  revert tok. induction t as [|c t IH]; intros tok Ht; simpl.
  - by rewrite app_nil_r.
  - apply Forall_cons in Ht as [Hc Ht]. rewrite Hc, IH by done.
    by rewrite <- app_assoc.
Qed.

(** Whitespace before any token is skipped. *)
Lemma split_from_blank_lead (w rest : pystr) :
  blank w -> split_from [] (w ++ rest) = split_from [] rest.
Proof.
  unfold blank. induction w as [|c w IH]; [done|].
  intros [Hc Hw]%Forall_cons. simpl. rewrite Hc. by apply IH.
Qed.

(** Whitespace after a token ends it. *)
Lemma split_from_blank (tok w rest : pystr) :
  tok <> [] -> w <> [] -> blank w ->
  split_from tok (w ++ rest) = tok :: split_from [] rest.
Proof.
  intros Htok Hne Hw. destruct w as [|c w]; [done|].
  apply Forall_cons in Hw as [Hc Hw]. simpl. rewrite Hc.
  destruct tok as [|a tok]; [done|]. f_equal. by apply split_from_blank_lead.
Qed.

Lemma split_from_end (tok w : pystr) :
  tok <> [] -> blank w -> split_from tok w = [tok].
Proof.
  intros Htok Hw. destruct w as [|c w].
  - by destruct tok.
  - rewrite <- (app_nil_r (c :: w)).
    rewrite split_from_blank by done. done.
Qed.

Lemma split_join (sep r : pystr) (ts : list pystr) :
  blank sep -> sep <> [] -> blank r -> Forall clean_token ts ->
  split_from [] (join sep ts ++ r) = ts.
Proof.
  intros Hsep Hne Hr. induction ts as [|t ts IH]; intros Hts.
  - simpl. rewrite <- (app_nil_r r). by rewrite split_from_blank_lead.
  - apply Forall_cons in Hts as [[Ht Hclean] Hts].
    destruct ts as [|t2 ts].
    + simpl. rewrite split_from_token by done. by apply split_from_end.
    + change (join sep (t :: t2 :: ts))
        with (t ++ sep ++ join sep (t2 :: ts)).
      rewrite <- !app_assoc, split_from_token by done. simpl.
      rewrite split_from_blank by done. f_equal. by apply IH.
Qed.

Lemma clean_token_strip (t : pystr) : clean_token t -> strip t = t.
Proof.
  intros [_ Ht]. rewrite Forall_forall in Ht. apply strip_fixed.
  - intros c Hc. apply Ht. destruct t; simplify_eq/=. by left.
  - intros c Hc. apply Ht. by apply last_Some_elem_of.
Qed.

Lemma clean_token_Name (t : pystr) : clean_token t -> Name t = inr t.
Proof.
  intros Ht. unfold Name. rewrite (clean_token_strip t Ht).
  destruct Ht as [Hne _]. by destruct t.
Qed.

(** X13: [str.split()] as the command reader uses it.  Every token is a
    non-empty string without whitespace; the tokens put together are the
    line with its whitespace removed; and there is no token exactly when
    the line is empty or only whitespace. *)
Theorem split_tokens (s : pystr) :
  Forall clean_token (split s)
  /\ concat (split s) = filter (fun c => char_isspace c = false) s
  /\ (split s = [] <-> blank s).
Proof.
  unfold split. split_and!.
  - apply split_from_clean. constructor.
  - exact (split_from_concat [] s).
  - rewrite split_from_nil. tauto.
Qed.

Lemma split_tokens_witness :
  split (py "   ") = []
  /\ Forall clean_token (split (py " add  Ann 1234567890 ")).
Proof.
  destruct (split_tokens (py "   ")) as (_ & _ & Hnone).
  destruct (split_tokens (py " add  Ann 1234567890 ")) as (Hclean & _).
  split; [|exact Hclean]. apply Hnone. unfold blank. decide_by_computation.
Defined.

(** X14: splitting undoes joining.  Tokens joined by any non-empty run of
    whitespace, with any whitespace before and after, are split into the
    same tokens. *)
Theorem split_join_round_trip (l sep r : pystr) (ts : list pystr) :
  blank l -> blank sep -> sep <> [] -> blank r ->
  Forall clean_token ts ->
  split (l ++ join sep ts ++ r) = ts.
Proof.
  intros Hl Hsep Hne Hr Hts. unfold split.
  rewrite split_from_blank_lead by done. by apply split_join.
Qed.

Lemma split_join_round_trip_witness :
  split (py "  " ++ join (py " ") [py "add"; py "Ann"; py "1234567890"]
         ++ py " ")
  = [py "add"; py "Ann"; py "1234567890"].
Proof.
  apply (split_join_round_trip (py "  ") (py " ") (py " ")).
  - unfold blank. decide_by_computation.
  - unfold blank. decide_by_computation.
  - discriminate.
  - unfold blank. decide_by_computation.
  - unfold clean_token. decide_by_computation.
Defined.

(** X15: [parse_input] raises exactly on a line that is empty or only
    whitespace.  On any other line it returns the first token in lower
    case and the remaining tokens; trimming the first token changes
    nothing, and every argument is a name that [Name] accepts and stores
    as it is, so no argument read from a line is an empty name. *)
Theorem parse_input_outcomes (lower : pystr -> pystr) (s : pystr) :
  (blank s -> exists msg, parse_input lower s = inl (ValueError msg))
  /\ (~ blank s ->
      exists cmd args,
        split s = cmd :: args
        /\ parse_input lower s = inr (lower cmd, args)
        /\ strip cmd = cmd
        /\ Forall clean_token args
        /\ Forall (fun a => Name a = inr a) args).
Proof.
  unfold parse_input. pose proof (split_from_clean [] s) as Hclean.
  pose proof (split_from_nil [] s) as Hnil. fold (split s) in Hclean, Hnil.
  split.
  - intros Hs. replace (split s) with (@nil pystr); [by eauto|].
    symmetry. by apply Hnil.
  - intros Hs. destruct (split s) as [|cmd args].
    + exfalso. apply Hs. by apply Hnil.
    + specialize (Hclean ltac:(constructor)).
      apply Forall_cons in Hclean as [Hcmd Hargs].
      exists cmd, args. rewrite (clean_token_strip cmd Hcmd).
      split_and!; try done.
      eapply Forall_impl; [exact Hargs|]. apply clean_token_Name.
Qed.

Lemma parse_input_outcomes_witness :
  (exists msg, parse_input ascii_lower (py "   ") = inl (ValueError msg))
  /\ parse_input ascii_lower (py "ADD Ann  1234567890")
     = inr (py "add", [py "Ann"; py "1234567890"]).
Proof.
  split.
  - apply (parse_input_outcomes ascii_lower (py "   ")).
    unfold blank. decide_by_computation.
  - destruct (parse_input_outcomes ascii_lower (py "ADD Ann  1234567890"))
      as (_ & Hrun).
    destruct Hrun as (cmd & args & Hsplit & Hrun & _).
    + unfold blank. decide_by_computation.
    + injection Hsplit as <- <-. exact Hrun.
Defined.

(** ** The commands *)

Lemma add_phone_dup (p : pystr) (r : record) :
  p ∈ phones r -> add_phone p r = (inl DuplicatePhoneError, r).
Proof.
  intros Hin. run_method. by destruct (find_phone_present _ _ Hin) as [i ->].
Qed.

Lemma add_phone_new (p : pystr) (r : record) :
  p ∉ phones r -> ten_digit_characters p ->
  add_phone p r = (inr tt, set_phones r (phones r ++ [p])).
Proof.
  intros Hout Hp. run_method. apply find_phone_None in Hout as ->.
  by apply Phone_ok_iff in Hp as ->.
Qed.

Lemma Phone_bad (p : pystr) :
  ~ ten_digit_characters p -> Phone p = inl PhoneValidationError.
Proof.
  intros Hp. destruct (Phone_cases p) as [Hok|Herr]; [|done].
  by apply Phone_ok_iff in Hok.
Qed.

Lemma Name_blank (n : pystr) : blank n -> Name n = inl NameValidationError.
Proof. intros H. unfold Name. by apply strip_nil_blank in H as ->. Qed.

Lemma Name_not_blank (n : pystr) : ~ blank n -> Name n = inr (strip n).
Proof.
  intros H. unfold Name. destruct (strip n) eqn:E; [|done].
  by apply strip_nil_blank in E.
Qed.

Ltac run_command :=
  unfold add_contact, change_contact, show_phone, show_all,
    add_birthday_command, show_birthday, birthdays, input_error,
    add_contact_body, change_contact_body, show_phone_body, show_all_body,
    add_birthday_command_body, show_birthday_body, birthdays_body,
    on_entry, Record_init, result_bind, add_record, bind, get, put, raise,
    eval, ret;
  cbn beta iota.

(** X16: what [add_contact] does, case by case.  The phone is validated
    before anything is looked up or created.  For a name that [find]
    does not know, a new record is stored under the trimmed name with the
    phone as its only one; for a known name the phone is appended to the
    record, unless it is already there.  In every case that answers with
    an error the book is left as it was. *)
Theorem add_contact_outcomes (args : list pystr) (book : AddressBook) :
  ((length args < 2)%nat ->
   add_contact args book
   = (py "Error: Enter contact name and phone number with 10 digits", book))
  /\ (forall n phone rest, args = n :: phone :: rest ->
        (~ ten_digit_characters phone ->
         add_contact args book = (py "Error: " ++ py msg_bad_phone, book))
        /\ (ten_digit_characters phone -> find n book = None -> blank n ->
            add_contact args book = (py "Error: " ++ py msg_empty_name, book))
        /\ (ten_digit_characters phone -> find n book = None -> ~ blank n ->
            add_contact args book
            = (py "Contact added.",
               dict_setitem (strip n) (mkrecord (strip n) [phone] None) book))
        /\ (forall r, ten_digit_characters phone -> find n book = Some r ->
              phone ∈ phones r ->
              add_contact args book = (py "Error: " ++ py msg_duplicate, book))
        /\ (forall r, ten_digit_characters phone -> find n book = Some r ->
              phone ∉ phones r ->
              add_contact args book
              = (py "Contact updated.",
                 dict_setitem n (set_phones r (phones r ++ [phone])) book))).
Proof.
  split.
  { intros Hlen. by destruct args as [|n [|phone rest]]; [..|simpl in Hlen; lia]. }
  intros n phone rest ->. split_and!.
  - intros Hp. run_command. by rewrite (Phone_bad phone Hp).
  - intros Hp Hfind Hn. run_command. apply Phone_ok_iff in Hp as ->.
    rewrite Hfind. by rewrite (Name_blank n Hn).
  - intros Hp Hfind Hn. run_command. apply Phone_ok_iff in Hp as Hphone.
    rewrite Hphone, Hfind, (Name_not_blank n Hn). cbn [name].
    rewrite add_phone_new by (done || apply not_elem_of_nil).
    by rewrite dict_setitem_setitem.
  - intros r Hp Hfind Hin. run_command. apply Phone_ok_iff in Hp as ->.
    rewrite Hfind, (add_phone_dup phone r Hin).
    by rewrite (dict_setitem_id n r book Hfind).
  - intros r Hp Hfind Hout. run_command. apply Phone_ok_iff in Hp as Hphone.
    by rewrite Hphone, Hfind, (add_phone_new phone r Hout Hp).
Qed.

Lemma add_contact_outcomes_witness :
  add_contact [py "Ann"; py "12345"] sample_book
  = (py "Error: " ++ py msg_bad_phone, sample_book)
  /\ add_contact [py "Ann"; sample_phone] sample_book
     = (py "Error: " ++ py msg_duplicate, sample_book)
  /\ add_contact [py "Cid"; sample_phone] sample_book
     = (py "Contact added.",
        sample_book ++ [(py "Cid", mkrecord (py "Cid") [sample_phone] None)]).
Proof.
  split; [|split].
  - destruct (add_contact_outcomes [py "Ann"; py "12345"] sample_book)
      as (_ & H).
    destruct (H _ _ _ eq_refl) as (Hbad & _). apply Hbad.
    intros [Hl _]. discriminate Hl.
  - destruct (add_contact_outcomes [py "Ann"; sample_phone] sample_book)
      as (_ & H).
    destruct (H _ _ _ eq_refl) as (_ & _ & _ & Hdup & _).
    apply (Hdup sample_record).
    + apply Phone_ok_iff. reflexivity.
    + reflexivity.
    + apply list_elem_of_singleton. reflexivity.
  - destruct (add_contact_outcomes [py "Cid"; sample_phone] sample_book)
      as (_ & H).
    destruct (H _ _ _ eq_refl) as (_ & _ & Hnew & _).
    rewrite Hnew; [reflexivity | | reflexivity |].
    + apply Phone_ok_iff. reflexivity.
    + unfold blank. intros Hb. apply Forall_cons in Hb as [Hb _].
      discriminate Hb.
Defined.

Lemma edit_phone_run (old new : pystr) (r : record) :
  edit_phone old new r
  = match find_phone old r with
    | None => (inl NotFoundError, r)
    | Some (i, _) =>
        match find_phone new r with
        | Some _ => (inl DuplicatePhoneError, r)
        | None =>
            match Phone new with
            | inl e => (inl e, r)
            | inr v => (inr true, set_phones r (<[i := v]> (phones r)))
            end
        end
    end.
Proof.
  run_method. destruct (find_phone old r) as [[i v]|]; [|done].
  destruct (find_phone new r); [done|]. by destruct (Phone new).
Qed.

(** X17: what [change_contact] does, case by case.  It answers with an
    error and leaves the book as it was when the contact is not found,
    when the old phone is not on the record, when the new phone is already
    on it (also when it is the old one), and when the new phone is not
    valid, in this order of precedence.  Otherwise the new phone takes the
    place of the old one on the record, and nothing else changes. *)
Theorem change_contact_outcomes (args : list pystr) (book : AddressBook) :
  ((length args < 3)%nat ->
   change_contact args book
   = (py "Error: Enter contact name, old phone number and new phone number with 10 digits",
      book))
  /\ (forall n old new rest, args = n :: old :: new :: rest ->
        (find n book = None ->
         change_contact args book
         = (py "Error: Contact does not exist. Try again.", book))
        /\ (forall r, find n book = Some r ->
              (old ∉ phones r ->
               change_contact args book
               = (py "Error: " ++ py msg_not_found, book))
              /\ (old ∈ phones r -> new ∈ phones r ->
                  change_contact args book
                  = (py "Error: " ++ py msg_duplicate, book))
              /\ (old ∈ phones r -> new ∉ phones r ->
                  ~ ten_digit_characters new ->
                  change_contact args book
                  = (py "Error: " ++ py msg_bad_phone, book))
              /\ (old ∈ phones r -> new ∉ phones r ->
                  ten_digit_characters new ->
                  exists i,
                    phones r !! i = Some old
                    /\ (forall j, (j < i)%nat -> phones r !! j <> Some old)
                    /\ change_contact args book
                       = (py "Phone updated.",
                          dict_setitem n
                            (set_phones r (<[i := new]> (phones r))) book)))).
Proof.
  split.
  { intros Hlen.
    by destruct args as [|n [|old [|new rest]]]; [..|simpl in Hlen; lia]. }
  intros n old new rest ->. split.
  { intros Hfind. run_command. by rewrite Hfind. }
  intros r Hfind.
  assert (dict_setitem n r book = book) as Hsame by by apply dict_setitem_id.
  split_and!.
  - intros Hold. run_command. rewrite Hfind, edit_phone_run.
    apply find_phone_None in Hold as ->. by rewrite Hsame.
  - intros Hold Hnew. run_command. rewrite Hfind, edit_phone_run.
    destruct (find_phone_present _ _ Hold) as [i ->].
    destruct (find_phone_present _ _ Hnew) as [j ->]. by rewrite Hsame.
  - intros Hold Hnew Hbad. run_command. rewrite Hfind, edit_phone_run.
    destruct (find_phone_present _ _ Hold) as [i ->].
    apply find_phone_None in Hnew as ->.
    rewrite (Phone_bad new Hbad). by rewrite Hsame.
  - intros Hold Hnew Hok.
    destruct (find_phone_present _ _ Hold) as [i Hi]. exists i.
    destruct (find_phone_Some _ _ _ _ Hi) as (_ & Hat & Hfirst).
    split; [done|]. split; [done|].
    run_command. rewrite Hfind, edit_phone_run, Hi.
    apply find_phone_None in Hnew as ->.
    by apply Phone_ok_iff in Hok as ->.
Qed.

Lemma change_contact_outcomes_witness :
  change_contact [py "Ann"; sample_phone; sample_phone] sample_book
  = (py "Error: " ++ py msg_duplicate, sample_book)
  /\ change_contact [py "Zed"; sample_phone; other_phone] sample_book
     = (py "Error: Contact does not exist. Try again.", sample_book).
Proof.
  split.
  - destruct (change_contact_outcomes
                [py "Ann"; sample_phone; sample_phone] sample_book) as (_ & H).
    destruct (H _ _ _ _ eq_refl) as (_ & Hfound).
    destruct (Hfound sample_record eq_refl) as (_ & Hdup & _).
    apply Hdup; apply list_elem_of_singleton; reflexivity.
  - destruct (change_contact_outcomes
                [py "Zed"; sample_phone; other_phone] sample_book) as (_ & H).
    destruct (H _ _ _ _ eq_refl) as (Hnone & _).
    apply Hnone. reflexivity.
Defined.

Lemma add_birthday_run (s : pystr) (r : record) :
  add_birthday s r
  = match Birthday s with
    | inl e => (inl e, r)
    | inr d => (inr true, set_birthday r (Some d))
    end.
Proof. run_method. by destruct (Birthday s). Qed.

(** X18: what the command [add_birthday] does, case by case, and that it
    is not all-or-nothing.  The record is looked up, and created when it
    is not found, before the date is parsed: a command with a new name
    and an invalid date answers with the date error and still leaves a new
    contact without phones and birthday in the book.  For a known name an
    invalid date changes nothing, and a valid one replaces the birthday. *)
Theorem add_birthday_command_outcomes (args : list pystr)
    (book : AddressBook) :
  ((length args < 2)%nat ->
   add_birthday_command args book
   = (py "Error: Enter contact name and birthday DD.MM.YYYY", book))
  /\ (forall n date_str rest, args = n :: date_str :: rest ->
        (find n book = None -> blank n ->
         add_birthday_command args book
         = (py "Error: " ++ py msg_empty_name, book))
        /\ (forall d, find n book = None -> ~ blank n ->
              Birthday date_str = inr d ->
              add_birthday_command args book
              = (py "Birthday added.",
                 dict_setitem (strip n) (mkrecord (strip n) [] (Some d)) book))
        /\ (forall e, find n book = None -> ~ blank n ->
              Birthday date_str = inl e ->
              add_birthday_command args book
              = (py "Error: " ++ py msg_bad_date,
                 dict_setitem (strip n) (mkrecord (strip n) [] None) book)
              /\ (clean_token n ->
                  (add_birthday_command args book).2
                  = book ++ [(n, mkrecord n [] None)]))
        /\ (forall r d, find n book = Some r -> Birthday date_str = inr d ->
              add_birthday_command args book
              = (py "Birthday added.",
                 dict_setitem n (set_birthday r (Some d)) book))
        /\ (forall r e, find n book = Some r -> Birthday date_str = inl e ->
              add_birthday_command args book
              = (py "Error: " ++ py msg_bad_date, book))).
Proof.
  split.
  { intros Hlen. by destruct args as [|n [|s rest]]; [..|simpl in Hlen; lia]. }
  intros n date_str rest ->. split_and!.
  - intros Hfind Hn. run_command. by rewrite Hfind, (Name_blank n Hn).
  - intros d Hfind Hn Hd. run_command.
    rewrite Hfind, (Name_not_blank n Hn). cbn [name].
    rewrite add_birthday_run, Hd. by rewrite dict_setitem_setitem.
  - intros e Hfind Hn He.
    assert (add_birthday_command (n :: date_str :: rest) book
            = (py "Error: " ++ py msg_bad_date,
               dict_setitem (strip n) (mkrecord (strip n) [] None) book))
      as Hrun.
    { run_command. rewrite Hfind, (Name_not_blank n Hn). cbn [name].
      rewrite add_birthday_run, He. rewrite (Birthday_inl _ _ He).
      by rewrite dict_setitem_setitem. }
    split; [done|]. intros Hclean. rewrite Hrun. simpl.
    rewrite (clean_token_strip n Hclean). apply dict_setitem_new.
    intros Hin. apply dict_get_is_Some in Hin as [v Hv].
    unfold find in Hfind. congruence.
  - intros r d Hfind Hd. run_command.
    by rewrite Hfind, add_birthday_run, Hd.
  - intros r e Hfind He. run_command.
    rewrite Hfind, add_birthday_run, He, (Birthday_inl _ _ He).
    by rewrite (dict_setitem_id n r book Hfind).
Qed.

Lemma add_birthday_command_outcomes_witness :
  add_birthday_command [py "Cid"; py "31.02.2024"] sample_book
  = (py "Error: " ++ py msg_bad_date,
     sample_book ++ [(py "Cid", mkrecord (py "Cid") [] None)]).
Proof.
  destruct (add_birthday_command_outcomes [py "Cid"; py "31.02.2024"]
              sample_book) as (_ & H).
  destruct (H _ _ _ eq_refl) as (_ & _ & Hbad & _).
  destruct (Hbad DateValidationError) as [Hrun _].
  - reflexivity.
  - unfold blank. intros Hb. apply Forall_cons in Hb as [Hb _].
    discriminate Hb.
  - reflexivity.
  - rewrite Hrun. reflexivity.
Defined.

(** An answer that begins with [Error: ] is none of the answers of a
    command that went through. *)
Ltac not_an_error H :=
  apply (f_equal head) in H; vm_compute in H; discriminate H.

Lemma snoc_not_nil (ps : list pystr) (p : pystr) : ps ++ [p] <> [].
Proof. by destruct ps. Qed.

Lemma show_phone_found (n : pystr) (r : record) (book : AddressBook) :
  find n book = Some r -> phones r <> [] ->
  show_phone [n] book = (n ++ py ": " ++ join (py ", ") (phones r), book).
Proof.
  intros Hfind Hne. run_command. rewrite Hfind. by destruct (phones r).
Qed.

(** X19: a phone that was added is shown.  Whenever [add_contact]
    answers that the contact was added or updated, for a name without
    whitespace as the command reader delivers it, [show_phone] for that
    name answers next with the phones the contact had before followed by
    the new phone. *)
Theorem added_phone_is_shown (n p : pystr) (rest : list pystr)
    (book : AddressBook) :
  clean_token n ->
  (add_contact (n :: p :: rest) book).1 = py "Contact added."
  \/ (add_contact (n :: p :: rest) book).1 = py "Contact updated." ->
  exists ps,
    show_phone [n] ((add_contact (n :: p :: rest) book).2)
    = (n ++ py ": " ++ join (py ", ") (ps ++ [p]),
       (add_contact (n :: p :: rest) book).2)
    /\ (find n book = None -> ps = [])
    /\ (forall r, find n book = Some r -> ps = phones r).
Proof.
  intros Hclean Hout.
  destruct (Phone_cases p) as [Hp|Hp].
  2: { exfalso. revert Hout. run_command. rewrite Hp. simpl.
       intros [H|H]; not_an_error H. }
  pose proof Hp as Hten. apply Phone_ok_iff in Hten.
  destruct (find n book) as [r|] eqn:Hfind.
  - destruct (decide (p ∈ phones r)) as [Hin|Hnew].
    { exfalso. revert Hout. run_command.
      rewrite Hp, Hfind, (add_phone_dup p r Hin). simpl.
      intros [H|H]; not_an_error H. }
    exists (phones r).
    assert (add_contact (n :: p :: rest) book
            = (py "Contact updated.",
               dict_setitem n (set_phones r (phones r ++ [p])) book)) as ->.
    { run_command. by rewrite Hp, Hfind, (add_phone_new p r Hnew Hten). }
    cbn [fst snd]. split; [|split; [done | by intros ? [= <-]]].
    apply (show_phone_found n (set_phones r (phones r ++ [p]))).
    + apply dict_get_setitem.
    + apply snoc_not_nil.
  - exists [].
    assert (add_contact (n :: p :: rest) book
            = (py "Contact added.",
               dict_setitem n (mkrecord n [p] None) book)) as ->.
    { run_command. rewrite Hp, Hfind, (clean_token_Name n Hclean). cbn [name].
      rewrite add_phone_new by (done || apply not_elem_of_nil).
      by rewrite dict_setitem_setitem. }
    cbn [fst snd]. split; [|done].
    apply (show_phone_found n (mkrecord n [p] None)); [|done].
    apply dict_get_setitem.
Qed.

Lemma added_phone_is_shown_witness :
  exists ps,
    show_phone [py "Ann"]
      ((add_contact [py "Ann"; other_phone] sample_book).2)
    = (py "Ann" ++ py ": " ++ join (py ", ") (ps ++ [other_phone]),
       (add_contact [py "Ann"; other_phone] sample_book).2)
    /\ ps = [sample_phone].
Proof.
  destruct (added_phone_is_shown (py "Ann") other_phone [] sample_book)
    as (ps & Hshow & _ & Hps).
  - unfold clean_token. decide_by_computation.
  - right. reflexivity.
  - exists ps. split; [exact Hshow|]. apply (Hps sample_record). reflexivity.
Defined.

(** X20: a birthday that was added is shown as it was typed.  For a name
    without whitespace and a valid DD.MM.YYYY date whose year is printed
    with four digits, the command [add_birthday] answers that the birthday
    was added, and [show_birthday] for that name answers next with the
    very string that was entered. *)
Theorem added_birthday_is_shown (yf : year_format) (n s : pystr)
    (rest : list pystr) (book : AddressBook) :
  clean_token n -> valid_ddmmyyyy s ->
  (yf = YearPadded
   \/ forall d m y, ddmmyyyy_fields s = Some (d, m, y) -> 1000 <= y) ->
  (add_birthday_command (n :: s :: rest) book).1 = py "Birthday added."
  /\ show_birthday yf [n] ((add_birthday_command (n :: s :: rest) book).2)
     = (n ++ py ": " ++ s, (add_birthday_command (n :: s :: rest) book).2).
Proof.
  intros Hclean Hs Hyf.
  destruct (Birthday_of_valid_ddmmyyyy s Hs) as (d & m & y & Hf & Hb & Hp & Hq).
  assert (strftime yf (mkdate y m d) = s) as Hshow.
  { destruct Hyf as [-> | Hy]; [done|]. destruct yf; [done|].
    apply Hq. by apply (Hy d m). }
  assert (exists r, birthday r = Some (mkdate y m d)
                    /\ add_birthday_command (n :: s :: rest) book
                       = (py "Birthday added.", dict_setitem n r book))
    as (r & Hr & ->).
  { destruct (find n book) as [r|] eqn:Hfind.
    - exists (set_birthday r (Some (mkdate y m d))). split; [done|].
      run_command. by rewrite Hfind, add_birthday_run, Hb.
    - exists (mkrecord n [] (Some (mkdate y m d))). split; [done|].
      run_command. rewrite Hfind, (clean_token_Name n Hclean). cbn [name].
      rewrite add_birthday_run, Hb. by rewrite dict_setitem_setitem. }
  cbn [fst snd]. split; [done|]. run_command.
  unfold find. rewrite dict_get_setitem.
  unfold birthday_to_string, date_to_string. rewrite Hr. simpl.
  by rewrite Hshow.
Qed.

Lemma added_birthday_is_shown_witness :
  show_birthday YearPlain [py "Bob"]
    ((add_birthday_command [py "Bob"; py "05.01.1990"] sample_book).2)
  = (py "Bob" ++ py ": " ++ py "05.01.1990",
     (add_birthday_command [py "Bob"; py "05.01.1990"] sample_book).2).
Proof.
  apply (added_birthday_is_shown YearPlain (py "Bob") (py "05.01.1990") []
           sample_book).
  - unfold clean_token. decide_by_computation.
  - exists 5, 1, 1990. split; [reflexivity|].
    unfold valid_date, MINYEAR, MAXYEAR. simpl. vm_compute.
    intuition discriminate.
  - right. intros d m y Hf. injection Hf as <- <- <-. lia.
Defined.

Lemma names_on_cons (d : pystr) (item : upcoming) (items : list upcoming) :
  names_on d (item :: items)
  = if decide (congratulation_date item = d)
    then contact_name item :: names_on d items
    else names_on d items.
Proof.
  unfold names_on. rewrite filter_cons.
  by destruct (decide (congratulation_date item = d)).
Qed.

Lemma group_add_get (d : pystr) (grouped : @dict (list pystr))
    (item : upcoming) :
  dict_get d (group_add grouped item)
  = if decide (congratulation_date item = d)
    then Some (default [] (dict_get d grouped) ++ [contact_name item])
    else dict_get d grouped.
Proof.
  unfold group_add. destruct (decide (congratulation_date item = d)) as [<-|Hd].
  - destruct (dict_get _ grouped); by rewrite dict_get_setitem.
  - destruct (dict_get (congratulation_date item) grouped);
      by rewrite dict_get_setitem_ne.
Qed.

Lemma group_add_wf (grouped : @dict (list pystr)) (item : upcoming) :
  dict_wf grouped -> dict_wf (group_add grouped item).
Proof.
  intros H. unfold group_add.
  destruct (dict_get _ grouped); by apply dict_setitem_wf.
Qed.

Lemma group_fold_get (d : pystr) (items : list upcoming)
    (grouped : @dict (list pystr)) :
  dict_get d (fold_left group_add items grouped)
  = grouped_with (dict_get d grouped) (names_on d items).
Proof.
  revert grouped. induction items as [|item items IH]; intros grouped.
  - simpl. unfold names_on. simpl.
    destruct (dict_get d grouped); simpl; by rewrite ?app_nil_r.
  - simpl. rewrite IH, group_add_get, names_on_cons.
    destruct (decide (congratulation_date item = d)); [|done].
    destruct (dict_get d grouped); simpl; [by rewrite <- app_assoc | done].
Qed.

Lemma group_fold_wf (items : list upcoming) (grouped : @dict (list pystr)) :
  dict_wf grouped -> dict_wf (fold_left group_add items grouped).
Proof.
  revert grouped. induction items as [|item items IH]; intros grouped H; [done|].
  simpl. by apply IH, group_add_wf.
Qed.

(** X21: the command [birthdays].  It never changes the book.  When the
    query raises, the command answers with a line that begins with
    [Error: ] instead of failing; when nothing is due it says so;
    otherwise it prints one line per date, and the lines list, under each
    date and only once, the names the query reported for that date, in the
    order of the report. *)
Theorem birthdays_groups_by_date (yf : year_format) (today : date)
    (args : list pystr) (book : AddressBook) :
  (birthdays yf today args book).2 = book
  /\ (forall e, get_upcoming_birthdays yf today book = inl e ->
        exists msg,
          (birthdays yf today args book).1 = py "Error: " ++ py msg)
  /\ (get_upcoming_birthdays yf today book = inr [] ->
      (birthdays yf today args book).1
      = py "No upcoming birthdays within the next 7 days.")
  /\ (forall out, get_upcoming_birthdays yf today book = inr out ->
        out <> [] ->
        exists groups : @dict (list pystr),
          (birthdays yf today args book).1
          = join [10%N]
              (map (fun '(d, names) => d ++ py ": " ++ join (py ", ") names)
                 groups)
          /\ dict_wf groups
          /\ (forall d, dict_get d groups
                        = grouped_with None (names_on d out))
          /\ (forall d names, dict_get d groups = Some names -> names <> [])).
Proof.
  split_and!.
  - run_command. destruct (get_upcoming_birthdays yf today book) as [[m|m]|out];
      [done | done |]. by destruct out.
  - intros e He. run_command. rewrite He.
    apply upcoming_loop_inl in He as [msg ->]. by exists msg.
  - intros Hout. run_command. by rewrite Hout.
  - intros out Hout Hne. exists (group_by_date out). split_and!.
    + run_command. rewrite Hout. by destruct out.
    + apply group_fold_wf, NoDup_nil_2.
    + intros d. apply (group_fold_get d out []).
    + intros d names. unfold group_by_date.
      rewrite (group_fold_get d out []). simpl.
      destruct (names_on d out); [done|]. by intros [= <-].
Qed.

Lemma birthdays_groups_by_date_witness :
  (exists msg,
      (birthdays YearPlain (mkdate 2023 5 20) [] leap_book).1
      = py "Error: " ++ py msg)
  /\ (birthdays YearPlain (mkdate 2024 12 1) [] scenario_book).1
     = py "No upcoming birthdays within the next 7 days.".
Proof.
  split.
  - destruct (birthdays_groups_by_date YearPlain (mkdate 2023 5 20) []
                leap_book) as (_ & Herr & _).
    apply (Herr (ValueError "day is out of range for month")). reflexivity.
  - destruct (birthdays_groups_by_date YearPlain (mkdate 2024 12 1) []
                scenario_book) as (_ & _ & Hnone & _).
    apply Hnone. reflexivity.
Defined.

(** ** The loop of [main] *)

Lemma show_phone_reads (args : list pystr) (book : AddressBook) :
  (show_phone args book).2 = book.
Proof.
  run_command. destruct args as [|n rest]; [done|].
  destruct (find n book) as [r|]; [|done]. by destruct (phones r).
Qed.

Lemma show_all_reads (yf : year_format) (book : AddressBook) :
  (show_all yf book).2 = book.
Proof. run_command. by destruct book. Qed.

Lemma show_birthday_reads (yf : year_format) (args : list pystr)
    (book : AddressBook) :
  (show_birthday yf args book).2 = book.
Proof.
  run_command. destruct args as [|n rest]; [done|].
  destruct (find n book) as [r|]; [|done].
  by destruct (birthday_to_string yf r).
Qed.

Lemma birthdays_reads (yf : year_format) (today : date) (args : list pystr)
    (book : AddressBook) :
  (birthdays yf today args book).2 = book.
Proof.
  run_command. destruct (get_upcoming_birthdays yf today book) as [[m|m]|out];
    [done | done |]. by destruct out.
Qed.

Lemma main_turn_on_line (lower : pystr -> pystr) (yf : year_format)
    (today : date) (user_input : pystr) (book : AddressBook) :
  (user_input = [] ->
   main_turn lower yf today user_input book = (Printed [], book))
  /\ (user_input <> [] -> blank user_input ->
      main_turn lower yf today user_input book
      = (Printed [py "Invalid command."], book))
  /\ (user_input <> [] ->
      exists text,
        (main_turn lower yf today user_input book).1 = Printed [text]
        \/ (main_turn lower yf today user_input book).1 = Stopped [text])
  /\ ((exists texts,
         (main_turn lower yf today user_input book).1 = Stopped texts)
      <-> exists command args,
            parse_input lower user_input = inr (command, args)
            /\ (command = py "close" \/ command = py "exit"))
  /\ (main_turn lower yf today user_input book).1 <> Uncaught
  /\ ((main_turn lower yf today user_input book).2 <> book ->
      exists command args,
        parse_input lower user_input = inr (command, args)
        /\ mutating_command command).
Proof.
  assert (blank user_input ->
          exists e, parse_input lower user_input = inl e) as Hblank.
  { intros Hb. unfold parse_input.
    replace (split user_input) with (@nil pystr); [by eauto|].
    symmetry. apply split_from_nil. by split. }
  assert (user_input = [] -> parse_input lower user_input
                             = inl (ValueError "not enough values to unpack (expected at least 1, got 0)"))
    as Hempty by (by intros ->).
  unfold main_turn, mutating_command, say.
  destruct user_input as [|c s]; [|set (c :: s) as line in *].
  { specialize (Hempty eq_refl). cbn [fst snd].
    split; [done|]. split; [done|]. split; [done|]. split.
    - split; [by intros [? ?]|]. intros (cmd & a & H & _). congruence.
    - split; [done | by intros ?]. }
  destruct (parse_input lower line) as [e|[command args]] eqn:Hparse.
  { cbn [fst snd]. split; [done|]. split; [done|].
    split; [intros _; by eauto|]. split.
    - split; [by intros [? ?] | by intros (? & ? & ? & _)].
    - split; [done | by intros ?]. }
  assert (~ blank line) as Hnb.
  { intros Hb. destruct (Hblank Hb) as [e He]. congruence. }
  split; [done|]. split; [done|].
  repeat match goal with
         | |- context [bool_decide (command = ?s)] =>
             destruct (bool_decide_reflect (command = s))
         end; cbn [orb fst snd];
    (split; [intros _; by eauto|]);
    (split;
     [split;
      [by (intros [? ?]; simplify_eq; eauto 6)
      |intros (? & ? & ? & [?|?]); by simplify_eq; eauto]|]);
    (split; [done|]);
    try done;
    rewrite ?show_phone_reads, ?show_all_reads, ?show_birthday_reads,
      ?birthdays_reads; try done;
    intros _; exists command, args; by eauto 6.
Qed.


(** X22: one turn of the loop of [main], the event at the prompt being a
    line, Ctrl-C or the end of the input.  An empty line prints nothing; a
    line of whitespace only is answered with [Invalid command.]; every
    other line is answered with exactly one call of [print], whose text
    can span several lines (as for [all] and [birthdays]).  The loop is
    left, with [main] returning, exactly on the commands [close] and
    [exit] and on [KeyboardInterrupt], which prints [Error. Exiting...];
    it is left by an exception exactly on [EOFError], which nothing
    catches.  The book can change only on a line with the command [add],
    [change] or [add-birthday]: every other event leaves it as it was. *)
Theorem main_turn_frame (lower : pystr -> pystr) (yf : year_format)
    (today : date) (event : input_event) (book : AddressBook) :
  (event = Line [] ->
   main_step lower yf today event book = (Printed [], book))
  /\ (forall user_input, event = Line user_input ->
        user_input <> [] -> blank user_input ->
        main_step lower yf today event book
        = (Printed [py "Invalid command."], book))
  /\ (forall user_input, event = Line user_input -> user_input <> [] ->
        exists text,
          (main_step lower yf today event book).1 = Printed [text]
          \/ (main_step lower yf today event book).1 = Stopped [text])
  /\ (event = KeyboardInterrupt ->
      main_step lower yf today event book
      = (Stopped [py "Error. Exiting..."], book))
  /\ (event = EOFError ->
      main_step lower yf today event book = (Uncaught, book))
  /\ ((exists texts,
         (main_step lower yf today event book).1 = Stopped texts)
      <-> event = KeyboardInterrupt
          \/ exists user_input command args,
               event = Line user_input
               /\ parse_input lower user_input = inr (command, args)
               /\ (command = py "close" \/ command = py "exit"))
  /\ ((main_step lower yf today event book).1 = Uncaught
      <-> event = EOFError)
  /\ ((main_step lower yf today event book).2 <> book ->
      exists user_input command args,
        event = Line user_input
        /\ parse_input lower user_input = inr (command, args)
        /\ mutating_command command).
Proof.
  destruct event as [user_input| |]; cbn [main_step fst snd].
  - destruct (main_turn_on_line lower yf today user_input book)
      as (Hempty & Hblank & Hone & Hstop & Hcaught & Hframe).
    split; [by intros [= ->]; apply Hempty|].
    split; [by intros s [= <-]; apply Hblank|].
    split; [by intros s [= <-]; apply Hone|].
    split; [done|]. split; [done|]. split; [|split].
    + rewrite Hstop. split.
      * intros (command & args & ? & ?). right.
        by exists user_input, command, args.
      * intros [?|(s & command & args & [= <-] & ? & ?)]; [done|].
        by exists command, args.
    + split; [by intros ? | done].
    + intros Hne. destruct (Hframe Hne) as (command & args & ? & ?).
      by exists user_input, command, args.
  - split; [done|]. split; [done|]. split; [done|]. split; [done|].
    split; [done|]. split; [split; [by left | by eauto]|].
    split; [done|]. by intros ?.
  - split; [done|]. split; [done|]. split; [done|]. split; [done|].
    split; [done|]. split.
    + split; [by intros [? ?]|]. intros [?|(? & ? & ? & ? & _)]; done.
    + split; [done|]. by intros ?.
Qed.

Lemma main_turn_frame_witness :
  main_step ascii_lower YearPlain (mkdate 2024 5 20) (Line (py "   "))
    sample_book
  = (Printed [py "Invalid command."], sample_book)
  /\ exists texts,
       (main_step ascii_lower YearPlain (mkdate 2024 5 20)
          (Line (py "EXIT now")) sample_book).1 = Stopped texts.
Proof.
  split.
  - destruct (main_turn_frame ascii_lower YearPlain (mkdate 2024 5 20)
                (Line (py "   ")) sample_book) as (_ & Hblank & _).
    apply (Hblank (py "   ")); [reflexivity | discriminate |].
    unfold blank. decide_by_computation.
  - destruct (main_turn_frame ascii_lower YearPlain (mkdate 2024 5 20)
                (Line (py "EXIT now")) sample_book)
      as (_ & _ & _ & _ & _ & Hstop & _).
    apply Hstop. right. exists (py "EXIT now"), (py "exit"), [py "now"].
    split; [reflexivity|]. split; [reflexivity|]. right. reflexivity.
Defined.

(** A method run on the record found under [n] leaves the book well formed
    when it leaves the record well formed and keeps its name. *)
Lemma book_ok_entry {A} (n : pystr) (r : record) (m : M record A)
    (book : AddressBook) :
  book_ok book -> find n book = Some r ->
  (record_ok r -> record_ok ((m r).2)) -> name ((m r).2) = name r ->
  book_ok ((on_entry n r m book).2).
Proof.
  intros Hb Hfind Hr Hname. unfold on_entry.
  destruct (book_ok_find book n r Hb Hfind) as [-> Hok].
  destruct (m r) as [res r']. simpl in *.
  apply book_ok_setitem; [done | by apply Hr | done].
Qed.

(** The same for a record that has just been created and stored. *)
Lemma book_ok_new_entry {A} (n : pystr) (r : record) (m : M record A)
    (book : AddressBook) :
  book_ok book -> Record_init n = inr r ->
  (record_ok r -> record_ok ((m r).2)) -> name ((m r).2) = name r ->
  book_ok ((on_entry (name r) r m (dict_setitem (name r) r book)).2).
Proof.
  intros Hb Hinit Hr Hname. unfold on_entry.
  pose proof (Record_init_ok n r Hinit) as Hok.
  destruct (m r) as [res r']. simpl in *.
  rewrite dict_setitem_setitem. apply book_ok_setitem; [done | by apply Hr | done].
Qed.

Lemma add_contact_ok (args : list pystr) (book : AddressBook) :
  book_ok book -> book_ok ((add_contact args book).2).
Proof.
  destruct method_keeps_name as (Na & _).
  intros Hb. destruct args as [|n [|p rest]]; [done | done |].
  unfold add_contact, input_error, add_contact_body, bind, eval, get, ret.
  destruct (Phone p) as [e|v]; [by destruct e|].
  destruct (find n book) as [r|] eqn:Hfind.
  - pose proof (book_ok_entry n r (add_phone v) book Hb Hfind
                  (add_phone_ok v r) (Na v r)) as H.
    destruct (on_entry n r (add_phone v) book) as [[[m|m]|[]] book']; done.
  - destruct (Record_init n) as [e|r] eqn:Hinit; [by destruct e|].
    unfold add_record, bind, get, put.
    pose proof (book_ok_new_entry n r (add_phone v) book Hb Hinit
                  (add_phone_ok v r) (Na v r)) as H.
    destruct (on_entry (name r) r (add_phone v) _) as [[[m|m]|[]] book']; done.
Qed.

Lemma change_contact_ok (args : list pystr) (book : AddressBook) :
  book_ok book -> book_ok ((change_contact args book).2).
Proof.
  destruct method_keeps_name as (_ & _ & Ne & _).
  intros Hb. destruct args as [|n [|old [|new rest]]]; [done | done | done |].
  unfold change_contact, input_error, change_contact_body, bind, eval, get,
    ret, raise.
  destruct (find n book) as [r|] eqn:Hfind; [|done].
  pose proof (book_ok_entry n r (edit_phone old new) book Hb Hfind
                (edit_phone_ok old new r) (Ne old new r)) as H.
  destruct (on_entry n r (edit_phone old new) book) as [[[m|m]|b] book']; done.
Qed.

Lemma add_birthday_command_ok (args : list pystr) (book : AddressBook) :
  book_ok book -> book_ok ((add_birthday_command args book).2).
Proof.
  destruct method_keeps_name as (_ & _ & _ & Nb).
  intros Hb. destruct args as [|n [|s rest]]; [done | done |].
  unfold add_birthday_command, input_error, add_birthday_command_body, bind,
    eval, get, ret.
  destruct (find n book) as [r|] eqn:Hfind.
  - pose proof (book_ok_entry n r (add_birthday s) book Hb Hfind
                  (add_birthday_ok s r) (Nb s r)) as H.
    destruct (on_entry n r (add_birthday s) book) as [[[m|m]|b] book']; done.
  - destruct (Record_init n) as [e|r] eqn:Hinit; [by destruct e|].
    unfold add_record, bind, get, put.
    pose proof (book_ok_new_entry n r (add_birthday s) book Hb Hinit
                  (add_birthday_ok s r) (Nb s r)) as H.
    destruct (on_entry (name r) r (add_birthday s) _) as [[[m|m]|b] book'];
      done.
Qed.

Lemma main_turn_ok (lower : pystr -> pystr) (yf : year_format) (today : date)
    (user_input : pystr) (book : AddressBook) :
  book_ok book -> book_ok ((main_turn lower yf today user_input book).2).
Proof.
  intros Hb. unfold main_turn, say.
  destruct user_input as [|c s]; [done|].
  destruct (parse_input lower (c :: s)) as [e|[command args]]; [done|].
  repeat match goal with
         | |- context [bool_decide (command = ?s)] =>
             destruct (bool_decide (command = s))
         end; cbn [orb fst snd];
    rewrite ?show_phone_reads, ?show_all_reads, ?show_birthday_reads,
      ?birthdays_reads; try done.
  - by apply add_contact_ok.
  - by apply change_contact_ok.
  - by apply add_birthday_command_ok.
Qed.

(** X23: the book stays well formed through a whole session.  Starting
    from a well-formed book (the empty one, for instance), after any
    sequence of input lines, read on any days, the keys of the book are
    unique, every record is stored under its own name, names are trimmed
    and not empty, phones are valid and pairwise different within a
    record, and every birthday is a real date; in particular [find]
    returns no record under another name than its own. *)
Theorem session_keeps_book_ok (lower : pystr -> pystr) (yf : year_format)
    (turns : list (date * pystr)) (book : AddressBook) :
  book_ok book ->
  book_ok (fold_left
             (fun b t => (main_turn lower yf t.1 t.2 b).2) turns book)
  /\ forall n r,
       find n (fold_left
                 (fun b t => (main_turn lower yf t.1 t.2 b).2) turns book)
       = Some r ->
       name r = n /\ record_ok r.
Proof.
  intros Hb.
  assert (book_ok (fold_left
                     (fun b t => (main_turn lower yf t.1 t.2 b).2) turns book))
    as Hok.
  { revert book Hb. induction turns as [|t turns IH]; intros book Hb; [done|].
    simpl. by apply IH, main_turn_ok. }
  split; [done|]. intros n r Hfind.
  by destruct (book_ok_find _ n r Hok Hfind) as [-> ?].
Qed.

Lemma session_keeps_book_ok_witness :
  book_ok (fold_left
             (fun b t => (main_turn ascii_lower YearPlain t.1 t.2 b).2)
             [(mkdate 2024 5 20, py "add Ann 1234567890");
              (mkdate 2024 5 20, py "add-birthday Bob 31.02.2024");
              (mkdate 2024 5 21, py "change Ann 1234567890 0987654321")]
             []).
Proof.
  apply (session_keeps_book_ok ascii_lower YearPlain
           [(mkdate 2024 5 20, py "add Ann 1234567890");
            (mkdate 2024 5 20, py "add-birthday Bob 31.02.2024");
            (mkdate 2024 5 21, py "change Ann 1234567890 0987654321")] []).
  split; [apply NoDup_nil_2 | constructor].
Defined.
